(** * Verification of the query codec of spring-data-dynamic-query-ui

    The development embeds [lib/utils/query-builder.ts] (class [QueryBuilder])
    together with the platform functions it calls: [URLSearchParams]
    (WHATWG URL, application/x-www-form-urlencoded), [decodeURIComponent],
    [parseInt], [String.prototype.split], [Number.prototype.toString] and
    the insertion-ordered [Map].

    Representation choices.
    - A JavaScript string is represented by the bytes of its UTF-8
      encoding ([string], one [ascii] per byte).  The representation is
      exact for the strings without lone surrogates; these are the byte
      strings that [well_formed_utf8] accepts.  On them the conversion to
      a USVString that [URLSearchParams.append] applies ([toUSVString]),
      the UTF-8 encoding of its serialiser and the UTF-8 decoding of its
      parser ([utf8_decode]) are the identity ([well_formed_conversions]),
      and the model of [URLSearchParams] leaves them out; on a lone
      surrogate or an ill-formed sequence the platform substitutes
      U+FFFD where the model keeps the bytes.  The theorems on the round
      trip of keys and values through the string therefore assume
      [unicode_query].  Nothing else below inspects bytes above 0x7F
      except the white space test of [parseInt] and the UTF-8 check of
      [decodeURIComponent].
    - A JavaScript number is [NaN], an infinity or an integer.  Fractions
      and the sign of zero are not represented.  [parseInt] rounds to the
      nearest double as IEEE 754 prescribes (ECMAScript lets an
      implementation approximate beyond the 20th significant digit; the
      indices and page numbers of the theorems are far below that).
    - An array that may have holes is a list of options ([None] is a hole).
    - A thrown exception is the [Throw] case of [completion]. *)

From Stdlib Require Import Bool List String Ascii NArith ZArith Lia.
From Stdlib Require Import DecimalString DecimalN.
Import ListNotations.

Local Open Scope string_scope.
Local Open Scope list_scope.

(* ================================================================== *)
(** * Part I: definitions                                               *)
(* ================================================================== *)

(** ** Completions: normal return or thrown exception *)

Inductive exn : Set := URIError.

Inductive completion (A : Type) : Type :=
| Normal (a : A)
| Throw (e : exn).

Arguments Normal {A} a.
Arguments Throw {A} e.

Definition bind {A B : Type} (c : completion A) (k : A -> completion B)
  : completion B :=
  match c with
  | Normal a => k a
  | Throw e => Throw e
  end.

Notation "x <- c ;; k" := (bind c (fun x => k))
  (at level 61, c at next level, right associativity).

(** Left-to-right iteration of a body that may throw; the first exception
    aborts the loop. *)
Fixpoint foldM {A S : Type} (body : S -> A -> completion S)
  (l : list A) (s : S) : completion S :=
  match l with
  | [] => Normal s
  | x :: l' => s' <- body s x ;; foldM body l' s'
  end.

(** ** Bytes and characters *)

Definition code (c : ascii) : N := N_of_ascii c.

Definition between (lo hi : N) (c : ascii) : bool :=
  ((lo <=? code c) && (code c <=? hi))%N.

Definition is_digit (c : ascii) : bool := between 48 57 c.
Definition is_upper (c : ascii) : bool := between 65 90 c.
Definition is_lower (c : ascii) : bool := between 97 122 c.
Definition is_alnum (c : ascii) : bool :=
  is_digit c || is_upper c || is_lower c.

(** Value of a hexadecimal digit, either case. *)
Definition hex_value (c : ascii) : option N :=
  if is_digit c then Some (code c - 48)%N
  else if between 65 70 c then Some (code c - 55)%N
  else if between 97 102 c then Some (code c - 87)%N
  else None.

(** Upper-case hexadecimal digit of a nibble. *)
Definition hex_digit (n : N) : ascii :=
  if (n <? 10)%N then ascii_of_N (48 + n) else ascii_of_N (55 + n).

Definition byte_of_hex (h l : N) : ascii := ascii_of_N (16 * h + l).

(** ** Strings *)

Fixpoint all_chars (p : ascii -> bool) (s : string) : bool :=
  match s with
  | EmptyString => true
  | String c t => p c && all_chars p t
  end.

Fixpoint mem_char (x : ascii) (s : string) : bool :=
  match s with
  | EmptyString => false
  | String c t => Ascii.eqb c x || mem_char x t
  end.

(** [strip_prefix p s] is [Some r] when [s = p ++ r]. *)
Fixpoint strip_prefix (p s : string) : option string :=
  match p, s with
  | EmptyString, _ => Some s
  | String a p', String b s' =>
      if Ascii.eqb a b then strip_prefix p' s' else None
  | String _ _, EmptyString => None
  end.

(** [s.split(sep)] for a one-character separator: never empty. *)
Fixpoint split_char (sep : ascii) (s : string) : list string :=
  match s with
  | EmptyString => [EmptyString]
  | String c t =>
      if Ascii.eqb c sep then EmptyString :: split_char sep t
      else match split_char sep t with
           | p :: ps => String c p :: ps
           | [] => [String c EmptyString]
           end
  end.

(** [s.split("&&")]: matches are taken left to right and do not overlap. *)
Fixpoint split_ampamp (s : string) : list string :=
  match s with
  | EmptyString => [EmptyString]
  | String c t =>
      match c, t with
      | "&"%char, String "&"%char rest => EmptyString :: split_ampamp rest
      | _, _ =>
          match split_ampamp t with
          | p :: ps => String c p :: ps
          | [] => [String c EmptyString]
          end
      end
  end.

(** Splits at the first occurrence of [sep]; [None] when there is none. *)
Fixpoint cut_at (sep : ascii) (s : string) : option (string * string) :=
  match s with
  | EmptyString => None
  | String c t =>
      if Ascii.eqb c sep then Some (EmptyString, t)
      else match cut_at sep t with
           | Some (a, b) => Some (String c a, b)
           | None => None
           end
  end.

(** ** Numbers *)

Inductive number : Set :=
| NaN
| Infinity (negative : bool)
| Int (z : Z).

Definition number_eqb (a b : number) : bool :=
  match a, b with
  | NaN, NaN => true
  | Infinity x, Infinity y => Bool.eqb x y
  | Int x, Int y => Z.eqb x y
  | _, _ => false
  end.

(** The double nearest to a natural number: 53 significant bits, ties to
    even, overflow to infinity. *)
Definition double_of_N (n : N) : number :=
  if (n <? 2 ^ 53)%N then Int (Z.of_N n)
  else
    let e := (N.log2 n - 52)%N in
    let q := N.shiftr n e in
    let r := (n mod 2 ^ e)%N in
    let half := (2 ^ (e - 1))%N in
    let q' := if (half <? r)%N || ((r =? half)%N && N.odd q)
              then (q + 1)%N else q in
    let v := (q' * 2 ^ e)%N in
    if (2 ^ 1024 <=? v)%N then Infinity false else Int (Z.of_N v).

Definition negate (x : number) : number :=
  match x with
  | NaN => NaN
  | Infinity b => Infinity (negb b)
  | Int z => Int (- z)
  end.

(** Decimal numeral of a natural number, as in a template literal
    [`${idx}`] for an array index. *)
Definition decimal (n : N) : string :=
  NilZero.string_of_uint (N.to_uint n).

(** [Number.prototype.toString()].  The decimal expansion is what
    JavaScript prints for an integer that is a double of magnitude below
    10^21, which covers every safe integer; an [Int z] beyond the safe
    integers stands for a JavaScript number only when [z] is a double. *)
Definition number_toString (x : number) : string :=
  match x with
  | NaN => "NaN"
  | Infinity false => "Infinity"
  | Infinity true => "-Infinity"
  | Int z => if (z <? 0)%Z then String "-" (decimal (Z.abs_N z))
             else decimal (Z.abs_N z)
  end.

(** [Number.isSafeInteger]. *)
Definition isSafeInteger (x : number) : bool :=
  match x with
  | Int z => (Z.abs z <? 2 ^ 53)%Z
  | _ => false
  end.

(** Value of a string of decimal digits. *)
Definition digits_value (s : string) : N :=
  match NilEmpty.uint_of_string s with
  | Some d => N.of_uint d
  | None => 0%N
  end.

(** Longest prefix of decimal digits. *)
Fixpoint take_digits (s : string) : string :=
  match s with
  | EmptyString => EmptyString
  | String c t => if is_digit c then String c (take_digits t)
                  else EmptyString
  end.

(** White space and line terminators of ECMAScript, on UTF-8 bytes:
    U+0009..U+000D, U+0020; U+00A0; U+1680, U+2000..U+200A, U+2028,
    U+2029, U+202F, U+205F, U+3000, U+FEFF. *)
Definition is_ws1 (a : ascii) : bool :=
  between 9 13 a || (code a =? 32)%N.

Definition is_ws2 (a b : ascii) : bool :=
  (code a =? 194)%N && (code b =? 160)%N.

Definition is_ws3 (a b c : ascii) : bool :=
  let x := code a in let y := code b in let z := code c in
  ((x =? 225) && (y =? 154) && (z =? 128)
   || (x =? 226) && (y =? 128)
        && ((z <=? 138) && (128 <=? z) || (z =? 168) || (z =? 169)
            || (z =? 175))
   || (x =? 226) && (y =? 129) && (z =? 159)
   || (x =? 227) && (y =? 128) && (z =? 128)
   || (x =? 239) && (y =? 187) && (z =? 191))%N.

Fixpoint trimStart (s : string) : string :=
  match s with
  | EmptyString => EmptyString
  | String a t1 =>
      if is_ws1 a then trimStart t1
      else match t1 with
           | String b t2 =>
               if is_ws2 a b then trimStart t2
               else match t2 with
                    | String c t3 =>
                        if is_ws3 a b c then trimStart t3 else s
                    | EmptyString => s
                    end
           | EmptyString => s
           end
  end.

(** [parseInt(s, 10)]: leading white space, an optional sign, then the
    longest run of decimal digits; [NaN] when that run is empty. *)
Definition parseInt (s : string) : number :=
  let s1 := trimStart s in
  let '(neg, s2) :=
    match s1 with
    | String "-"%char t => (true, t)
    | String "+"%char t => (false, t)
    | _ => (false, s1)
    end in
  let d := take_digits s2 in
  match d with
  | EmptyString => NaN
  | _ => let v := double_of_N (digits_value d) in
         if neg then negate v else v
  end.


(** ** [decodeURIComponent] *)

(** One unit of the input: a literal byte or an escape [%XY]. *)
Inductive uri_token : Set :=
| Lit (c : ascii)
| Esc (b : ascii)
| Bad.

(** A [%] that is not followed by two hexadecimal digits is [Bad]. *)
Fixpoint uri_tokens (s : string) : list uri_token :=
  match s with
  | EmptyString => []
  | String c t =>
      if Ascii.eqb c "%" then
        match t with
        | String h (String l rest) =>
            match hex_value h, hex_value l with
            | Some x, Some y => Esc (byte_of_hex x y) :: uri_tokens rest
            | _, _ => [Bad]
            end
        | _ => [Bad]
        end
      else Lit c :: uri_tokens t
  end.

(** After the lead byte of a multi-byte UTF-8 sequence: the number of
    continuation bytes still due and the range allowed for the next. *)
Definition utf8_lead (b : ascii) : option (nat * N * N) :=
  let x := code b in
  if (x <? 194)%N then None
  else if (x <? 224)%N then Some (1%nat, 128, 191)%N
  else if (x =? 224)%N then Some (2%nat, 160, 191)%N
  else if (x =? 237)%N then Some (2%nat, 128, 159)%N
  else if (x <? 240)%N then Some (2%nat, 128, 191)%N
  else if (x =? 240)%N then Some (3%nat, 144, 191)%N
  else if (x <? 244)%N then Some (3%nat, 128, 191)%N
  else if (x =? 244)%N then Some (3%nat, 128, 143)%N
  else None.

(** Decoding proper.  [pending] is [Some (k, lo, hi)] inside a multi-byte
    sequence: [k] more escapes are required, the next one in [lo..hi].
    Every failure is the [URIError] of the ECMAScript [Decode] operation:
    a malformed escape, a continuation that is not an escape, or octets
    that are not the UTF-8 encoding of a code point. *)
Fixpoint uri_decode (pending : option (nat * N * N)) (ts : list uri_token)
  : completion string :=
  match ts with
  | [] => match pending with
          | None => Normal EmptyString
          | Some _ => Throw URIError
          end
  | Bad :: _ => Throw URIError
  | Lit c :: ts' =>
      match pending with
      | None => r <- uri_decode None ts' ;; Normal (String c r)
      | Some _ => Throw URIError
      end
  | Esc b :: ts' =>
      match pending with
      | None =>
          if (code b <? 128)%N then
            r <- uri_decode None ts' ;; Normal (String b r)
          else match utf8_lead b with
               | Some p => r <- uri_decode (Some p) ts' ;; Normal (String b r)
               | None => Throw URIError
               end
      | Some (k, lo, hi) =>
          if between lo hi b then
            r <- uri_decode
                   (match k with
                    | S (S k') => Some (S k', 128, 191)%N
                    | _ => None
                    end) ts' ;;
            Normal (String b r)
          else Throw URIError
      end
  end.

Definition decodeURIComponent (s : string) : completion string :=
  uri_decode None (uri_tokens s).

(** ** [URLSearchParams] *)

(** The object is its list of name-value pairs, in order. *)
Definition URLSearchParams : Type := list (string * string).

(** Bytes that the application/x-www-form-urlencoded serialiser leaves
    as they are: ASCII alphanumerics and [* - . _]. *)
Definition urlencoded_safe (c : ascii) : bool :=
  is_alnum c || (code c =? 42)%N || (code c =? 45)%N || (code c =? 46)%N
  || (code c =? 95)%N.

Definition percent_encode_byte (c : ascii) : string :=
  String "%" (String (hex_digit (code c / 16))
                (String (hex_digit (code c mod 16)) EmptyString)).

(** The byte serialiser: a space becomes [+]. *)
Fixpoint urlencode (s : string) : string :=
  match s with
  | EmptyString => EmptyString
  | String c t =>
      if (code c =? 32)%N then String "+" (urlencode t)
      else if urlencoded_safe c then String c (urlencode t)
      else percent_encode_byte c ++ urlencode t
  end.

Definition serialize_pair (p : string * string) : string :=
  urlencode (fst p) ++ "=" ++ urlencode (snd p).

(** [params.toString()]. *)
Definition URLSearchParams_toString (params : URLSearchParams) : string :=
  String.concat "&" (map serialize_pair params).

(** [params.append(name, value)].  The platform first converts both
    arguments to USVStrings ([toUSVString] below), which changes nothing
    in a string without lone surrogates; the conversion is left out. *)
Definition append (params : URLSearchParams) (name value : string)
  : URLSearchParams :=
  params ++ [(name, value)].

(** Percent-decoding of the URL standard: an escape that is not followed
    by two hexadecimal digits is kept as it is; nothing fails. *)
Fixpoint percent_decode (s : string) : string :=
  match s with
  | EmptyString => EmptyString
  | String c t =>
      if Ascii.eqb c "%" then
        match t with
        | String h (String l rest) =>
            match hex_value h, hex_value l with
            | Some x, Some y => String (byte_of_hex x y) (percent_decode rest)
            | _, _ => String c (percent_decode t)
            end
        | _ => String c (percent_decode t)
        end
      else String c (percent_decode t)
  end.

Fixpoint plus_to_space (s : string) : string :=
  match s with
  | EmptyString => EmptyString
  | String c t =>
      String (if Ascii.eqb c "+" then " "%char else c) (plus_to_space t)
  end.

Definition urldecode (s : string) : string :=
  percent_decode (plus_to_space s).

(** One [&]-separated piece: the name is what precedes the first [=]. *)
Definition parse_pair (piece : string) : string * string :=
  match cut_at "=" piece with
  | Some (n, v) => (urldecode n, urldecode v)
  | None => (urldecode piece, EmptyString)
  end.

Definition is_empty (s : string) : bool :=
  match s with EmptyString => true | _ => false end.

(** The urlencoded parser: empty pieces are skipped.  The platform
    passes the percent-decoded bytes of each name and value through its
    UTF-8 decoder ([utf8_decode] below), which changes nothing in a
    well-formed sequence; the decoder is left out. *)
Definition urlencoded_parse (s : string) : URLSearchParams :=
  map parse_pair (filter (fun p => negb (is_empty p)) (split_char "&" s)).

(** [new URLSearchParams(init)] for a string: one leading [?] is
    dropped. *)
Definition URLSearchParams_new (init : string) : URLSearchParams :=
  match init with
  | String "?"%char t => urlencoded_parse t
  | _ => urlencoded_parse init
  end.

(** [params.has(name)] and [params.get(name)] (the first value). *)
Definition has (params : URLSearchParams) (name : string) : bool :=
  existsb (fun p => String.eqb (fst p) name) params.

Definition get (params : URLSearchParams) (name : string) : option string :=
  option_map snd (find (fun p => String.eqb (fst p) name) params).

(** ** Arrays and the insertion-ordered [Map] *)

(** [arr.forEach((x, idx) => ...)] on a dense array; the accumulator is
    the state the callback mutates. *)
Fixpoint forEach_from {A S : Type} (i : N) (l : list A)
  (f : S -> A -> N -> S) (s : S) : S :=
  match l with
  | [] => s
  | x :: l' => forEach_from (N.succ i) l' f (f s x i)
  end.

Definition forEach {A S : Type} (l : list A) (f : S -> A -> N -> S) (s : S)
  : S := forEach_from 0 l f s.

(** An array with holes; [forEach] skips the holes. *)
Definition array (A : Type) : Type := list (option A).

Fixpoint forEach_array_from {A S : Type} (i : N) (l : array A)
  (f : S -> A -> N -> S) (s : S) : S :=
  match l with
  | [] => s
  | Some x :: l' => forEach_array_from (N.succ i) l' f (f s x i)
  | None :: l' => forEach_array_from (N.succ i) l' f s
  end.

Definition forEach_array {A S : Type} (l : array A) (f : S -> A -> N -> S)
  (s : S) : S := forEach_array_from 0 l f s.

(** [a[n] = v] for an array index [n]: the array grows, with holes, when
    [n] is beyond its end. *)
Fixpoint set_at {A : Type} (n : nat) (v : A) (a : array A) : array A :=
  match n, a with
  | O, [] => [Some v]
  | O, _ :: a' => Some v :: a'
  | S n', [] => None :: set_at n' v []
  | S n', x :: a' => x :: set_at n' v a'
  end.

(** [a[idx] = v] for a number: only integers from 0 to 2^32 - 2 are array
    indices; any other number names an ordinary property, which neither
    [length] nor [forEach] sees. *)
Definition array_set {A : Type} (a : array A) (idx : number) (v : A)
  : array A :=
  match idx with
  | Int z => if ((0 <=? z) && (z <? 2 ^ 32 - 1))%Z
             then set_at (Z.to_nat z) v a else a
  | _ => a
  end.

(** [Map<number, V>]: entries in insertion order, keys compared by
    SameValueZero.  [Map_set] on a present key keeps its position. *)
Definition Map (V : Type) : Type := list (number * V).

Definition Map_has {V : Type} (m : Map V) (k : number) : bool :=
  existsb (fun e => number_eqb (fst e) k) m.

Definition Map_get {V : Type} (m : Map V) (k : number) : option V :=
  option_map snd (find (fun e => number_eqb (fst e) k) m).

Definition Map_set {V : Type} (m : Map V) (k : number) (v : V) : Map V :=
  if Map_has m k
  then map (fun e => if number_eqb (fst e) k then (fst e, v) else e) m
  else m ++ [(k, v)].

(** In-place mutation of the object stored under [k], as in
    [m.get(k)!.field = x]: the map holds a reference to it. *)
Definition Map_mutate {V : Type} (m : Map V) (k : number) (f : V -> V)
  : Map V :=
  map (fun e => if number_eqb (fst e) k then (fst e, f (snd e)) else e) m.

(** ** The data model ([field.types.ts]) *)

Inductive CriteriaOperation : Set :=
| CONTAIN | DOES_NOT_CONTAIN | END_WITH | START_WITH | SPECIFIED
| EQUAL | NOT_EQUAL | GREATER_THAN | GREATER_THAN_OR_EQUAL
| LESS_THAN | LESS_THAN_OR_EQUAL.

(** The string each member of the enum is at run time. *)
Definition operation_string (op : CriteriaOperation) : string :=
  match op with
  | CONTAIN => "CONTAIN"
  | DOES_NOT_CONTAIN => "DOES_NOT_CONTAIN"
  | END_WITH => "END_WITH"
  | START_WITH => "START_WITH"
  | SPECIFIED => "SPECIFIED"
  | EQUAL => "EQUAL"
  | NOT_EQUAL => "NOT_EQUAL"
  | GREATER_THAN => "GREATER_THAN"
  | GREATER_THAN_OR_EQUAL => "GREATER_THAN_OR_EQUAL"
  | LESS_THAN => "LESS_THAN"
  | LESS_THAN_OR_EQUAL => "LESS_THAN_OR_EQUAL"
  end.

(** [operation] holds the run-time string: [fromQueryString] stores the
    raw parameter value there through a type assertion. *)
Record Criteria := mkCriteria {
  key : string;
  operation : string;
  values : list string
}.

Record DynamicQuery := mkDynamicQuery {
  criteria : list Criteria;
  select : option (array string);
  selectAs : option (array string);
  orderBy : option (array string);
  orderByDirection : option (array string);
  page : option number;
  pageSize : option number
}.

(** [Partial<Criteria>]. *)
Record PartialCriteria := mkPartial {
  p_key : option string;
  p_operation : option string;
  p_values : option (list string)
}.

Definition empty_partial : PartialCriteria := mkPartial None None None.

Definition set_key (v : string) (o : PartialCriteria) : PartialCriteria :=
  mkPartial (Some v) (p_operation o) (p_values o).

Definition set_operation (v : string) (o : PartialCriteria)
  : PartialCriteria :=
  mkPartial (p_key o) (Some v) (p_values o).

Definition set_values (vs : list string) (o : PartialCriteria)
  : PartialCriteria :=
  mkPartial (p_key o) (p_operation o) (Some vs).

(** [o.values!.push(...vs)]; the callers have set [values] before, so the
    case of an undefined array does not arise. *)
Definition push_values (vs : list string) (o : PartialCriteria)
  : PartialCriteria :=
  match p_values o with
  | Some old => set_values (old ++ vs) o
  | None => o
  end.

(** ** [QueryBuilder] ([query-builder.ts]) *)

Definition KEY_FIELD : string := "key".
Definition OPERATION_FIELD : string := "operation".
Definition VALUES_FIELD : string := "values".

Record QueryBuilder := mkQueryBuilder {
  _dynamicQuery : DynamicQuery
}.

Definition default_query : DynamicQuery :=
  mkDynamicQuery [] None None None None (Some (Int 0)) (Some (Int 20)).

(** [constructor(initialQuery?)]: an object is always truthy, so the
    default is taken exactly when the argument is missing. *)
Definition constructor (initialQuery : option DynamicQuery) : QueryBuilder :=
  match initialQuery with
  | Some q => mkQueryBuilder q
  | None => mkQueryBuilder default_query
  end.

Definition query (this : QueryBuilder) : DynamicQuery := _dynamicQuery this.

(** The [if (a && a.length > 0) a.forEach(...)] blocks of
    [toQueryString]. *)
Definition append_array (name : string) (a : option (array string))
  (params : URLSearchParams) : URLSearchParams :=
  match a with
  | Some l =>
      if (0 <? List.length l)%nat
      then forEach_array l
             (fun params field idx => append params (name ++ decimal idx) field)
             params
      else params
  | None => params
  end.

Definition append_number (name : string) (x : option number)
  (params : URLSearchParams) : URLSearchParams :=
  match x with
  | Some n => append params name (number_toString n)
  | None => params
  end.

(** The parameters [toQueryString] has appended when it reaches its
    [return]. *)
Definition toQueryString_params (this : QueryBuilder) : URLSearchParams :=
  let q := _dynamicQuery this in
  let params : URLSearchParams := [] in
  let params :=
    forEach (criteria q)
      (fun params criteria idx =>
         let params := append params (KEY_FIELD ++ decimal idx) (key criteria) in
         let params :=
           append params (OPERATION_FIELD ++ decimal idx) (operation criteria) in
         forEach (values criteria)
           (fun params value _ =>
              append params (VALUES_FIELD ++ decimal idx) value)
           params)
      params in
  let params := append_array "select" (select q) params in
  let params := append_array "selectAs" (selectAs q) params in
  let params := append_array "orderBy" (orderBy q) params in
  let params := append_array "orderByDirection" (orderByDirection q) params in
  let params := append_number "page" (page q) params in
  let params := append_number "pageSize" (pageSize q) params in
  params.

Definition toQueryString (this : QueryBuilder) : string :=
  URLSearchParams_toString (toQueryString_params this).

(** [name.match(/^prefix(\d+)$/)]: the captured digits, when the whole
    name is the prefix followed by one or more ASCII digits. *)
Definition match_indexed (prefix name : string) : option string :=
  match strip_prefix prefix name with
  | Some d => if negb (is_empty d) && all_chars is_digit d
              then Some d else None
  | None => None
  end.

(** [if (!criteriaMap.has(idx)) criteriaMap.set(idx, init)]. *)
Definition ensure_entry (m : Map PartialCriteria) (idx : number)
  (init : PartialCriteria) : Map PartialCriteria :=
  if negb (Map_has m idx) then Map_set m idx init else m.

(** The [if / else if / else if] chain over [keyMatch], [operationMatch]
    and [valuesMatch] in the callback of [params.forEach]. *)
Definition criteria_step (m : Map PartialCriteria) (p : string * string)
  : completion (Map PartialCriteria) :=
  let '(key, value) := p in
  match match_indexed "key" key with
  | Some d =>
      let idx := parseInt d in
      let m := ensure_entry m idx empty_partial in
      Normal (Map_mutate m idx (set_key value))
  | None =>
    match match_indexed "operation" key with
    | Some d =>
        let idx := parseInt d in
        let m := ensure_entry m idx empty_partial in
        Normal (Map_mutate m idx (set_operation value))
    | None =>
      match match_indexed "values" key with
      | Some d =>
          let idx := parseInt d in
          let m := ensure_entry m idx (set_values [] empty_partial) in
          let m :=
            Map_mutate m idx
              (fun o => match p_values o with
                        | None => set_values [] o
                        | Some _ => o
                        end) in
          decoded <- decodeURIComponent value ;;
          let splitValues := split_ampamp decoded in
          Normal (Map_mutate m idx (push_values splitValues))
      | None => Normal m
      end
    end
  end.

(** The four independent [if (xMatch) x[idx] = value] blocks. *)
Definition array_step (prefix : string) (a : array string)
  (p : string * string) : array string :=
  let '(key, value) := p in
  match match_indexed prefix key with
  | Some d => array_set a (parseInt d) value
  | None => a
  end.

(** The local variables of [fromQueryString] that the loop mutates. *)
Record locals := mkLocals {
  criteriaMap : Map PartialCriteria;
  l_select : array string;
  l_selectAs : array string;
  l_orderBy : array string;
  l_orderByDirection : array string
}.

Definition fromQueryString_body (st : locals) (p : string * string)
  : completion locals :=
  m <- criteria_step (criteriaMap st) p ;;
  Normal (mkLocals m
            (array_step "select" (l_select st) p)
            (array_step "selectAs" (l_selectAs st) p)
            (array_step "orderBy" (l_orderBy st) p)
            (array_step "orderByDirection" (l_orderByDirection st) p)).

(** Truthiness of an optional string: defined and not empty. *)
Definition truthy (s : option string) : bool :=
  match s with
  | Some (String _ _) => true
  | _ => false
  end.

(** The callback of [criteriaMap.forEach]: an array is truthy even when
    it is empty. *)
Definition push_if_complete (criteria : list Criteria)
  (criteriaObj : PartialCriteria) : list Criteria :=
  match p_key criteriaObj, p_operation criteriaObj, p_values criteriaObj with
  | Some k, Some op, Some vs =>
      if truthy (Some k) && truthy (Some op)
      then criteria ++ [mkCriteria k op vs]
      else criteria
  | _, _, _ => criteria
  end.

(** [a.length > 0 ? a : undefined]. *)
Definition nonempty_or_undefined (a : array string) : option (array string) :=
  if (0 <? List.length a)%nat then Some a else None.

(** [params.has(name) ? parseInt(params.get(name)!, 10) : undefined];
    [parseInt] of [null] reads the string "null". *)
Definition number_param (params : URLSearchParams) (name : string)
  : option number :=
  if has params name
  then Some (parseInt (match get params name with
                       | Some v => v
                       | None => "null"
                       end))
  else None.

(** [fromQueryString(queryString)]: the returned query and the builder
    after the assignment to [this._dynamicQuery].  An exception leaves
    the builder as it was. *)
Definition fromQueryString (this : QueryBuilder) (queryString : string)
  : completion (DynamicQuery * QueryBuilder) :=
  let params := URLSearchParams_new queryString in
  st <- foldM fromQueryString_body params (mkLocals [] [] [] [] []) ;;
  let criteria :=
    fold_left push_if_complete (map snd (criteriaMap st)) [] in
  let q :=
    mkDynamicQuery criteria
      (nonempty_or_undefined (l_select st))
      (nonempty_or_undefined (l_selectAs st))
      (nonempty_or_undefined (l_orderBy st))
      (nonempty_or_undefined (l_orderByDirection st))
      (number_param params "page")
      (number_param params "pageSize") in
  Normal (q, mkQueryBuilder q).

(** ** Mutators *)

Definition with_criteria (q : DynamicQuery) (cs : list Criteria)
  : DynamicQuery :=
  mkDynamicQuery cs (select q) (selectAs q) (orderBy q) (orderByDirection q)
    (page q) (pageSize q).

Definition addCriteria (this : QueryBuilder) (key operation : string)
  (values : list string) : QueryBuilder :=
  let q := _dynamicQuery this in
  mkQueryBuilder
    (with_criteria q (criteria q ++ [mkCriteria key operation values])).

(** [removeCriteria(key, operation?)].  The filter keeps [c] when
    [c.key !== key || (operation && c.operation !== operation)]; a missing
    or empty [operation] is falsy. *)
Definition removeCriteria (this : QueryBuilder) (key0 : string)
  (operation0 : option string) : QueryBuilder :=
  let q := _dynamicQuery this in
  mkQueryBuilder
    (with_criteria q
       (filter
          (fun c =>
             negb (String.eqb (key c) key0)
             || (truthy operation0
                 && negb (match operation0 with
                          | Some op => String.eqb (operation c) op
                          | None => false
                          end)))
          (criteria q))).

Definition removeCriteriaByKey (this : QueryBuilder) (key0 : string)
  : QueryBuilder :=
  let q := _dynamicQuery this in
  mkQueryBuilder
    (with_criteria q
       (filter (fun c => negb (String.eqb (key c) key0)) (criteria q))).

Definition upsertCriteria (this : QueryBuilder) (key operation : string)
  (values : list string) : QueryBuilder :=
  let this := removeCriteria this key (Some operation) in
  addCriteria this key operation values.

Definition clearCriteria (this : QueryBuilder) : QueryBuilder :=
  mkQueryBuilder (with_criteria (_dynamicQuery this) []).

Definition clear (this : QueryBuilder) : QueryBuilder :=
  mkQueryBuilder
    (mkDynamicQuery [] None None None None (Some (Int 0)) (Some (Int 20))).

(** ** Vocabulary of the specification *)

(** *** Encoding: the emission order of the wire format *)

Fixpoint enumerate_from {A : Type} (i : N) (l : list A) : list (N * A) :=
  match l with
  | [] => []
  | x :: l' => (i, x) :: enumerate_from (N.succ i) l'
  end.

Definition enumerate {A : Type} (l : list A) : list (N * A) :=
  enumerate_from 0 l.

(** The block of one criterion at position [i]: [key{i}], [operation{i}],
    then one [values{i}] per value. *)
Definition criterion_pairs (ic : N * Criteria) : list (string * string) :=
  let '(i, c) := ic in
  (("key" ++ decimal i)%string, key c)
    :: (("operation" ++ decimal i)%string, operation c)
    :: map (fun v => (("values" ++ decimal i)%string, v)) (values c).

Definition criteria_pairs (cs : list Criteria) : list (string * string) :=
  flat_map criterion_pairs (enumerate cs).

(** [name{i}=x] for every populated position of an optional array;
    nothing for an absent or empty one. *)
Definition array_pairs (name : string) (a : option (array string))
  : list (string * string) :=
  match a with
  | Some l =>
      flat_map (fun ix => match snd ix with
                          | Some x => [((name ++ decimal (fst ix))%string, x)]
                          | None => []
                          end) (enumerate l)
  | None => []
  end.

Definition number_pairs (name : string) (x : option number)
  : list (string * string) :=
  match x with
  | Some n => [(name, number_toString n)]
  | None => []
  end.

Definition expected_pairs (q : DynamicQuery) : list (string * string) :=
  criteria_pairs (criteria q)
    ++ array_pairs "select" (select q)
    ++ array_pairs "selectAs" (selectAs q)
    ++ array_pairs "orderBy" (orderBy q)
    ++ array_pairs "orderByDirection" (orderByDirection q)
    ++ number_pairs "page" (page q)
    ++ number_pairs "pageSize" (pageSize q).

(** Pairs joined as [name=value] with [&] between them, names and values
    percent-encoded. *)
Definition join_pairs (ps : list (string * string)) : string :=
  String.concat "&"
    (map (fun p => (urlencode (fst p) ++ "=" ++ urlencode (snd p))%string) ps).

(** The encoder the specification describes: criteria without values are
    skipped before positions are assigned. *)
Definition has_values (c : Criteria) : bool :=
  match values c with [] => false | _ => true end.

Definition skip_empty (q : DynamicQuery) : DynamicQuery :=
  with_criteria q (filter has_values (criteria q)).

(** *** Decoding: fragments of a criterion in a parameter list *)

(** Does the parameter [p] carry [field{i}]? *)
Definition is_field (field : string) (i : number) (p : string * string)
  : bool :=
  match match_indexed field (fst p) with
  | Some d => number_eqb (parseInt d) i
  | None => false
  end.

(** The values of all [field{i}] parameters, in order of occurrence. *)
Definition field_values (field : string) (i : number)
  (params : URLSearchParams) : list string :=
  map snd (filter (is_field field i) params).

(** The criterion index a parameter names, if it is one of [key{i}],
    [operation{i}], [values{i}]. *)
Definition fragment_index (p : string * string) : option number :=
  match match_indexed "key" (fst p) with
  | Some d => Some (parseInt d)
  | None =>
    match match_indexed "operation" (fst p) with
    | Some d => Some (parseInt d)
    | None =>
      match match_indexed "values" (fst p) with
      | Some d => Some (parseInt d)
      | None => None
      end
    end
  end.

Definition mem_number (i : number) (l : list number) : bool :=
  existsb (number_eqb i) l.

Definition add_new (seen : list number) (i : number) : list number :=
  if mem_number i seen then seen else seen ++ [i].

(** The distinct elements of [l], each at the place of its first
    occurrence. *)
Definition first_occurrences (l : list number) : list number :=
  fold_left add_new l [].

Fixpoint filter_map {A B : Type} (f : A -> option B) (l : list A) : list B :=
  match l with
  | [] => []
  | x :: l' => match f x with
               | Some y => y :: filter_map f l'
               | None => filter_map f l'
               end
  end.

(** The criterion indices of a parameter list, in order of first
    encounter. *)
Definition criteria_indices (params : URLSearchParams) : list number :=
  first_occurrences (filter_map fragment_index params).

(** The array elements one [values{i}] payload contributes. *)
Definition decoded_pieces (v : string) : list string :=
  match decodeURIComponent v with
  | Normal s => split_ampamp s
  | Throw _ => []
  end.

Definition last_value (l : list string) : option string :=
  match rev l with
  | [] => None
  | x :: _ => Some x
  end.

(** The union of the fragments of index [i]: the last [key{i}], the last
    [operation{i}], and the pieces of all [values{i}] in order. *)
Definition fragment (params : URLSearchParams) (i : number)
  : PartialCriteria :=
  mkPartial
    (last_value (field_values "key" i params))
    (last_value (field_values "operation" i params))
    (match field_values "values" i params with
     | [] => None
     | vs => Some (flat_map decoded_pieces vs)
     end).

(** Index [i] has a non-empty key, a non-empty operation and at least one
    [values{i}] parameter. *)
Definition complete (params : URLSearchParams) (i : number) : bool :=
  truthy (last_value (field_values "key" i params))
  && truthy (last_value (field_values "operation" i params))
  && negb (match field_values "values" i params with
           | [] => true
           | _ => false
           end).

(** The criterion of a complete index. *)
Definition criterion_of (params : URLSearchParams) (i : number) : Criteria :=
  let o := fragment params i in
  mkCriteria
    (match p_key o with Some k => k | None => EmptyString end)
    (match p_operation o with Some op => op | None => EmptyString end)
    (match p_values o with Some vs => vs | None => [] end).

(** A [values{i}] parameter whose payload [decodeURIComponent] rejects. *)
Definition bad_values_param (p : string * string) : bool :=
  match match_indexed "values" (fst p) with
  | Some _ => match decodeURIComponent (snd p) with
              | Normal _ => false
              | Throw _ => true
              end
  | None => false
  end.

(** *** Round trip *)

Fixpoint contains_ampamp (s : string) : bool :=
  match s with
  | EmptyString => false
  | String c t =>
      match c, t with
      | "&"%char, String "&"%char _ => true
      | _, _ => contains_ampamp t
      end
  end.

(** A value that [fromQueryString] reads back as one array element,
    unchanged: no [%] and no [&&]. *)
Definition plain_value (v : string) : bool :=
  negb (mem_char "%" v) && negb (contains_ampamp v).

Definition well_formed_criterion (c : Criteria) : bool :=
  negb (is_empty (key c)) && negb (is_empty (operation c))
  && has_values c && forallb plain_value (values c).

Definition is_some {A : Type} (x : option A) : bool :=
  match x with Some _ => true | None => false end.

(** An optional array without holes, within the length of an array. *)
Definition dense (a : option (array string)) : bool :=
  match a with
  | Some l => forallb is_some l && (N.of_nat (List.length l) <? 2 ^ 32)%N
  | None => true
  end.

Definition safe_or_undefined (x : option number) : bool :=
  match x with
  | Some n => isSafeInteger n
  | None => true
  end.

Definition round_trips (q : DynamicQuery) : bool :=
  forallb well_formed_criterion (criteria q)
  && (N.of_nat (List.length (criteria q)) <? 2 ^ 32)%N
  && dense (select q) && dense (selectAs q)
  && dense (orderBy q) && dense (orderByDirection q)
  && safe_or_undefined (page q) && safe_or_undefined (pageSize q).

(** An empty optional array is identified with an absent one. *)
Definition drop_empty (a : option (array string)) : option (array string) :=
  match a with
  | Some [] => None
  | _ => a
  end.

Definition normalize (q : DynamicQuery) : DynamicQuery :=
  mkDynamicQuery (criteria q)
    (drop_empty (select q)) (drop_empty (selectAs q))
    (drop_empty (orderBy q)) (drop_empty (orderByDirection q))
    (page q) (pageSize q).

(** *** Upsert *)

(** A criterion matches when both its key and its operation are the
    given ones. *)
Definition matches (key0 operation0 : string) (c : Criteria) : bool :=
  String.eqb (key c) key0 && String.eqb (operation c) operation0.

(** *** Wire characters *)

(** The characters the serialiser can produce for a name or a value. *)
Definition enc_char (c : ascii) : bool :=
  urlencoded_safe c || Ascii.eqb c "+" || Ascii.eqb c "%".

Definition starts_with (x : ascii) (s : string) : bool :=
  match s with
  | String c _ => Ascii.eqb c x
  | EmptyString => false
  end.

(** The prefixes of the indexed parameter names. *)
Definition indexed_families : list string :=
  ["key"; "operation"; "values"; "select"; "selectAs"; "orderBy";
   "orderByDirection"].

(** The entry of the map for the criterion at position [i]. *)
Definition entry_of (ic : N * Criteria) : number * PartialCriteria :=
  (Int (Z.of_N (fst ic)),
   mkPartial (Some (key (snd ic))) (Some (operation (snd ic)))
     (Some (values (snd ic)))).

(** No parameter of [l] matches the pattern of prefix [P]. *)
Definition skips (P : string) (l : list (string * string)) : Prop :=
  forall p, In p l -> match_indexed P (fst p) = None.

(** *** Classification of parameter names *)

(** How the three matchers classify a parameter name. *)
Inductive name_kind (name : string) : Prop :=
| KeyName (d : string)
    (Hk : match_indexed "key" name = Some d)
    (Ho : match_indexed "operation" name = None)
    (Hv : match_indexed "values" name = None)
| OperationName (d : string)
    (Hk : match_indexed "key" name = None)
    (Ho : match_indexed "operation" name = Some d)
    (Hv : match_indexed "values" name = None)
| ValuesName (d : string)
    (Hk : match_indexed "key" name = None)
    (Ho : match_indexed "operation" name = None)
    (Hv : match_indexed "values" name = Some d)
| OtherName
    (Hk : match_indexed "key" name = None)
    (Ho : match_indexed "operation" name = None)
    (Hv : match_indexed "values" name = None).

(** ** Proof automation *)

(** Names never collide across the seven indexed families and the two
    plain ones. *)
Ltac name_clash :=
  match goal with
  | H : (_ ++ _)%string = _ |- _ => cbn in H; discriminate H
  | H : _ = (_ ++ _)%string |- _ => cbn in H; discriminate H
  end.

(** ** Sample values *)

Definition sample_criteria : list Criteria :=
  [mkCriteria "age" "EQUAL" ["10"]; mkCriteria "age" "GREATER_THAN" ["5"]].

Definition query_of (cs : list Criteria) : DynamicQuery :=
  mkDynamicQuery cs None None None None None None.

Definition fresh : QueryBuilder := constructor None.

(** The query a call returned, if it returned. *)
Definition returned {A B : Type} (c : completion (A * B)) : option A :=
  match c with
  | Normal (a, _) => Some a
  | Throw _ => None
  end.

(** ** Further methods of [QueryBuilder] *)

(** The test [c.key === key && (!operation || c.operation === operation)]
    shared by [getCriteriaValues] and [hasCriteria]; a missing or empty
    [operation] is falsy. *)
Definition selects (key0 : string) (operation0 : option string)
  (c : Criteria) : bool :=
  String.eqb (key c) key0
  && (negb (truthy operation0)
      || match operation0 with
         | Some op => String.eqb (operation c) op
         | None => false
         end).

Definition getCriteriaValues (this : QueryBuilder) (key0 : string)
  (operation0 : option string) : list string :=
  let criteria := filter (selects key0 operation0)
                    (criteria (_dynamicQuery this)) in
  flat_map values criteria.

Definition hasCriteria (this : QueryBuilder) (key0 : string)
  (operation0 : option string) : bool :=
  existsb (selects key0 operation0) (criteria (_dynamicQuery this)).

Definition setPage (this : QueryBuilder) (page0 : number) : QueryBuilder :=
  let q := _dynamicQuery this in
  mkQueryBuilder
    (mkDynamicQuery (criteria q) (select q) (selectAs q) (orderBy q)
       (orderByDirection q) (Some page0) (pageSize q)).

Definition setPageSize (this : QueryBuilder) (pageSize0 : number)
  : QueryBuilder :=
  let q := _dynamicQuery this in
  mkQueryBuilder
    (mkDynamicQuery (criteria q) (select q) (selectAs q) (orderBy q)
       (orderByDirection q) (page q) (Some pageSize0)).

Definition setSort (this : QueryBuilder) (field direction : string)
  : QueryBuilder :=
  let q := _dynamicQuery this in
  mkQueryBuilder
    (mkDynamicQuery (criteria q) (select q) (selectAs q)
       (Some [Some field]) (Some [Some direction]) (page q) (pageSize q)).

Definition clearSort (this : QueryBuilder) : QueryBuilder :=
  let q := _dynamicQuery this in
  mkQueryBuilder
    (mkDynamicQuery (criteria q) (select q) (selectAs q) None None
       (page q) (pageSize q)).

(** The functions the module exports beside the class. *)
Module Exported.

Definition createQueryBuilder (initialQuery : option DynamicQuery)
  : QueryBuilder := constructor initialQuery.

Definition parseQueryString (queryString : string)
  : completion DynamicQuery :=
  let builder := constructor None in
  r <- fromQueryString builder queryString ;; Normal (fst r).

Definition toQueryString (query0 : DynamicQuery) : string :=
  let builder := constructor (Some query0) in
  toQueryString builder.

End Exported.

(** ** Page numbers of the pagination bar ([pagination.tsx]) *)

Inductive page_item : Set :=
| PageNumber (n : Z)
| Ellipsis.





Fixpoint numbers_of (l : list page_item) : list Z :=
  match l with
  | [] => []
  | PageNumber n :: l' => n :: numbers_of l'
  | Ellipsis :: l' => numbers_of l'
  end.

Fixpoint increasing (l : list Z) : Prop :=
  match l with
  | [] => True
  | x :: l' => match l' with
               | [] => True
               | y :: _ => (x < y)%Z /\ increasing l'
               end
  end.

(** ** Handlers of the table and of the filter panel *)

(** The properties of a [Field] the handlers read. *)
Record Field := mkField {
  name : string;
  accessor : option string;
  sortable : option bool
}.

(** [field.accessor || field.name]. *)
Definition fieldName (field : Field) : string :=
  match accessor field with
  | Some (String c s) => String c s
  | _ => name field
  end.

(** [a?.[0]]: undefined for a missing or empty array and for a hole. *)
Definition first_element (a : option (array string)) : option string :=
  match a with
  | Some (Some x :: _) => Some x
  | _ => None
  end.

Definition strict_eq (x : option string) (s : string) : bool :=
  match x with
  | Some y => String.eqb y s
  | None => false
  end.

(** [handleSort]: the builder passed to [setQueryBuilder]; a field with
    [sortable === false] leaves the state as it is. *)
Definition handleSort (queryBuilder : QueryBuilder) (field : Field)
  : QueryBuilder :=
  match sortable field with
  | Some false => queryBuilder
  | _ =>
      let currentSort := first_element (orderBy (query queryBuilder)) in
      let currentDirection :=
        first_element (orderByDirection (query queryBuilder)) in
      let newDirection :=
        if strict_eq currentSort (fieldName field)
           && strict_eq currentDirection "desc"
        then "asc" else "desc" in
      let queryBuilder := setSort queryBuilder (fieldName field) newDirection in
      constructor (Some (query queryBuilder))
  end.

Definition handleFilterChange (queryBuilder : QueryBuilder) : QueryBuilder :=
  let queryBuilder := setPage queryBuilder (Int 0) in
  constructor (Some (query queryBuilder)).

Definition handlePageSizeChange (queryBuilder : QueryBuilder)
  (newPageSize : number) : QueryBuilder :=
  let queryBuilder := setPageSize queryBuilder newPageSize in
  let queryBuilder := setPage queryBuilder (Int 0) in
  constructor (Some (query queryBuilder)).

(** The filter panel receives [handleFilterChange] as [onFilterChange]. *)
Definition handleStringFilter (queryBuilder : QueryBuilder) (field : Field)
  (value : string) : QueryBuilder :=
  let queryBuilder :=
    if truthy (Some value)
    then upsertCriteria queryBuilder (fieldName field)
           (operation_string CONTAIN) [value]
    else removeCriteriaByKey queryBuilder (fieldName field) in
  handleFilterChange queryBuilder.

Definition handleIntegerFilter (queryBuilder : QueryBuilder) (field : Field)
  (value : string) : QueryBuilder :=
  let queryBuilder :=
    if truthy (Some value)
    then upsertCriteria queryBuilder (fieldName field)
           (operation_string EQUAL) [value]
    else removeCriteriaByKey queryBuilder (fieldName field) in
  handleFilterChange queryBuilder.

Definition handleBooleanFilter (queryBuilder : QueryBuilder) (field : Field)
  (checked : bool) : QueryBuilder :=
  let queryBuilder :=
    if checked
    then upsertCriteria queryBuilder (fieldName field)
           (operation_string SPECIFIED) ["true"]
    else removeCriteriaByKey queryBuilder (fieldName field) in
  handleFilterChange queryBuilder.

(** [values[0] || ""]. *)
Definition getFilterValue (queryBuilder : QueryBuilder) (field : Field)
  : string :=
  match getCriteriaValues queryBuilder (fieldName field) None with
  | v :: _ => v
  | [] => EmptyString
  end.

Definition getBooleanValue (queryBuilder : QueryBuilder) (field : Field)
  : bool :=
  hasCriteria queryBuilder (fieldName field)
    (Some (operation_string SPECIFIED)).

(** ** The criteria loop of the mock endpoint ([api/gifts/route.ts]) *)

(** [s.replace(pat, "")]: the first occurrence of [pat] is removed. *)
Fixpoint remove_first (pat s : string) : string :=
  match strip_prefix pat s with
  | Some r => r
  | None => match s with
            | EmptyString => EmptyString
            | String c t => String c (remove_first pat t)
            end
  end.

(** [s.startsWith(p)]. *)
Definition startsWith (s p : string) : bool :=
  match strip_prefix p s with
  | Some _ => true
  | None => false
  end.

(** [params.getAll(name)]. *)
Definition getAll (params : URLSearchParams) (name0 : string) : list string :=
  map snd (filter (fun p => String.eqb (fst p) name0) params).

Section Route.

(** The rows and the [switch] on the operation, which compares row
    properties with the values; both are left open. *)
Variable Item : Type.
Variable item_matches : string -> string -> list string -> Item -> bool.

(** One turn of [criteriaKeys.forEach]. *)
Definition GET_criterion (searchParams : URLSearchParams)
  (filteredData : list Item) (keyParam : string) : list Item :=
  let index := remove_first "key" keyParam in
  let key0 := get searchParams keyParam in
  let operation0 := get searchParams ("operation" ++ index) in
  let values0 := getAll searchParams ("values" ++ index) in
  match key0, operation0 with
  | Some k, Some op =>
      if negb (truthy (Some k)) || negb (truthy (Some op))
         || (List.length values0 =? 0)%nat
      then filteredData
      else filter (item_matches k op values0) filteredData
  | _, _ => filteredData
  end.

(** [filteredData] after the loop. *)
Definition GET_filtered (searchParams : URLSearchParams)
  (mockData : list Item) : list Item :=
  let criteriaKeys :=
    filter (fun k => startsWith k "key") (map fst searchParams) in
  fold_left (GET_criterion searchParams) criteriaKeys mockData.

(** Filtering by a list of criteria, one after the other. *)
Definition filter_by (cs : list Criteria) (data : list Item) : list Item :=
  fold_left
    (fun d c => filter (item_matches (key c) (operation c) (values c)) d)
    cs data.

End Route.

(** A criterion the endpoint applies: key, operation and values are all
    non-empty. *)
Definition applicable (c : Criteria) : bool :=
  negb (is_empty (key c)) && negb (is_empty (operation c)) && has_values c.

(** ** Further vocabulary *)

(** The characters of an encoded query string: ASCII letters and digits,
    [* - . _], [+] and [%] of the encoding, and the separators [=] and
    [&]. *)
Definition wire_char (c : ascii) : bool :=
  enc_char c || Ascii.eqb c "=" || Ascii.eqb c "&".

(** A parameter name the decoder does not know. *)
Definition unknown_name (n : string) : bool :=
  forallb (fun P => match match_indexed P n with
                    | None => true
                    | Some _ => false
                    end) indexed_families
  && negb (String.eqb n "page") && negb (String.eqb n "pageSize").

(** Element [i] of an array: undefined for a hole and beyond the end. *)
Definition element (a : array string) (i : nat) : option string :=
  match nth_error a i with
  | Some (Some x) => Some x
  | _ => None
  end.

Definition array_of (a : option (array string)) : array string :=
  match a with
  | Some l => l
  | None => []
  end.

(** The entry of the map for a criterion that may have no values. *)
Definition entry_of_any (ic : N * Criteria) : number * PartialCriteria :=
  (Int (Z.of_N (fst ic)),
   mkPartial (Some (key (snd ic))) (Some (operation (snd ic)))
     (match values (snd ic) with
      | [] => None
      | vs => Some vs
      end)).

(** As [round_trips], except that a criterion may have no values. *)
Definition round_trips_but_empty (q : DynamicQuery) : bool :=
  forallb (fun c => negb (is_empty (key c)) && negb (is_empty (operation c))
                    && forallb plain_value (values c)) (criteria q)
  && (N.of_nat (List.length (criteria q)) <? 2 ^ 32)%N
  && dense (select q) && dense (selectAs q)
  && dense (orderBy q) && dense (orderByDirection q)
  && safe_or_undefined (page q) && safe_or_undefined (pageSize q).


(** Is [n] the name of the parameter? *)
Definition name_is (n : string) (p : string * string) : bool :=
  String.eqb (fst p) n.

(** ** Strings that the representation is exact for *)

(** A JavaScript string is a sequence of UTF-16 code units; it has a
    UTF-8 encoding exactly when it has no lone surrogate.  The strings of
    this development are such encodings, and [well_formed_utf8]
    recognises them among all byte strings: it rejects every ill-formed
    sequence, among them the three bytes [ED A0..BF 80..BF] that
    generalised UTF-8 gives a lone surrogate. *)
Fixpoint utf8_scan (pending : option (nat * N * N)) (s : string) : bool :=
  match s with
  | EmptyString => match pending with
                   | None => true
                   | Some _ => false
                   end
  | String b t =>
      match pending with
      | None =>
          if (code b <? 128)%N then utf8_scan None t
          else match utf8_lead b with
               | Some p => utf8_scan (Some p) t
               | None => false
               end
      | Some (k, lo, hi) =>
          if between lo hi b then
            utf8_scan (match k with
                       | S (S k') => Some (S k', 128, 191)%N
                       | _ => None
                       end) t
          else false
      end
  end.

Definition well_formed_utf8 (s : string) : bool := utf8_scan None s.

(** Inside a sequence only continuation bytes are allowed. *)
Definition state_ok (p : option (nat * N * N)) : Prop :=
  match p with
  | None => True
  | Some (_, _, hi) => (hi <= 191)%N
  end.

(** The encoding of U+FFFD, the replacement character. *)
Definition replacement : string :=
  String (ascii_of_N 239) (String (ascii_of_N 191)
    (String (ascii_of_N 189) EmptyString)).

(** The conversion to a USVString that [URLSearchParams.append] applies
    to its arguments: every lone surrogate becomes U+FFFD.  On bytes, a
    lone surrogate is a sequence [ED A0..BF 80..BF]. *)
Fixpoint toUSVString (s : string) : string :=
  match s with
  | EmptyString => EmptyString
  | String a t1 =>
      match t1 with
      | String b (String c t) =>
          if (code a =? 237)%N && between 160 191 b && between 128 191 c
          then (replacement ++ toUSVString t)%string
          else String a (toUSVString t1)
      | _ => String a (toUSVString t1)
      end
  end.

(** The UTF-8 decoding (WHATWG Encoding, without BOM) that the parser of
    [URLSearchParams] applies to the percent-decoded bytes of a name or a
    value: a well-formed sequence is kept, every ill-formed one becomes
    U+FFFD, and the byte that broke a sequence is read again as the start
    of the next.  [acc] holds the bytes of the sequence under way. *)
Fixpoint utf8_decode (pending : option (nat * N * N)) (acc : string)
  (s : string) : string :=
  match s with
  | EmptyString => match pending with
                   | None => EmptyString
                   | Some _ => replacement
                   end
  | String b t =>
      let start :=
        if (code b <? 128)%N then String b (utf8_decode None EmptyString t)
        else match utf8_lead b with
             | Some p => utf8_decode (Some p) (String b EmptyString) t
             | None => (replacement ++ utf8_decode None EmptyString t)%string
             end in
      match pending with
      | None => start
      | Some (k, lo, hi) =>
          if between lo hi b then
            match k with
            | S (S k') =>
                utf8_decode (Some (S k', 128, 191)%N)
                  (acc ++ String b EmptyString)%string t
            | _ => (acc ++ String b (utf8_decode None EmptyString t))%string
            end
          else (replacement ++ start)%string
      end
  end.

(** The strings of a query are well-formed Unicode: keys, operations and
    values of the criteria, and the elements of the optional arrays. *)
Definition unicode_criterion (c : Criteria) : bool :=
  well_formed_utf8 (key c) && well_formed_utf8 (operation c)
  && forallb well_formed_utf8 (values c).

Definition unicode_array (a : option (array string)) : bool :=
  match a with
  | None => true
  | Some l => forallb (fun x => match x with
                                | Some s => well_formed_utf8 s
                                | None => true
                                end) l
  end.

Definition unicode_query (q : DynamicQuery) : bool :=
  forallb unicode_criterion (criteria q)
  && unicode_array (select q) && unicode_array (selectAs q)
  && unicode_array (orderBy q) && unicode_array (orderByDirection q).

(** A number that [number_toString] prints as JavaScript does: [NaN], an
    infinity or a safe integer; and a query all of whose strings and
    numbers are written to the query string as the platform writes
    them. *)
Definition printed_exactly (x : option number) : bool :=
  match x with
  | Some (Int z) => isSafeInteger (Int z)
  | _ => true
  end.

Definition representable (q : DynamicQuery) : bool :=
  unicode_query q && printed_exactly (page q) && printed_exactly (pageSize q).

(* ================================================================== *)
(** * Part II: properties                                               *)
(* ================================================================== *)

(** ** The default query: constructor and [clear] *)

(** C10: a builder constructed without an initial query owns
    [{criteria: [], page: 0, pageSize: 20}]; [clear] resets any builder to
    that same value; the page size of both is the constant 20, whatever
    the builder held before. *)
Theorem C10_default_query :
  _dynamicQuery (constructor None)
  = mkDynamicQuery [] None None None None (Some (Int 0)) (Some (Int 20))
  /\ (forall this : QueryBuilder,
        _dynamicQuery (clear this) = _dynamicQuery (constructor None))
  /\ (forall this : QueryBuilder,
        pageSize (_dynamicQuery (clear this)) = Some (Int 20)).
Proof.
  split; [reflexivity|].
  split; intros this; reflexivity.
Qed.

(** ** Upsert *)

Lemma truthy_operation_string (op : CriteriaOperation) :
  truthy (Some (operation_string op)) = true.
Proof. destruct op; reflexivity. Qed.

(** With a truthy operation the filter of [removeCriteria] keeps exactly
    the criteria that do not match the pair. *)
Lemma removeCriteria_keeps (this : QueryBuilder) (key0 op : string) :
  truthy (Some op) = true ->
  criteria (query (removeCriteria this key0 (Some op)))
  = filter (fun c => negb (matches key0 op c)) (criteria (query this)).
Proof.
  intros Hop. unfold removeCriteria, query, matches. cbn [_dynamicQuery criteria with_criteria].
  rewrite Hop.
  apply filter_ext. intros c.
  destruct (String.eqb (key c) key0), (String.eqb (operation c) op);
    reflexivity.
Qed.

Lemma upsertCriteria_criteria (this : QueryBuilder) (key0 op : string)
  (vals : list string) :
  truthy (Some op) = true ->
  criteria (query (upsertCriteria this key0 op vals))
  = filter (fun c => negb (matches key0 op c)) (criteria (query this))
      ++ [mkCriteria key0 op vals].
Proof.
  intros Hop. unfold upsertCriteria, addCriteria.
  change (criteria (query ?x)) with (criteria (_dynamicQuery x)).
  cbn [_dynamicQuery criteria with_criteria].
  change (criteria (_dynamicQuery ?x)) with (criteria (query x)).
  now rewrite removeCriteria_keeps.
Qed.

(** C4: on the criteria [age EQUAL 10; age GREATER_THAN 5], upserting
    [age EQUAL 20] leaves [age GREATER_THAN 5; age EQUAL 20]; and for every
    builder, key, operation of the enumeration and values, the criteria
    after [upsertCriteria] are the former criteria that do not match both
    the key and the operation, in their order, followed by the one new
    criterion; the other fields of the query are untouched. *)
Theorem C4_upsert_replaces_matching_pair :
  criteria
    (query (upsertCriteria (constructor (Some (query_of sample_criteria)))
              "age" (operation_string EQUAL) ["20"]))
  = [mkCriteria "age" "GREATER_THAN" ["5"]; mkCriteria "age" "EQUAL" ["20"]]
  /\ forall (this : QueryBuilder) (key0 : string) (op : CriteriaOperation)
       (vals : list string),
       let after := query (upsertCriteria this key0 (operation_string op) vals) in
       criteria after
       = filter (fun c => negb (matches key0 (operation_string op) c))
           (criteria (query this))
           ++ [mkCriteria key0 (operation_string op) vals]
       /\ with_criteria after (criteria (query this)) = query this.
Proof.
  split; [reflexivity|].
  intros this key0 op vals after. split.
  - apply upsertCriteria_criteria, truthy_operation_string.
  - destruct this as [q]. destruct q. reflexivity.
Qed.

(** ** Evaluations of the decoder *)

(** C6: on [key0=tags&operation0=EQUAL&values0=a&&b&&c] the decoder
    returns the single criterion [tags EQUAL] with values [["a"]]: the
    query-string parser has already cut the string at every [&], so the
    pieces [b] and [c] arrive as parameters of their own and the split on
    [&&] never sees them. *)
Theorem C6_raw_ampamp_is_cut_by_the_parser :
  URLSearchParams_new "key0=tags&operation0=EQUAL&values0=a&&b&&c"
  = [("key0", "tags"); ("operation0", "EQUAL"); ("values0", "a");
     ("b", EmptyString); ("c", EmptyString)]
  /\ returned
       (fromQueryString fresh "key0=tags&operation0=EQUAL&values0=a&&b&&c")
     = Some (query_of [mkCriteria "tags" "EQUAL" ["a"]]).
Proof. split; vm_compute; reflexivity. Qed.

(** C3: the value [100%] is encoded as [values0=100%25]; the decoder,
    which applies [decodeURIComponent] to the value the parser has already
    percent-decoded, throws [URIError] on it. *)
Theorem C3_decoder_throws_on_percent :
  toQueryString (mkQueryBuilder (query_of [mkCriteria "discount" "EQUAL" ["100%"]]))
  = "key0=discount&operation0=EQUAL&values0=100%25"
  /\ fromQueryString fresh "key0=discount&operation0=EQUAL&values0=100%25"
     = Throw URIError
  /\ fromQueryString fresh "values0=100%25" = Throw URIError.
Proof. repeat split; vm_compute; reflexivity. Qed.

(** ** Counterexamples *)

(** C8, as stated, fails on [page=abc]: the page of the returned query is
    the number [NaN], whereas without the parameter it is undefined; the
    same for [pageSize]. *)
Lemma C8_counterexample :
  has (URLSearchParams_new "page=abc") "page" = true
  /\ parseInt "abc" = NaN
  /\ option_map page (returned (fromQueryString fresh "page=abc"))
     = Some (Some NaN)
  /\ option_map page (returned (fromQueryString fresh "page=abc"))
     <> option_map page (returned (fromQueryString fresh EmptyString))
  /\ option_map pageSize (returned (fromQueryString fresh "pageSize=abc"))
     = Some (Some NaN).
Proof.
  repeat split; try (vm_compute; reflexivity).
  vm_compute. intros H. discriminate H.
Qed.

(** C5, as stated, fails when index 10 is met before index 2: the
    criterion of index 10 comes first in the result, not the criterion of
    index 2. *)
Lemma C5_counterexample :
  let s := "key10=ten&operation10=EQUAL&values10=x&key2=two&operation2=EQUAL&values2=y" in
  option_map criteria (returned (fromQueryString fresh s))
  = Some [mkCriteria "ten" "EQUAL" ["x"]; mkCriteria "two" "EQUAL" ["y"]]
  /\ option_map criteria (returned (fromQueryString fresh s))
     <> Some [mkCriteria "two" "EQUAL" ["y"]; mkCriteria "ten" "EQUAL" ["x"]].
Proof.
  split; [vm_compute; reflexivity|].
  vm_compute. intros H. discriminate H.
Qed.

(** C2, as stated, fails on a criterion without values followed by one
    with a value: [key0] and [operation0] of the first are emitted, the
    second takes index 1, and the output differs from the encoding of the
    query without the empty criterion. *)
Lemma C2_counterexample :
  let q := query_of [mkCriteria "a" "EQUAL" []; mkCriteria "b" "EQUAL" ["x"]] in
  toQueryString (mkQueryBuilder q)
  = "key0=a&operation0=EQUAL&key1=b&operation1=EQUAL&values1=x"
  /\ toQueryString (mkQueryBuilder (skip_empty q))
     = "key0=b&operation0=EQUAL&values0=x"
  /\ toQueryString (mkQueryBuilder q)
     <> toQueryString (mkQueryBuilder (skip_empty q)).
Proof.
  repeat split; try (vm_compute; reflexivity).
  apply String.eqb_neq. vm_compute; reflexivity.
Qed.

(** C7, as stated, fails on [operation2=EQUAL&values5=%25]: the indices 2
    and 5 are partial fragments (index 5 has neither key nor operation),
    yet the call does not return: the payload of [values5] is decoded
    before any fragment is tested, and the decoding throws. *)
Lemma C7_counterexample :
  let s := "operation2=EQUAL&values5=%25" in
  let params := URLSearchParams_new s in
  params = [("operation2", "EQUAL"); ("values5", "%")]
  /\ complete params (Int 2) = false
  /\ complete params (Int 5) = false
  /\ fromQueryString fresh s = Throw URIError
  /\ returned (fromQueryString fresh s) = None.
Proof. repeat split; vm_compute; reflexivity. Qed.

(** C1, as stated, fails on a value that contains [&&]: every criterion of
    the query has a value, yet the value comes back as two, so that the
    decoded query is not the original one.  It also fails on a value that
    contains [%], on which the decoder throws, and on an empty key, whose
    criterion the decoder drops. *)
Lemma C1_counterexample :
  let q := query_of [mkCriteria "tags" "EQUAL" ["a&&b"]] in
  let q1 := query_of [mkCriteria "discount" "EQUAL" ["100%"]] in
  let q2 := query_of [mkCriteria EmptyString "EQUAL" ["x"]] in
  forallb has_values (criteria q) = true
  /\ toQueryString (mkQueryBuilder q)
     = "key0=tags&operation0=EQUAL&values0=a%26%26b"
  /\ returned (fromQueryString fresh (toQueryString (mkQueryBuilder q)))
     = Some (query_of [mkCriteria "tags" "EQUAL" ["a"; "b"]])
  /\ returned (fromQueryString fresh (toQueryString (mkQueryBuilder q)))
     <> Some (normalize q)
  /\ fromQueryString fresh (toQueryString (mkQueryBuilder q1))
     = Throw URIError
  /\ returned (fromQueryString fresh (toQueryString (mkQueryBuilder q2)))
     = Some (query_of []).
Proof.
  repeat split; try (vm_compute; reflexivity).
  vm_compute. intros H. discriminate H.
Qed.

(** ** The parameters [toQueryString] emits *)

Lemma forEach_from_appends {A : Type} (g : N * A -> list (string * string))
  (f : URLSearchParams -> A -> N -> URLSearchParams) :
  (forall s x i, f s x i = s ++ g (i, x)) ->
  forall l i s,
    forEach_from i l f s = s ++ flat_map g (enumerate_from i l).
Proof.
  intros Hf. induction l as [|x l IH]; intros i s; cbn.
  - now rewrite app_nil_r.
  - rewrite IH, Hf, <- app_assoc. reflexivity.
Qed.

Lemma forEach_array_from_appends (name : string) :
  forall (l : array string) i s,
    forEach_array_from i l
      (fun params field idx => append params (name ++ decimal idx) field) s
    = s ++ flat_map (fun ix => match snd ix with
                               | Some x => [((name ++ decimal (fst ix))%string, x)]
                               | None => []
                               end) (enumerate_from i l).
Proof.
  induction l as [|[x|] l IH]; intros i s; cbn.
  - now rewrite app_nil_r.
  - rewrite IH. unfold append. rewrite <- app_assoc. reflexivity.
  - apply IH.
Qed.

Lemma flat_map_singleton_enumerate {A B : Type} (h : A -> B) :
  forall (l : list A) i,
    flat_map (fun iv : N * A => [h (snd iv)]) (enumerate_from i l) = map h l.
Proof.
  induction l as [|x l IH]; intros i; cbn; [reflexivity|].
  now rewrite IH.
Qed.

Lemma append_array_pairs (name : string) (a : option (array string))
  (params : URLSearchParams) :
  append_array name a params = params ++ array_pairs name a.
Proof.
  unfold append_array, array_pairs. destruct a as [l|].
  - destruct l as [|x l].
    + cbn. now rewrite app_nil_r.
    + cbn [List.length Nat.ltb Nat.leb]. unfold forEach_array, enumerate.
      apply forEach_array_from_appends.
  - now rewrite app_nil_r.
Qed.

Lemma append_number_pairs (name : string) (x : option number)
  (params : URLSearchParams) :
  append_number name x params = params ++ number_pairs name x.
Proof.
  destruct x; cbn; [reflexivity|]. now rewrite app_nil_r.
Qed.

Lemma criteria_forEach_pairs (cs : list Criteria) (params : URLSearchParams) :
  forEach cs
    (fun params criteria idx =>
       let params := append params (KEY_FIELD ++ decimal idx) (key criteria) in
       let params :=
         append params (OPERATION_FIELD ++ decimal idx) (operation criteria) in
       forEach (values criteria)
         (fun params value _ =>
            append params (VALUES_FIELD ++ decimal idx) value)
         params)
    params
  = params ++ criteria_pairs cs.
Proof.
  unfold forEach, criteria_pairs, enumerate.
  apply forEach_from_appends. intros s c i. cbn beta zeta.
  unfold forEach.
  rewrite (forEach_from_appends
             (fun iv : N * string => [((VALUES_FIELD ++ decimal i)%string, snd iv)]))
    by reflexivity.
  rewrite flat_map_singleton_enumerate with
    (h := fun v : string => ((VALUES_FIELD ++ decimal i)%string, v)).
  unfold append, criterion_pairs. rewrite <- !app_assoc. reflexivity.
Qed.

Lemma toQueryString_params_expected (this : QueryBuilder) :
  toQueryString_params this = expected_pairs (query this).
Proof.
  unfold toQueryString_params, expected_pairs, query. cbn zeta.
  rewrite !append_number_pairs, !append_array_pairs, criteria_forEach_pairs.
  cbn [app]. rewrite <- !app_assoc. reflexivity.
Qed.

(** C9: for every builder, the output of [toQueryString] is the pairs
    [name=value], percent-encoded and joined by [&], in this order: for
    each criterion in sequence [key{i}], [operation{i}] and one
    [values{i}] per value; then every [select{i}], every [selectAs{i}],
    every [orderBy{i}], every [orderByDirection{i}]; then [page] and
    [pageSize] when defined.  An absent or empty optional array and an
    undefined number contribute no pair. *)
Theorem C9_emission_order :
  (forall this : QueryBuilder,
     toQueryString this = join_pairs (expected_pairs (query this)))
  /\ (forall name : string,
        array_pairs name None = [] /\ array_pairs name (Some []) = [])
  /\ (forall name : string, number_pairs name None = []).
Proof.
  split.
  - intros this. unfold toQueryString. rewrite toQueryString_params_expected.
    reflexivity.
  - split; intros name; [split|]; reflexivity.
Qed.

(** ** Parsing what the serialiser wrote *)

Lemma append_assoc (a b c : string) :
  ((a ++ b) ++ c = a ++ (b ++ c))%string.
Proof. induction a as [|x a IH]; cbn; [reflexivity|now rewrite IH]. Qed.

Lemma all_chars_app (p : ascii -> bool) (a b : string) :
  all_chars p (a ++ b) = all_chars p a && all_chars p b.
Proof.
  induction a as [|x a IH]; cbn; [reflexivity|].
  now rewrite IH, andb_assoc.
Qed.

Lemma all_chars_no_mem (p : ascii -> bool) (x : ascii) (s : string) :
  all_chars p s = true -> p x = false -> mem_char x s = false.
Proof.
  intros Hs Hx. induction s as [|c s IH]; cbn in *; [reflexivity|].
  apply andb_true_iff in Hs as [Hc Hs].
  rewrite (IH Hs), orb_false_r.
  destruct (Ascii.eqb_spec c x) as [->|]; [congruence|reflexivity].
Qed.

(** One source byte at a time. *)
Lemma urlencode_cons_chars (c : ascii) (t : string) :
  exists e : string,
    urlencode (String c t) = (e ++ urlencode t)%string
    /\ all_chars enc_char e = true
    /\ starts_with "?" e = false
    /\ is_empty e = false
    /\ forall r : string,
         percent_decode (plus_to_space (e ++ r))
         = String c (percent_decode (plus_to_space r)).
Proof.
  destruct c as [[|] [|] [|] [|] [|] [|] [|] [|]];
    (eexists (String _ EmptyString); repeat split; reflexivity)
    || (eexists (String _ (String _ (String _ EmptyString)));
        repeat split; reflexivity).
Qed.

Lemma urldecode_urlencode (s : string) : urldecode (urlencode s) = s.
Proof.
  unfold urldecode. induction s as [|c t IH]; [reflexivity|].
  destruct (urlencode_cons_chars c t) as (e & -> & _ & _ & _ & Hd).
  now rewrite Hd, IH.
Qed.

Lemma urlencode_chars (s : string) : all_chars enc_char (urlencode s) = true.
Proof.
  induction s as [|c t IH]; [reflexivity|].
  destruct (urlencode_cons_chars c t) as (e & -> & He & _).
  now rewrite all_chars_app, He, IH.
Qed.

Lemma urlencode_no_question (s : string) :
  starts_with "?" (urlencode s) = false.
Proof.
  destruct s as [|c t]; [reflexivity|].
  destruct (urlencode_cons_chars c t) as (e & -> & _ & Hq & Hne & _).
  destruct e; [discriminate Hne|exact Hq].
Qed.

Lemma cut_at_app (sep : ascii) (a b : string) :
  mem_char sep a = false ->
  cut_at sep (a ++ String sep b) = Some (a, b).
Proof.
  induction a as [|c a IH]; cbn; intros H.
  - now rewrite Ascii.eqb_refl.
  - apply orb_false_iff in H as [Hc H]. rewrite Hc, (IH H). reflexivity.
Qed.

Lemma parse_serialize_pair (p : string * string) :
  parse_pair (serialize_pair p) = p.
Proof.
  destruct p as [n v]. unfold parse_pair, serialize_pair. cbn [fst snd].
  change ("=" ++ urlencode v)%string with (String "=" (urlencode v)).
  rewrite cut_at_app
    by (apply all_chars_no_mem with (p := enc_char);
        [apply urlencode_chars|reflexivity]).
  now rewrite !urldecode_urlencode.
Qed.

Lemma serialize_pair_no_amp (p : string * string) :
  mem_char "&" (serialize_pair p) = false.
Proof.
  apply all_chars_no_mem with (p := fun c => enc_char c || Ascii.eqb c "=");
    [|reflexivity].
  unfold serialize_pair. rewrite !all_chars_app. cbn.
  assert (H : forall s, all_chars enc_char s = true ->
                        all_chars (fun c => enc_char c || Ascii.eqb c "=") s = true).
  { induction s as [|c s IH]; cbn; [reflexivity|]. intros Hs.
    apply andb_true_iff in Hs as [-> Hs]. now rewrite IH. }
  now rewrite !H by apply urlencode_chars.
Qed.

Lemma serialize_pair_nonempty (p : string * string) :
  is_empty (serialize_pair p) = false.
Proof.
  unfold serialize_pair. destruct (urlencode (fst p)); reflexivity.
Qed.

Lemma split_char_no_sep (sep : ascii) (a : string) :
  mem_char sep a = false -> split_char sep a = [a].
Proof.
  induction a as [|c a IH]; cbn; intros H; [reflexivity|].
  apply orb_false_iff in H as [Hc H]. now rewrite Hc, (IH H).
Qed.

Lemma split_char_app (sep : ascii) (a b : string) :
  mem_char sep a = false ->
  split_char sep (a ++ String sep b) = a :: split_char sep b.
Proof.
  induction a as [|c a IH]; cbn; intros H.
  - now rewrite Ascii.eqb_refl.
  - apply orb_false_iff in H as [Hc H]. now rewrite Hc, (IH H).
Qed.

Lemma split_concat (pieces : list string) :
  Forall (fun p => mem_char "&" p = false) pieces ->
  pieces <> [] ->
  split_char "&" (String.concat "&" pieces) = pieces.
Proof.
  induction 1 as [|p ps Hp Hps IH]; intros Hne; [congruence|].
  destruct ps as [|p' ps].
  - cbn. now apply split_char_no_sep.
  - change (String.concat "&" (p :: p' :: ps))
      with (p ++ String "&" (String.concat "&" (p' :: ps)))%string.
    rewrite split_char_app by assumption.
    rewrite IH by discriminate. reflexivity.
Qed.

Lemma urlencoded_parse_toString (ps : URLSearchParams) :
  urlencoded_parse (URLSearchParams_toString ps) = ps.
Proof.
  unfold urlencoded_parse, URLSearchParams_toString.
  destruct ps as [|p ps]; [reflexivity|].
  rewrite split_concat.
  - set (l := p :: ps).
    assert (Hf : filter (fun x => negb (is_empty x)) (map serialize_pair l)
                 = map serialize_pair l).
    { induction l as [|x l IH]; cbn; [reflexivity|].
      now rewrite serialize_pair_nonempty, IH. }
    rewrite Hf, map_map. rewrite <- (map_id l) at 2.
    apply map_ext. intros x. apply parse_serialize_pair.
  - apply Forall_forall. intros x Hx. apply in_map_iff in Hx as (y & <- & _).
    apply serialize_pair_no_amp.
  - discriminate.
Qed.

Lemma serialize_pair_no_question (p : string * string) (r : string) :
  starts_with "?" (serialize_pair p ++ r) = false
  /\ starts_with "?" (serialize_pair p) = false.
Proof.
  unfold serialize_pair.
  pose proof (urlencode_no_question (fst p)) as Hq.
  destruct (urlencode (fst p)); split; solve [reflexivity | exact Hq].
Qed.

Lemma toString_no_question (ps : URLSearchParams) :
  starts_with "?" (URLSearchParams_toString ps) = false.
Proof.
  destruct ps as [|p ps]; [reflexivity|].
  unfold URLSearchParams_toString. cbn [map].
  destruct ps; cbn [String.concat map]; apply serialize_pair_no_question.
  exact EmptyString.
Qed.

(** What [toString] wrote, the constructor reads back. *)
Lemma URLSearchParams_new_toString (ps : URLSearchParams) :
  URLSearchParams_new (URLSearchParams_toString ps) = ps.
Proof.
  pose proof (toString_no_question ps) as Hq.
  unfold URLSearchParams_new.
  destruct (URLSearchParams_toString ps) as [|c t] eqn:E.
  - rewrite <- E. apply urlencoded_parse_toString.
  - cbn in Hq.
    assert (Hc : urlencoded_parse (String c t) = ps)
      by (rewrite <- E; apply urlencoded_parse_toString).
    destruct c as [[|] [|] [|] [|] [|] [|] [|] [|]];
      try exact Hc; discriminate Hq.
Qed.

(** ** Decimal numerals and indexed names *)

Lemma string_of_uint_digits (d : Decimal.uint) :
  all_chars is_digit (NilEmpty.string_of_uint d) = true.
Proof. induction d; cbn; auto. Qed.

Lemma to_uint_not_nil (n : N) : N.to_uint n <> Decimal.Nil.
Proof.
  intros H. pose proof (DecimalN.Unsigned.of_to n) as E. rewrite H in E.
  cbn in E. subst n. discriminate H.
Qed.

Lemma decimal_NilEmpty (n : N) :
  decimal n = NilEmpty.string_of_uint (N.to_uint n).
Proof.
  unfold decimal, NilZero.string_of_uint.
  pose proof (to_uint_not_nil n). destruct (N.to_uint n); congruence.
Qed.

Lemma decimal_digits (n : N) : all_chars is_digit (decimal n) = true.
Proof. rewrite decimal_NilEmpty. apply string_of_uint_digits. Qed.

Lemma decimal_nonempty (n : N) : is_empty (decimal n) = false.
Proof.
  rewrite decimal_NilEmpty. pose proof (to_uint_not_nil n).
  destruct (N.to_uint n); try reflexivity. congruence.
Qed.

Lemma digits_value_decimal (n : N) : digits_value (decimal n) = n.
Proof.
  unfold digits_value. rewrite decimal_NilEmpty, NilEmpty.usu.
  apply DecimalN.Unsigned.of_to.
Qed.

Lemma decimal_inj (n m : N) : decimal n = decimal m -> n = m.
Proof.
  intros H. rewrite <- (digits_value_decimal n), <- (digits_value_decimal m).
  now rewrite H.
Qed.

Lemma take_digits_all (s : string) :
  all_chars is_digit s = true -> take_digits s = s.
Proof.
  induction s as [|c s IH]; cbn; [reflexivity|]. intros H.
  apply andb_true_iff in H as [-> H]. now rewrite IH.
Qed.

(** A digit is neither white space, nor the start of a multi-byte white
    space, nor a sign. *)
Lemma digit_not_space (c : ascii) :
  is_digit c = true ->
  is_ws1 c = false
  /\ (forall b, is_ws2 c b = false)
  /\ (forall b d, is_ws3 c b d = false)
  /\ Ascii.eqb c "-" = false /\ Ascii.eqb c "+" = false
  /\ Ascii.eqb c "%" = false.
Proof.
  destruct c as [[|] [|] [|] [|] [|] [|] [|] [|]]; intros H;
    try discriminate H; repeat split; reflexivity.
Qed.

(** On a non-empty string of digits [parseInt] is the value of the
    numeral, rounded to a double. *)
Lemma parseInt_digits (s : string) :
  all_chars is_digit s = true -> is_empty s = false ->
  parseInt s = double_of_N (digits_value s).
Proof.
  intros Hd Hne. destruct s as [|c t]; [discriminate Hne|].
  pose proof Hd as Hall. cbn in Hd. apply andb_true_iff in Hd as [Hc Ht].
  destruct (digit_not_space c Hc) as (W1 & W2 & W3 & Hm & Hp & _).
  assert (Htrim : trimStart (String c t) = String c t).
  { cbn. rewrite W1. destruct t as [|b t]; [reflexivity|].
    rewrite W2. destruct t as [|d t]; [reflexivity|]. now rewrite W3. }
  unfold parseInt. rewrite Htrim.
  assert (Hsign : (match String c t with
                   | String "-"%char t0 => (true, t0)
                   | String "+"%char t0 => (false, t0)
                   | _ => (false, String c t)
                   end) = (false, String c t)).
  { destruct c as [[|] [|] [|] [|] [|] [|] [|] [|]];
      try reflexivity; discriminate. }
  rewrite Hsign, (take_digits_all _ Hall). reflexivity.
Qed.

Lemma double_of_N_small (n : N) :
  (n < 2 ^ 53)%N -> double_of_N n = Int (Z.of_N n).
Proof.
  intros H. unfold double_of_N. apply N.ltb_lt in H. now rewrite H.
Qed.

Lemma parseInt_decimal (n : N) :
  (n < 2 ^ 53)%N -> parseInt (decimal n) = Int (Z.of_N n).
Proof.
  intros H.
  rewrite parseInt_digits by (apply decimal_digits || apply decimal_nonempty).
  rewrite digits_value_decimal. now apply double_of_N_small.
Qed.

Lemma strip_prefix_app (p s : string) : strip_prefix p (p ++ s) = Some s.
Proof.
  induction p as [|c p IH]; cbn; [now destruct s|].
  now rewrite Ascii.eqb_refl.
Qed.

Lemma match_indexed_same (prefix : string) (n : N) :
  match_indexed prefix (prefix ++ decimal n) = Some (decimal n).
Proof.
  unfold match_indexed.
  now rewrite strip_prefix_app, decimal_nonempty, decimal_digits.
Qed.

(** A prefix that goes on with a letter does not match a numeral. *)
Lemma strip_prefix_digits (c : ascii) (p s : string) :
  is_digit c = false -> all_chars is_digit s = true ->
  strip_prefix (String c p) s = None.
Proof.
  intros Hc Hs. destruct s as [|x s]; cbn; [reflexivity|].
  cbn in Hs. apply andb_true_iff in Hs as [Hx _].
  destruct (Ascii.eqb_spec c x) as [->|]; [congruence|reflexivity].
Qed.

Lemma append_inj_l (p a b : string) :
  (p ++ a = p ++ b)%string -> a = b.
Proof.
  induction p as [|c p IH]; cbn; [auto|]. intros [= H]. auto.
Qed.

(** ** Which parameters a criterion contributes *)

Lemma In_enumerate_from {A : Type} (l : list A) :
  forall (s j : N) (x : A),
    In (j, x) (enumerate_from s l)
    <-> exists n : nat, j = (s + N.of_nat n)%N /\ nth_error l n = Some x.
Proof.
  induction l as [|y l IH]; intros s j x; cbn.
  - split; [tauto|]. intros (n & _ & H). destruct n; discriminate H.
  - rewrite IH. split.
    + intros [[= <- <-]|(n & -> & H)].
      * exists 0%nat. split; [lia|reflexivity].
      * exists (S n). split; [lia|exact H].
    + intros ([|n] & -> & H).
      * left. cbn in H. injection H as ->. f_equal. lia.
      * right. exists n. split; [lia|exact H].
Qed.

Lemma In_criteria_pairs (cs : list Criteria) (p : string * string) :
  In p (criteria_pairs cs)
  <-> exists (n : nat) (c : Criteria),
        nth_error cs n = Some c /\ In p (criterion_pairs (N.of_nat n, c)).
Proof.
  unfold criteria_pairs, enumerate. rewrite in_flat_map. split.
  - intros ([j c] & Hin & Hp). apply In_enumerate_from in Hin as (n & -> & Hn).
    exists n, c. now split.
  - intros (n & c & Hn & Hp). exists (N.of_nat n, c). split; [|exact Hp].
    apply In_enumerate_from. exists n. now split.
Qed.

Lemma In_array_pairs (name : string) (a : option (array string))
  (p : string * string) :
  In p (array_pairs name a) -> exists j : N, fst p = (name ++ decimal j)%string.
Proof.
  destruct a as [l|]; cbn; [|tauto]. rewrite in_flat_map.
  intros ([j [x|]] & _ & H); cbn in H; [|tauto].
  destruct H as [<-|[]]. now exists j.
Qed.

Lemma In_number_pairs (name : string) (x : option number)
  (p : string * string) :
  In p (number_pairs name x) -> fst p = name.
Proof. destruct x; cbn; [|tauto]. now intros [<-|[]]. Qed.

Lemma In_expected_criteria (q : DynamicQuery) (prefix : string) (d v : string) :
  In prefix ["key"; "operation"; "values"] ->
  (In ((prefix ++ d)%string, v) (expected_pairs q)
   <-> In ((prefix ++ d)%string, v) (criteria_pairs (criteria q))).
Proof.
  intros Hp. unfold expected_pairs. rewrite !in_app_iff.
  split; [|tauto].
  intros [H|[H|[H|[H|[H|[H|H]]]]]]; [exact H|exfalso..];
    try (apply In_array_pairs in H as (j & H); cbn [fst] in H);
    try (apply In_number_pairs in H; cbn [fst] in H);
    cbn in Hp; destruct Hp as [<-|[<-|[<-|[]]]]; name_clash.
Qed.

Lemma In_criterion_pairs (i : N) (c : Criteria) (p : string * string) :
  In p (criterion_pairs (i, c))
  <-> p = (("key" ++ decimal i)%string, key c)
      \/ p = (("operation" ++ decimal i)%string, operation c)
      \/ exists v, In v (values c) /\ p = (("values" ++ decimal i)%string, v).
Proof.
  cbn. rewrite in_map_iff. split.
  - intros [H|[H|(v & H & Hv)]]; eauto.
  - intros [H|[H|(v & Hv & H)]]; eauto.
Qed.

(** C2 (amended): every criterion is emitted under the index of its
    position in the criteria sequence, with or without values.  In the
    parameters read from the output of [toQueryString], [key{i}] carries
    the key of the criterion at position [i] and nothing else,
    [operation{i}] its operation and nothing else, and the [values{i}]
    parameters carry exactly its values: a criterion without values still
    emits [key{i}] and [operation{i}] and takes the slot [i]. *)
Theorem C2_every_criterion_takes_its_position :
  forall (this : QueryBuilder) (i : nat) (c : Criteria),
    nth_error (criteria (query this)) i = Some c ->
    let params := URLSearchParams_new (toQueryString this) in
    let idx := decimal (N.of_nat i) in
    (forall k, In (("key" ++ idx)%string, k) params <-> k = key c)
    /\ (forall op,
          In (("operation" ++ idx)%string, op) params <-> op = operation c)
    /\ (forall v, In (("values" ++ idx)%string, v) params <-> In v (values c)).
Proof.
  intros this i c Hi params idx. subst params idx.
  unfold toQueryString.
  rewrite URLSearchParams_new_toString, toQueryString_params_expected.
  assert (Hsame : forall n c', nth_error (criteria (query this)) n = Some c' ->
                    decimal (N.of_nat i) = decimal (N.of_nat n) -> c' = c).
  { intros n c' Hn E. apply decimal_inj, Nat2N.inj in E. subst n. congruence. }
  repeat split.
  - rewrite In_expected_criteria by (cbn; tauto).
    intros H. apply In_criteria_pairs in H as (n & c' & Hn & H).
    apply In_criterion_pairs in H as [H|[H|(v & _ & H)]];
      apply pair_equal_spec in H as [E1 E2]; try name_clash.
    apply append_inj_l in E1. now rewrite (Hsame n c' Hn E1) in E2.
  - intros ->. rewrite In_expected_criteria by (cbn; tauto).
    apply In_criteria_pairs. exists i, c. split; [exact Hi|].
    apply In_criterion_pairs. now left.
  - rewrite In_expected_criteria by (cbn; tauto).
    intros H. apply In_criteria_pairs in H as (n & c' & Hn & H).
    apply In_criterion_pairs in H as [H|[H|(v & _ & H)]];
      apply pair_equal_spec in H as [E1 E2]; try name_clash.
    apply append_inj_l in E1. now rewrite (Hsame n c' Hn E1) in E2.
  - intros ->. rewrite In_expected_criteria by (cbn; tauto).
    apply In_criteria_pairs. exists i, c. split; [exact Hi|].
    apply In_criterion_pairs. right. now left.
  - rewrite In_expected_criteria by (cbn; tauto).
    intros H. apply In_criteria_pairs in H as (n & c' & Hn & H).
    apply In_criterion_pairs in H as [H|[H|(v' & Hv & H)]];
      apply pair_equal_spec in H as [E1 E2]; try name_clash.
    apply append_inj_l in E1. rewrite <- (Hsame n c' Hn E1). now subst.
  - intros Hv. rewrite In_expected_criteria by (cbn; tauto).
    apply In_criteria_pairs. exists i, c. split; [exact Hi|].
    apply In_criterion_pairs. right. right. now exists v.
Qed.

(** The theorem at the criterion without values of the counterexample:
    it holds position 0, and [key0], [operation0] are emitted for it. *)
Lemma C2_witness :
  let q := query_of [mkCriteria "a" "EQUAL" []; mkCriteria "b" "EQUAL" ["x"]] in
  nth_error (criteria (query (mkQueryBuilder q))) 0
  = Some (mkCriteria "a" "EQUAL" [])
  /\ (forall k,
        In ("key0", k) (URLSearchParams_new (toQueryString (mkQueryBuilder q)))
        <-> k = "a").
Proof.
  intros q. split; [reflexivity|].
  exact (proj1 (C2_every_criterion_takes_its_position
                  (mkQueryBuilder q) 0 (mkCriteria "a" "EQUAL" []) eq_refl)).
Defined.

(** ** The loop of [fromQueryString] *)

Lemma number_eqb_eq (a b : number) : number_eqb a b = true <-> a = b.
Proof.
  destruct a as [|x|x], b as [|y|y]; cbn; split; try congruence;
    try reflexivity.
  - intros H. apply Bool.eqb_prop in H. now subst.
  - intros [= ->]. apply Bool.eqb_reflx.
  - intros H. apply Z.eqb_eq in H. now subst.
  - intros [= ->]. apply Z.eqb_refl.
Qed.

Lemma number_eqb_refl (a : number) : number_eqb a a = true.
Proof. now apply number_eqb_eq. Qed.

Lemma number_eqb_sym (a b : number) : number_eqb a b = number_eqb b a.
Proof.
  destruct (number_eqb a b) eqn:E.
  - apply number_eqb_eq in E. subst. now rewrite number_eqb_refl.
  - destruct (number_eqb b a) eqn:E'; [|reflexivity].
    apply number_eqb_eq in E'. subst. now rewrite number_eqb_refl in E.
Qed.

Lemma foldM_app {A S : Type} (body : S -> A -> completion S) (l1 l2 : list A) :
  forall s, foldM body (l1 ++ l2) s = (s' <- foldM body l1 s ;; foldM body l2 s').
Proof.
  induction l1 as [|x l1 IH]; intros s; cbn; [reflexivity|].
  destruct (body s x); cbn; [apply IH|reflexivity].
Qed.

(** The three criteria patterns exclude one another: they start with
    different letters. *)
Lemma match_indexed_starts (c : ascii) (p name d : string) :
  match_indexed (String c p) name = Some d -> starts_with c name = true.
Proof.
  unfold match_indexed. destruct name as [|x name]; cbn; [discriminate|].
  rewrite Ascii.eqb_sym. destruct (Ascii.eqb x c); [reflexivity|discriminate].
Qed.

Lemma match_indexed_other (c c' : ascii) (p name : string) :
  starts_with c name = true -> Ascii.eqb c c' = false ->
  match_indexed (String c' p) name = None.
Proof.
  unfold match_indexed. destruct name as [|x name]; cbn; [reflexivity|].
  intros Hx Hc. apply Ascii.eqb_eq in Hx. subst x.
  rewrite Ascii.eqb_sym, Hc. reflexivity.
Qed.

Lemma classify (name : string) : name_kind name.
Proof.
  destruct (match_indexed "key" name) as [d|] eqn:Hk.
  - apply (KeyName name d Hk);
      apply match_indexed_starts in Hk;
      now apply (match_indexed_other "k").
  - destruct (match_indexed "operation" name) as [d|] eqn:Ho.
    + apply (OperationName name d Hk Ho).
      apply match_indexed_starts in Ho. now apply (match_indexed_other "o").
    + destruct (match_indexed "values" name) as [d|] eqn:Hv.
      * now apply (ValuesName name d).
      * now apply OtherName.
Qed.

(** *** Fragments after one more parameter *)

Lemma field_values_snoc (field : string) (i : number) (ps : URLSearchParams)
  (p : string * string) :
  field_values field i (ps ++ [p])
  = field_values field i ps ++ (if is_field field i p then [snd p] else []).
Proof.
  unfold field_values. rewrite filter_app, map_app. cbn.
  now destruct (is_field field i p).
Qed.

Lemma filter_map_app {A B : Type} (f : A -> option B) (l1 l2 : list A) :
  filter_map f (l1 ++ l2) = filter_map f l1 ++ filter_map f l2.
Proof.
  induction l1 as [|x l1 IH]; cbn; [reflexivity|].
  destruct (f x); cbn; now rewrite IH.
Qed.

Lemma criteria_indices_snoc (ps : URLSearchParams) (p : string * string) :
  criteria_indices (ps ++ [p])
  = match fragment_index p with
    | Some i => add_new (criteria_indices ps) i
    | None => criteria_indices ps
    end.
Proof.
  unfold criteria_indices, first_occurrences. rewrite filter_map_app. cbn.
  destruct (fragment_index p); [|now rewrite app_nil_r].
  now rewrite fold_left_app.
Qed.

Lemma last_value_snoc (l : list string) (x : string) :
  last_value (l ++ [x]) = Some x.
Proof. unfold last_value. now rewrite rev_app_distr. Qed.

Lemma mem_number_app (i : number) (l1 l2 : list number) :
  mem_number i (l1 ++ l2) = mem_number i l1 || mem_number i l2.
Proof. apply existsb_app. Qed.

Lemma mem_add_new (i x : number) (seen : list number) :
  mem_number i (add_new seen x) = mem_number i seen || number_eqb i x.
Proof.
  unfold add_new. destruct (mem_number x seen) eqn:E.
  - destruct (number_eqb i x) eqn:Ex; [|now rewrite orb_false_r].
    apply number_eqb_eq in Ex. subst. now rewrite E.
  - rewrite mem_number_app. cbn. now rewrite orb_false_r.
Qed.

Lemma mem_first_occurrences (i : number) (l : list number) :
  mem_number i (first_occurrences l) = mem_number i l.
Proof.
  induction l as [|x l IH] using rev_ind; [reflexivity|].
  unfold first_occurrences in *. rewrite fold_left_app. cbn [fold_left].
  rewrite mem_add_new, IH, mem_number_app. cbn. now rewrite orb_false_r.
Qed.

Lemma is_field_index (field : string) (i : number) (p : string * string) :
  In field ["key"; "operation"; "values"] ->
  is_field field i p = true ->
  exists j, fragment_index p = Some j /\ number_eqb i j = true.
Proof.
  unfold is_field, fragment_index. intros Hf H.
  destruct (classify (fst p)) as [d Hk Ho Hv|d Hk Ho Hv|d Hk Ho Hv|Hk Ho Hv];
    cbn in Hf; destruct Hf as [<-|[<-|[<-|[]]]];
    rewrite ?Hk, ?Ho, ?Hv in *; try discriminate H;
    (eexists; split; [reflexivity|now rewrite number_eqb_sym]).
Qed.

Lemma field_values_absent (field : string) (i : number)
  (ps : URLSearchParams) :
  In field ["key"; "operation"; "values"] ->
  mem_number i (criteria_indices ps) = false ->
  field_values field i ps = [].
Proof.
  intros Hf. unfold criteria_indices. rewrite mem_first_occurrences.
  unfold field_values.
  induction ps as [|p ps IH]; cbn; [reflexivity|]. intros Hm.
  destruct (is_field field i p) eqn:E.
  - apply (is_field_index _ _ _ Hf) in E as (j & Ej & Eij).
    rewrite Ej in Hm. cbn in Hm. now rewrite Eij in Hm.
  - apply IH. destruct (fragment_index p); [|exact Hm].
    cbn in Hm. now apply orb_false_iff in Hm.
Qed.

Lemma fragment_absent (i : number) (ps : URLSearchParams) :
  mem_number i (criteria_indices ps) = false ->
  fragment ps i = empty_partial.
Proof.
  intros H. unfold fragment.
  now rewrite !field_values_absent by (assumption || cbn; tauto).
Qed.

(** *** The map after one more parameter *)

Lemma Map_has_map {V : Type} (F : number -> V) (l : list number)
  (idx : number) :
  Map_has (map (fun i => (i, F i)) l) idx = mem_number idx l.
Proof.
  unfold Map_has, mem_number.
  induction l as [|i l IH]; cbn; [reflexivity|].
  now rewrite IH, number_eqb_sym.
Qed.

Lemma Map_mutate_twice {V : Type} (m : Map V) (k : number) (g h : V -> V) :
  Map_mutate (Map_mutate m k g) k h = Map_mutate m k (fun o => h (g o)).
Proof.
  unfold Map_mutate. rewrite map_map. apply map_ext. intros [i o]. cbn.
  destruct (number_eqb i k) eqn:E; cbn; now rewrite E.
Qed.

Lemma mutate_ensure (F F' : number -> PartialCriteria) (l : list number)
  (idx : number) (init : PartialCriteria)
  (f : PartialCriteria -> PartialCriteria) :
  (forall i, number_eqb i idx = false -> F' i = F i) ->
  F' idx = f (if mem_number idx l then F idx else init) ->
  Map_mutate (ensure_entry (map (fun i => (i, F i)) l) idx init) idx f
  = map (fun i => (i, F' i)) (add_new l idx).
Proof.
  intros Hother Hidx. unfold ensure_entry, add_new.
  rewrite Map_has_map. destruct (mem_number idx l) eqn:Hm; cbn [negb].
  - unfold Map_mutate. rewrite map_map. apply map_ext. intros i. cbn.
    destruct (number_eqb i idx) eqn:E.
    + apply number_eqb_eq in E. subst i. now rewrite Hidx.
    + now rewrite Hother.
  - unfold Map_set. rewrite Map_has_map, Hm.
    unfold Map_mutate. rewrite !map_app, map_map. cbn.
    rewrite number_eqb_refl, Hidx. f_equal.
    apply map_ext_in. intros i Hi. cbn.
    destruct (number_eqb i idx) eqn:E.
    + apply number_eqb_eq in E. subst i.
      assert (mem_number idx l = true)
        by (apply existsb_exists; exists idx; split;
            [exact Hi|apply number_eqb_refl]).
      congruence.
    + now rewrite Hother.
Qed.

Lemma is_field_of_match (field : string) (i : number) (p : string * string)
  (d : string) :
  match_indexed field (fst p) = Some d ->
  is_field field i p = number_eqb (parseInt d) i.
Proof. unfold is_field. now intros ->. Qed.

Lemma is_field_no_match (field : string) (i : number) (p : string * string) :
  match_indexed field (fst p) = None -> is_field field i p = false.
Proof. unfold is_field. now intros ->. Qed.

(** The invariant of the loop: the map holds, for every criterion index
    met so far and in order of first encounter, the union of its
    fragments. *)
Lemma criteria_step_fragments (ps : URLSearchParams) (p : string * string)
  (m' : Map PartialCriteria) :
  criteria_step
    (map (fun i => (i, fragment ps i)) (criteria_indices ps)) p = Normal m' ->
  m' = map (fun i => (i, fragment (ps ++ [p]) i)) (criteria_indices (ps ++ [p])).
Proof.
  rewrite criteria_indices_snoc. unfold criteria_step, fragment_index.
  destruct p as [name value].
  destruct (classify name) as [d Hk Ho Hv|d Hk Ho Hv|d Hk Ho Hv|Hk Ho Hv];
    cbn [fst]; rewrite ?Hk, ?Ho, ?Hv.
  - (* key{i} *)
    intros [= <-]. apply mutate_ensure.
    + intros i Hi. unfold fragment. rewrite !field_values_snoc.
      rewrite (is_field_of_match "key" i (name, value) d Hk), number_eqb_sym, Hi.
      rewrite !is_field_no_match by assumption. now rewrite !app_nil_r.
    + unfold fragment at 1. rewrite !field_values_snoc.
      rewrite (is_field_of_match "key" _ (name, value) d Hk), number_eqb_refl.
      rewrite !is_field_no_match by assumption.
      rewrite last_value_snoc, !app_nil_r. cbn [snd].
      destruct (mem_number (parseInt d) (criteria_indices ps)) eqn:Hm;
        [reflexivity|].
      now rewrite !field_values_absent by (assumption || cbn; tauto).
  - (* operation{i} *)
    intros [= <-]. apply mutate_ensure.
    + intros i Hi. unfold fragment. rewrite !field_values_snoc.
      rewrite (is_field_of_match "operation" i (name, value) d Ho), number_eqb_sym, Hi.
      rewrite !is_field_no_match by assumption. now rewrite !app_nil_r.
    + unfold fragment at 1. rewrite !field_values_snoc.
      rewrite (is_field_of_match "operation" _ (name, value) d Ho), number_eqb_refl.
      rewrite !is_field_no_match by assumption.
      rewrite last_value_snoc, !app_nil_r. cbn [snd].
      destruct (mem_number (parseInt d) (criteria_indices ps)) eqn:Hm;
        [reflexivity|].
      now rewrite !field_values_absent by (assumption || cbn; tauto).
  - (* values{i} *)
    destruct (decodeURIComponent value) as [decoded|e] eqn:Hdec;
      cbn [bind]; [|discriminate].
    intros [= <-]. rewrite Map_mutate_twice. apply mutate_ensure.
    + intros i Hi. unfold fragment. rewrite !field_values_snoc.
      rewrite (is_field_of_match "values" i (name, value) d Hv), number_eqb_sym, Hi.
      rewrite !is_field_no_match by assumption. now rewrite !app_nil_r.
    + unfold fragment at 1. rewrite !field_values_snoc.
      rewrite (is_field_of_match "values" _ (name, value) d Hv), number_eqb_refl.
      rewrite !is_field_no_match by assumption.
      rewrite !app_nil_r. cbn [snd].
      assert (Hpieces : decoded_pieces value = split_ampamp decoded)
        by (unfold decoded_pieces; now rewrite Hdec).
      destruct (mem_number (parseInt d) (criteria_indices ps)) eqn:Hm.
      * unfold fragment.
        destruct (field_values "values" (parseInt d) ps) as [|v vs];
          cbn [app]; unfold push_values, set_values; cbn -[flat_map].
        -- cbn [flat_map]. now rewrite Hpieces, app_nil_r.
        -- rewrite <- Hpieces.
           change (v :: vs ++ [value]) with ((v :: vs) ++ [value]).
           rewrite flat_map_app. cbn [flat_map]. now rewrite app_nil_r.
      * rewrite !field_values_absent by (assumption || cbn; tauto).
        cbn -[decoded_pieces]. now rewrite Hpieces, app_nil_r.
  - (* any other name *)
    intros [= <-]. apply map_ext. intros i. f_equal.
    unfold fragment. rewrite !field_values_snoc.
    rewrite !is_field_no_match by assumption. now rewrite !app_nil_r.
Qed.

Lemma criteria_step_throws (m : Map PartialCriteria) (p : string * string) :
  (exists e, criteria_step m p = Throw e) <-> bad_values_param p = true.
Proof.
  unfold criteria_step, bad_values_param. destruct p as [name value].
  destruct (classify name) as [d Hk Ho Hv|d Hk Ho Hv|d Hk Ho Hv|Hk Ho Hv];
    cbn [fst snd]; rewrite ?Hk, ?Ho, ?Hv;
    try (split; [intros (e & [=])|discriminate]).
  destruct (decodeURIComponent value) as [s|e]; cbn [bind]; split;
    try discriminate; try reflexivity.
  - intros (e & [=]).
  - intros _. now exists e.
Qed.

Lemma body_criteriaMap (st st' : locals) (p : string * string) :
  fromQueryString_body st p = Normal st' ->
  criteria_step (criteriaMap st) p = Normal (criteriaMap st').
Proof.
  unfold fromQueryString_body.
  destruct (criteria_step (criteriaMap st) p); cbn; [|discriminate].
  now intros [= <-].
Qed.

Lemma loop_fragments (params : URLSearchParams) (st0 st : locals) :
  criteriaMap st0 = [] ->
  foldM fromQueryString_body params st0 = Normal st ->
  criteriaMap st
  = map (fun i => (i, fragment params i)) (criteria_indices params).
Proof.
  intros H0. revert st.
  induction params as [|p ps IH] using rev_ind; intros st.
  - cbn. now intros [= <-].
  - rewrite foldM_app.
    destruct (foldM fromQueryString_body ps st0) as [st1|e]; cbn [bind];
      [|discriminate].
    cbn [foldM].
    destruct (fromQueryString_body st1 p) as [st2|e] eqn:Hb; cbn [bind];
      [|discriminate].
    intros [= <-]. apply body_criteriaMap in Hb.
    rewrite (IH st1 eq_refl) in Hb. now apply criteria_step_fragments.
Qed.

Lemma loop_throws (params : URLSearchParams) :
  forall st0,
    (exists e, foldM fromQueryString_body params st0 = Throw e)
    <-> existsb bad_values_param params = true.
Proof.
  induction params as [|p ps IH]; intros st0; cbn.
  - split; [intros (e & [=])|discriminate].
  - unfold fromQueryString_body at 1.
    pose proof (criteria_step_throws (criteriaMap st0) p) as Hp.
    destruct (criteria_step (criteriaMap st0) p) as [m|e]; cbn [bind].
    + destruct (bad_values_param p).
      * destruct Hp as [_ Hp]. destruct (Hp eq_refl) as (e & [=]).
      * cbn. apply IH.
    + destruct Hp as [Hp _]. rewrite Hp by now exists e.
      split; [reflexivity|]. intros _. now exists e.
Qed.

(** *** From the map to the criteria *)

Lemma fold_push_if_complete (l : list PartialCriteria) :
  forall acc,
    fold_left push_if_complete l acc
    = acc ++ flat_map (push_if_complete []) l.
Proof.
  induction l as [|o l IH]; intros acc; cbn [fold_left flat_map].
  - now rewrite app_nil_r.
  - rewrite IH, app_assoc. f_equal.
    unfold push_if_complete.
    destruct (p_key o), (p_operation o), (p_values o);
      rewrite ?app_nil_r; try reflexivity.
    destruct (truthy _ && truthy _); now rewrite ?app_nil_r.
Qed.

Lemma push_fragment (params : URLSearchParams) (i : number) :
  push_if_complete [] (fragment params i)
  = if complete params i then [criterion_of params i] else [].
Proof.
  unfold push_if_complete, complete, criterion_of, fragment.
  cbn [p_key p_operation p_values].
  destruct (last_value (field_values "key" i params)) as [[|a k]|];
    destruct (last_value (field_values "operation" i params)) as [[|b op]|];
    destruct (field_values "values" i params); reflexivity.
Qed.

Lemma flat_map_if {A B : Type} (p : A -> bool) (f : A -> B) (l : list A) :
  flat_map (fun x => if p x then [f x] else []) l = map f (filter p l).
Proof.
  induction l as [|x l IH]; cbn; [reflexivity|].
  destruct (p x); cbn; now rewrite IH.
Qed.

(** What a normal return of [fromQueryString] holds. *)
Lemma fromQueryString_returns (this this' : QueryBuilder) (s : string)
  (q : DynamicQuery) :
  fromQueryString this s = Normal (q, this') ->
  let params := URLSearchParams_new s in
  criteria q
  = map (criterion_of params) (filter (complete params) (criteria_indices params))
  /\ page q = number_param params "page"
  /\ pageSize q = number_param params "pageSize"
  /\ this' = mkQueryBuilder q.
Proof.
  intros H params. unfold fromQueryString in H. fold params in H.
  destruct (foldM fromQueryString_body params (mkLocals [] [] [] [] []))
    as [st|e] eqn:Hloop; cbn [bind] in H; [|discriminate].
  apply loop_fragments in Hloop; [|reflexivity].
  injection H as <- <-. cbn [criteria page pageSize]. repeat split.
  rewrite Hloop, map_map. cbn [snd].
  rewrite fold_push_if_complete. cbn [app].
  rewrite flat_map_concat_map, map_map, <- flat_map_concat_map.
  rewrite (flat_map_ext _ _ (push_fragment params)).
  apply flat_map_if.
Qed.

Lemma fromQueryString_throws (this : QueryBuilder) (s : string) :
  (exists e, fromQueryString this s = Throw e)
  <-> existsb bad_values_param (URLSearchParams_new s) = true.
Proof.
  rewrite <- (loop_throws _ (mkLocals [] [] [] [] [])).
  unfold fromQueryString.
  destruct (foldM fromQueryString_body _ _) as [st|e]; cbn [bind].
  - split; intros (e & [=]).
  - split; intros _; now exists e.
Qed.

(** The decoder returns whenever no [values{i}] payload is rejected. *)
Lemma fromQueryString_total (this : QueryBuilder) (s : string) :
  existsb bad_values_param (URLSearchParams_new s) = false ->
  exists q, fromQueryString this s = Normal (q, mkQueryBuilder q).
Proof.
  intros Hbad.
  destruct (fromQueryString this s) as [[q this']|e] eqn:H.
  - destruct (fromQueryString_returns _ _ _ _ H) as (_ & _ & _ & ->).
    now exists q.
  - assert (existsb bad_values_param (URLSearchParams_new s) = true)
      by (apply (fromQueryString_throws this s); now exists e).
    congruence.
Qed.

(** C5 (amended): on every input none of whose [values{i}] payloads is
    rejected by [decodeURIComponent], [fromQueryString] returns, and the
    criteria of the returned query follow the order in which their
    indices are first met in the input string, not the numeric order of
    the indices: they are the criteria of the complete indices, taken in
    the sequence of first occurrences of the indices that the [key{i}],
    [operation{i}] and [values{i}] parameters name. *)
Theorem C5_criteria_in_order_of_first_encounter :
  forall (this : QueryBuilder) (s : string),
    let params := URLSearchParams_new s in
    existsb bad_values_param params = false ->
    exists q,
      fromQueryString this s = Normal (q, mkQueryBuilder q)
      /\ criteria q
         = map (criterion_of params)
             (filter (complete params)
                (first_occurrences (filter_map fragment_index params))).
Proof.
  intros this s params Hbad.
  destruct (fromQueryString_total this s Hbad) as (q & H).
  exists q. split; [exact H|].
  exact (proj1 (fromQueryString_returns _ _ _ _ H)).
Qed.

(** The theorem on an input where index 10 is met before index 2: its
    criterion comes first. *)
Lemma C5_witness :
  let s := "key10=ten&operation10=EQUAL&values10=x&key2=two&operation2=EQUAL&values2=y" in
  existsb bad_values_param (URLSearchParams_new s) = false
  /\ first_occurrences (filter_map fragment_index (URLSearchParams_new s))
     = [Int 10; Int 2]
  /\ exists q,
       fromQueryString fresh s = Normal (q, mkQueryBuilder q)
       /\ criteria q
          = map (criterion_of (URLSearchParams_new s))
              (filter (complete (URLSearchParams_new s))
                 (first_occurrences
                    (filter_map fragment_index (URLSearchParams_new s)))).
Proof.
  intros s. split; [vm_compute; reflexivity|].
  split; [vm_compute; reflexivity|].
  apply (C5_criteria_in_order_of_first_encounter fresh s).
  vm_compute; reflexivity.
Defined.

(** *** The sequence of first occurrences *)

Lemma NoDup_snoc {A : Type} (l : list A) (x : A) :
  NoDup l -> ~ In x l -> NoDup (l ++ [x]).
Proof.
  intros Hl Hx. apply (NoDup_Add (a := x) (l := l)).
  - rewrite <- (app_nil_r l) at 1. apply Add_app.
  - now split.
Qed.

Lemma mem_number_In (i : number) (l : list number) :
  mem_number i l = true <-> In i l.
Proof.
  unfold mem_number. rewrite existsb_exists. split.
  - intros (x & Hx & E). apply number_eqb_eq in E. now subst.
  - intros H. exists i. split; [exact H|apply number_eqb_refl].
Qed.

(** [first_occurrences] has no repetition, has the elements of its
    argument, and only grows at its end when the argument does. *)
Lemma first_occurrences_spec (l : list number) :
  NoDup (first_occurrences l)
  /\ (forall i, In i (first_occurrences l) <-> In i l)
  /\ (forall l', exists rest,
        first_occurrences (l ++ l') = first_occurrences l ++ rest).
Proof.
  repeat split.
  - induction l as [|x l IH] using rev_ind; [constructor|].
    unfold first_occurrences in *. rewrite fold_left_app. cbn [fold_left].
    unfold add_new. destruct (mem_number x _) eqn:E; [exact IH|].
    apply NoDup_snoc; [exact IH|]. intros H. apply mem_number_In in H.
    congruence.
  - intros H. apply mem_number_In. apply mem_number_In in H.
    now rewrite mem_first_occurrences in H.
  - intros H. apply mem_number_In. apply mem_number_In in H.
    now rewrite mem_first_occurrences.
  - intros l'. unfold first_occurrences. rewrite fold_left_app.
    generalize (fold_left add_new l []). intros acc.
    induction l' as [|x l' IH] using rev_ind.
    + exists []. now rewrite app_nil_r.
    + destruct IH as (rest & IH). rewrite fold_left_app, IH. cbn [fold_left].
      unfold add_new. destruct (mem_number x _).
      * now exists rest.
      * exists (rest ++ [x]). now rewrite app_assoc.
Qed.

(** *** Materialised criteria *)

Lemma split_ampamp_nonempty (s : string) : split_ampamp s <> [].
Proof.
  induction s as [|c s IH]; [discriminate|].
  cbn [split_ampamp].
  assert (H : match split_ampamp s with
              | [] => [String c EmptyString]
              | p :: ps => String c p :: ps
              end <> []) by (destruct (split_ampamp s); discriminate).
  destruct c as [[|] [|] [|] [|] [|] [|] [|] [|]]; try exact H.
  destruct s as [|c' s']; [exact H|].
  destruct c' as [[|] [|] [|] [|] [|] [|] [|] [|]]; try exact H.
  discriminate.
Qed.

Lemma In_field_values (field : string) (i : number) (params : URLSearchParams)
  (v : string) :
  In v (field_values field i params) ->
  exists name d, In (name, v) params /\ match_indexed field name = Some d.
Proof.
  unfold field_values. rewrite in_map_iff.
  intros ([name v'] & <- & H). apply filter_In in H as [Hin Hf].
  unfold is_field in Hf. cbn [fst snd] in *.
  destruct (match_indexed field name) as [d|] eqn:E; [|discriminate].
  now exists name, d.
Qed.

Lemma complete_values_nonempty (params : URLSearchParams) (i : number) :
  existsb bad_values_param params = false ->
  complete params i = true ->
  values (criterion_of params i) <> [].
Proof.
  intros Hbad Hc. unfold criterion_of, fragment. cbn [p_values values].
  unfold complete in Hc. apply andb_true_iff in Hc as [_ Hc].
  destruct (field_values "values" i params) as [|v vs] eqn:E;
    [discriminate|].
  assert (Hv : In v (field_values "values" i params))
    by (rewrite E; now left).
  apply In_field_values in Hv as (name & d & Hin & Hm).
  assert (Hp : bad_values_param (name, v) = false).
  { destruct (bad_values_param (name, v)) eqn:Eb; [|reflexivity].
    assert (existsb bad_values_param params = true)
      by (apply existsb_exists; now exists (name, v)).
    congruence. }
  unfold bad_values_param in Hp. cbn [fst snd] in Hp. rewrite Hm in Hp.
  cbn [flat_map]. unfold decoded_pieces at 1.
  destruct (decodeURIComponent v) as [s|e]; [|discriminate].
  pose proof (split_ampamp_nonempty s).
  destruct (split_ampamp s); [congruence|discriminate].
Qed.

Lemma complete_key_operation (params : URLSearchParams) (i : number) :
  complete params i = true ->
  key (criterion_of params i) <> EmptyString /\ operation (criterion_of params i) <> EmptyString.
Proof.
  unfold complete, criterion_of, fragment. cbn [p_key p_operation key operation].
  intros H. apply andb_true_iff in H as [H _].
  apply andb_true_iff in H as [Hk Ho].
  destruct (last_value (field_values "key" i params)) as [[|a k]|];
    try discriminate Hk.
  destruct (last_value (field_values "operation" i params)) as [[|b op]|];
    try discriminate Ho.
  split; discriminate.
Qed.

(** C7 (amended): on every input none of whose [values{i}] payloads is
    rejected by [decodeURIComponent], [fromQueryString] returns, and the
    criteria of the result are exactly those of the indices that have a
    non-empty key, a non-empty operation and a [values] parameter, one per
    index, and each has a non-empty key, operation and values; partial
    fragments yield nothing and raise nothing. *)
Theorem C7_only_complete_indices_materialize :
  forall (this : QueryBuilder) (s : string),
    let params := URLSearchParams_new s in
    existsb bad_values_param params = false ->
    exists q,
      fromQueryString this s = Normal (q, mkQueryBuilder q)
      /\ NoDup (criteria_indices params)
      /\ List.length (criteria q)
         = List.length (filter (complete params) (criteria_indices params))
      /\ (forall c,
            In c (criteria q)
            <-> exists i, In i (criteria_indices params)
                          /\ complete params i = true
                          /\ c = criterion_of params i)
      /\ (forall c,
            In c (criteria q) ->
            key c <> EmptyString /\ operation c <> EmptyString
            /\ values c <> []).
Proof.
  intros this s params Hbad.
  destruct (fromQueryString_total this s Hbad) as (q & H).
  exists q. split; [exact H|].
  destruct (fromQueryString_returns _ _ _ _ H) as (Hc & _).
  fold params in Hc.
  assert (Hin : forall c,
             In c (criteria q)
             <-> exists i, In i (criteria_indices params)
                           /\ complete params i = true
                           /\ c = criterion_of params i).
  { intros c. rewrite Hc, in_map_iff. split.
    - intros (i & <- & Hi). apply filter_In in Hi as [Hi Hcomp].
      now exists i.
    - intros (i & Hi & Hcomp & ->). exists i. split; [reflexivity|].
      now apply filter_In. }
  split; [apply first_occurrences_spec|].
  split; [now rewrite Hc, length_map|]. split; [exact Hin|].
  intros c Hcq. apply Hin in Hcq as (i & _ & Hcomp & ->).
  destruct (complete_key_operation params i Hcomp) as [Hk Ho].
  repeat split; try assumption.
  now apply complete_values_nonempty.
Qed.

(** The theorem on [operation2=EQUAL] next to a complete index 0: the
    call returns, index 2 is met and is not complete, and the one
    criterion of the result is that of index 0.  On [operation2=EQUAL]
    alone the call returns the query without criteria. *)
Lemma C7_witness :
  let s := "key0=name&operation0=CONTAIN&values0=x&operation2=EQUAL" in
  let params := URLSearchParams_new s in
  existsb bad_values_param params = false
  /\ criteria_indices params = [Int 0; Int 2]
  /\ filter (complete params) (criteria_indices params) = [Int 0]
  /\ criterion_of params (Int 0) = mkCriteria "name" "CONTAIN" ["x"]
  /\ returned (fromQueryString fresh s)
     = Some (query_of [mkCriteria "name" "CONTAIN" ["x"]])
  /\ returned (fromQueryString fresh "operation2=EQUAL")
     = Some (query_of [])
  /\ exists q,
       fromQueryString fresh s = Normal (q, mkQueryBuilder q)
       /\ NoDup (criteria_indices params)
       /\ List.length (criteria q)
          = List.length (filter (complete params) (criteria_indices params))
       /\ (forall c,
             In c (criteria q)
             <-> exists i, In i (criteria_indices params)
                           /\ complete params i = true
                           /\ c = criterion_of params i)
       /\ (forall c,
             In c (criteria q) ->
             key c <> EmptyString /\ operation c <> EmptyString
             /\ values c <> []).
Proof.
  intros s params.
  do 6 (split; [vm_compute; reflexivity|]).
  apply (C7_only_complete_indices_materialize fresh s).
  vm_compute; reflexivity.
Defined.

(** ** Unparsable page numbers *)

Lemma get_has (params : URLSearchParams) (name v : string) :
  get params name = Some v -> has params name = true.
Proof.
  unfold get, has.
  destruct (find _ params) as [p|] eqn:E; [|discriminate]. intros _.
  apply find_some in E as [Hin Hp]. apply existsb_exists. now exists p.
Qed.

Lemma number_param_get (params : URLSearchParams) (name v : string) :
  get params name = Some v -> number_param params name = Some (parseInt v).
Proof.
  intros H. unfold number_param. now rewrite (get_has _ _ _ H), H.
Qed.

(** C8 (amended): on every input none of whose [values{i}] payloads is
    rejected by [decodeURIComponent], [fromQueryString] returns; when the
    [page] parameter is present and does not parse as an integer, the
    page of the returned query is the number [NaN], not undefined; the
    same for [pageSize].  The value read is that of the first parameter
    of that name. *)
Theorem C8_unparsable_page_is_NaN :
  forall (this : QueryBuilder) (s : string),
    let params := URLSearchParams_new s in
    existsb bad_values_param params = false ->
    exists q,
      fromQueryString this s = Normal (q, mkQueryBuilder q)
      /\ (forall v, get params "page" = Some v ->
                    parseInt v = NaN -> page q = Some NaN)
      /\ (forall v, get params "pageSize" = Some v ->
                    parseInt v = NaN -> pageSize q = Some NaN).
Proof.
  intros this s params Hbad. subst params.
  destruct (fromQueryString_total this s Hbad) as (q & H).
  exists q. split; [exact H|].
  destruct (fromQueryString_returns _ _ _ _ H) as (_ & Hp & Hs & _).
  split; intros v Hget Hnan.
  - now rewrite Hp, (number_param_get _ _ _ Hget), Hnan.
  - now rewrite Hs, (number_param_get _ _ _ Hget), Hnan.
Qed.

(** The theorem on [page=abc]. *)
Lemma C8_witness :
  existsb bad_values_param (URLSearchParams_new "page=abc") = false
  /\ get (URLSearchParams_new "page=abc") "page" = Some "abc"
  /\ parseInt "abc" = NaN
  /\ exists q,
       fromQueryString fresh "page=abc" = Normal (q, mkQueryBuilder q)
       /\ page q = Some NaN.
Proof.
  split; [reflexivity|]. split; [reflexivity|]. split; [reflexivity|].
  destruct (C8_unparsable_page_is_NaN fresh "page=abc" eq_refl)
    as (q & H & Hp & _).
  exists q. split; [exact H|]. exact (Hp "abc" eq_refl eq_refl).
Defined.

(** ** Well-formed strings *)

(** On well-formed strings the two conversions of the platform that the
    representation leaves out change nothing. *)

Lemma utf8_lead_ok (a : ascii) (p : nat * N * N) :
  utf8_lead a = Some p ->
  state_ok (Some p)
  /\ ((code a =? 237)%N = true -> p = (2%nat, 128, 159)%N).
Proof.
  unfold utf8_lead, state_ok. rewrite N.eqb_eq.
  repeat match goal with
         | |- context [(?x <? ?y)%N] => destruct (N.ltb_spec x y)
         | |- context [(?x =? ?y)%N] => destruct (N.eqb_spec x y)
         end;
    intros Hp; inversion Hp; subst; (split; [lia|]); intros;
    try reflexivity; lia.
Qed.

Lemma toUSVString_cons (a : ascii) (t : string) :
  (code a =? 237)%N = false ->
  toUSVString (String a t) = String a (toUSVString t).
Proof.
  intros H. destruct t as [|b [|c t]]; cbn [toUSVString]; try reflexivity.
  now rewrite H.
Qed.

Lemma toUSVString_cons2 (a b : ascii) (t : string) :
  between 160 191 b = false ->
  toUSVString (String a (String b t))
  = String a (toUSVString (String b t)).
Proof.
  intros H. destruct t as [|c t]; cbn [toUSVString]; try reflexivity.
  now rewrite H, andb_false_r.
Qed.

Lemma toUSVString_scanned (s : string) :
  forall p, state_ok p -> utf8_scan p s = true -> toUSVString s = s.
Proof.
  induction s as [|a t IH]; intros p Hp H; [reflexivity|].
  cbn [utf8_scan] in H. destruct p as [[[k lo] hi]|].
  - destruct (between lo hi a) eqn:Hb; [|discriminate].
    cbn [state_ok] in Hp. unfold between in Hb.
    apply andb_true_iff in Hb as [_ Hb]. apply N.leb_le in Hb.
    rewrite toUSVString_cons by (apply N.eqb_neq; lia).
    f_equal. eapply IH; [|exact H].
    destruct k as [|[|k']]; cbn; lia || exact I.
  - destruct (code a <? 128)%N eqn:Ha.
    + apply N.ltb_lt in Ha.
      rewrite toUSVString_cons by (apply N.eqb_neq; lia).
      f_equal. now apply (IH None).
    + destruct (utf8_lead a) as [q|] eqn:El; [|discriminate].
      destruct (utf8_lead_ok _ _ El) as [Hq Hs].
      destruct (code a =? 237)%N eqn:E237.
      * specialize (Hs eq_refl). subst q.
        destruct t as [|b t']; [discriminate|].
        assert (Hb : between 160 191 b = false).
        { cbn [utf8_scan] in H.
          destruct (between 128 159 b) eqn:Hb; [|discriminate].
          unfold between in *. apply andb_true_iff in Hb as [_ Hb].
          apply N.leb_le in Hb. apply andb_false_iff. left.
          apply N.leb_gt. lia. }
        rewrite toUSVString_cons2 by exact Hb.
        f_equal. now apply (IH (Some (2%nat, 128, 159)%N)).
      * rewrite toUSVString_cons by exact E237.
        f_equal. now apply (IH (Some q)).
Qed.

Lemma string_app_assoc (a b c : string) :
  ((a ++ b) ++ c = a ++ (b ++ c))%string.
Proof. induction a as [|x a IH]; cbn; [reflexivity|now rewrite IH]. Qed.

Lemma utf8_decode_scanned (s : string) :
  forall p acc, utf8_scan p s = true ->
    utf8_decode p acc s
    = match p with
      | None => s
      | Some _ => (acc ++ s)%string
      end.
Proof.
  induction s as [|b t IH]; intros p acc H.
  - destruct p; [discriminate|reflexivity].
  - cbn [utf8_scan] in H. cbn [utf8_decode]. destruct p as [[[k lo] hi]|].
    + destruct (between lo hi b); [|discriminate].
      destruct k as [|[|k']].
      * now rewrite (IH None _ H).
      * now rewrite (IH None _ H).
      * rewrite (IH _ _ H). now rewrite string_app_assoc.
    + destruct (code b <? 128)%N.
      * now rewrite (IH None _ H).
      * destruct (utf8_lead b) as [q|]; [|discriminate].
        now rewrite (IH (Some q) _ H).
Qed.

(** A string without lone surrogates is its own USVString, and the
    decoder gives back a well-formed byte sequence as it is: this is why
    [append] and [urlencoded_parse] agree with the platform on the
    strings of a [unicode_query]. *)
Lemma well_formed_conversions (s : string) :
  well_formed_utf8 s = true ->
  toUSVString s = s /\ utf8_decode None EmptyString s = s.
Proof.
  intros H. split.
  - now apply (toUSVString_scanned s None).
  - now rewrite (utf8_decode_scanned s None EmptyString H).
Qed.

(** A lone surrogate is replaced by both, so it is not in the range of
    the representation. *)
Lemma lone_surrogate_replaced :
  let s := String (ascii_of_N 237) (String (ascii_of_N 160)
             (String (ascii_of_N 128) EmptyString)) in
  well_formed_utf8 s = false /\ toUSVString s = replacement.
Proof. split; reflexivity. Qed.

(** Every name and value that [toQueryString] appends for a
    [unicode_query] is well-formed: the names and the numerals are
    ASCII. *)

Lemma ascii_prefix_scan (a b : string) :
  all_chars (fun c => (code c <? 128)%N) a = true ->
  utf8_scan None (a ++ b) = utf8_scan None b.
Proof.
  induction a as [|c a IH]; cbn [all_chars String.append utf8_scan];
    [reflexivity|].
  intros H. apply andb_true_iff in H as [-> H]. now apply IH.
Qed.

Lemma digits_well_formed (d : string) :
  all_chars is_digit d = true -> well_formed_utf8 d = true.
Proof.
  unfold well_formed_utf8. induction d as [|c d IH]; [reflexivity|].
  cbn [all_chars utf8_scan]. intros H. apply andb_true_iff in H as [Hc H].
  unfold is_digit, between in Hc. apply andb_true_iff in Hc as [_ Hc].
  apply N.leb_le in Hc.
  replace (code c <? 128)%N with true by (symmetry; apply N.ltb_lt; lia).
  now apply IH.
Qed.

Lemma indexed_name_well_formed (name : string) (i : N) :
  all_chars (fun c => (code c <? 128)%N) name = true ->
  well_formed_utf8 (name ++ decimal i) = true.
Proof.
  intros H. unfold well_formed_utf8. rewrite ascii_prefix_scan by exact H.
  apply digits_well_formed, decimal_digits.
Qed.

Lemma number_toString_well_formed (n : number) :
  well_formed_utf8 (number_toString n) = true.
Proof.
  destruct n as [|[|]|z]; try reflexivity. unfold number_toString.
  destruct (z <? 0)%Z.
  - apply (indexed_name_well_formed "-"). reflexivity.
  - apply digits_well_formed, decimal_digits.
Qed.

Lemma array_pairs_well_formed (name : string) (a : option (array string))
  (p : string * string) :
  all_chars (fun c => (code c <? 128)%N) name = true ->
  unicode_array a = true ->
  In p (array_pairs name a) ->
  well_formed_utf8 (fst p) = true /\ well_formed_utf8 (snd p) = true.
Proof.
  intros Hn Ha. destruct a as [l|]; cbn [array_pairs]; [|cbn; tauto].
  cbn [unicode_array] in Ha. rewrite forallb_forall in Ha.
  rewrite in_flat_map. intros ([j [x|]] & Hin & H); cbn in H; [|tauto].
  destruct H as [<-|[]]. cbn [fst snd]. split.
  - now apply indexed_name_well_formed.
  - apply In_enumerate_from in Hin as (n & _ & Hx).
    apply nth_error_In in Hx. exact (Ha _ Hx).
Qed.

Lemma emitted_pairs_well_formed (q : DynamicQuery) (p : string * string) :
  unicode_query q = true ->
  In p (expected_pairs q) ->
  well_formed_utf8 (fst p) = true /\ well_formed_utf8 (snd p) = true.
Proof.
  intros H. unfold unicode_query in H.
  repeat (apply andb_true_iff in H as [H ?]).
  unfold expected_pairs. rewrite !in_app_iff.
  intros [Hp|[Hp|[Hp|[Hp|[Hp|[Hp|Hp]]]]]];
    try (eapply array_pairs_well_formed; [| |exact Hp];
         [reflexivity|assumption]).
  - apply In_criteria_pairs in Hp as (n & c & Hn & Hp).
    apply nth_error_In in Hn. rewrite forallb_forall in H.
    specialize (H c Hn). unfold unicode_criterion in H.
    apply andb_true_iff in H as [H Hv]. apply andb_true_iff in H as [Hk Ho].
    rewrite forallb_forall in Hv.
    apply In_criterion_pairs in Hp as [->|[->|(v & Hin & ->)]];
      cbn [fst snd]; (split; [now apply indexed_name_well_formed|]);
      auto.
  - destruct (page q) as [n|]; [|destruct Hp].
    destruct Hp as [<-|[]]. split; [reflexivity|].
    apply number_toString_well_formed.
  - destruct (pageSize q) as [n|]; [|destruct Hp].
    destruct Hp as [<-|[]]. split; [reflexivity|].
    apply number_toString_well_formed.
Qed.

(** Hence, for a [unicode_query], the conversion of [append] changes
    none of the parameters [toQueryString] appends, and the decoder of
    the parser changes none of them when it reads them back. *)
Lemma emitted_pairs_unchanged (q : DynamicQuery) :
  unicode_query q = true ->
  map (fun p => (toUSVString (fst p), toUSVString (snd p)))
    (expected_pairs q) = expected_pairs q
  /\ map (fun p => (utf8_decode None EmptyString (fst p),
                    utf8_decode None EmptyString (snd p)))
       (expected_pairs q) = expected_pairs q.
Proof.
  intros H.
  assert (Hw : forall p, In p (expected_pairs q) ->
                 well_formed_utf8 (fst p) = true
                 /\ well_formed_utf8 (snd p) = true)
    by (intros p; now apply emitted_pairs_well_formed).
  clear H. induction (expected_pairs q) as [|[n v] l IH]; [now split|].
  destruct (Hw (n, v) (or_introl eq_refl)) as [Hn Hv]. cbn [fst snd] in *.
  destruct (well_formed_conversions n Hn) as [En En'].
  destruct (well_formed_conversions v Hv) as [Ev Ev'].
  destruct IH as [IH1 IH2]; [intros p Hp; apply Hw; now right|].
  cbn [map fst snd]. now rewrite En, En', Ev, Ev', IH1, IH2.
Qed.

(** ** Decoding what the encoder wrote *)

(** *** Which pattern matches which name *)

Lemma strip_prefix_app2 (p r s : string) :
  strip_prefix (p ++ r) (p ++ s) = strip_prefix r s.
Proof.
  induction p as [|c p IH]; cbn; [reflexivity|].
  now rewrite Ascii.eqb_refl.
Qed.

Lemma match_indexed_family (P Q : string) (j : N) :
  In P indexed_families -> In Q indexed_families ->
  match_indexed P (Q ++ decimal j)
  = if String.eqb P Q then Some (decimal j) else None.
Proof.
  intros HP HQ.
  pose proof (decimal_digits j) as Hd.
  pose proof (decimal_nonempty j) as Hne.
  cbn in HP, HQ.
  destruct HP as [<-|[<-|[<-|[<-|[<-|[<-|[<-|[]]]]]]]];
    destruct HQ as [<-|[<-|[<-|[<-|[<-|[<-|[<-|[]]]]]]]];
    cbn [String.eqb Ascii.eqb Bool.eqb];
    try apply match_indexed_same;
    try reflexivity;
    unfold match_indexed;
    first [ progress change "selectAs" with ("select" ++ "As")%string
          | progress change "orderByDirection"
              with ("orderBy" ++ "Direction")%string ];
    now rewrite strip_prefix_app2, strip_prefix_digits.
Qed.

Lemma match_indexed_plain (P name : string) :
  In P indexed_families -> In name ["page"; "pageSize"] ->
  match_indexed P name = None.
Proof.
  intros HP Hn. cbn in HP, Hn.
  destruct HP as [<-|[<-|[<-|[<-|[<-|[<-|[<-|[]]]]]]]];
    destruct Hn as [<-|[<-|[]]]; reflexivity.
Qed.

Lemma family_not_plain (Q name : string) (j : N) :
  In Q indexed_families -> In name ["page"; "pageSize"] ->
  String.eqb (Q ++ decimal j) name = false.
Proof.
  intros HQ Hn. cbn in HQ, Hn.
  destruct HQ as [<-|[<-|[<-|[<-|[<-|[<-|[<-|[]]]]]]]];
    destruct Hn as [<-|[<-|[]]]; reflexivity.
Qed.

(** *** Segments a pattern does not match *)

Lemma array_step_skip (P : string) (a : array string) (p : string * string) :
  match_indexed P (fst p) = None -> array_step P a p = a.
Proof. unfold array_step. destruct p as [n v]. cbn [fst]. now intros ->. Qed.

Lemma fold_array_step_skip (P : string) (l : list (string * string))
  (a : array string) :
  (forall p, In p l -> match_indexed P (fst p) = None) ->
  fold_left (array_step P) l a = a.
Proof.
  revert a. induction l as [|p l IH]; intros a H; cbn [fold_left];
    [reflexivity|].
  rewrite array_step_skip by (apply H; now left).
  apply IH. intros p' Hp. apply H. now right.
Qed.

Lemma foldM_criteria_step_skip (l : list (string * string))
  (m : Map PartialCriteria) :
  (forall p, In p l -> fragment_index p = None) ->
  foldM criteria_step l m = Normal m.
Proof.
  induction l as [|[n v] l IH]; intros H; cbn; [reflexivity|].
  assert (Hp : fragment_index (n, v) = None) by (apply H; now left).
  unfold fragment_index in Hp. cbn [fst] in Hp.
  destruct (match_indexed "key" n); [discriminate|].
  destruct (match_indexed "operation" n); [discriminate|].
  destruct (match_indexed "values" n); [discriminate|].
  cbn. apply IH. intros p Hin. apply H. now right.
Qed.

Lemma loop_split (ps : URLSearchParams) :
  forall st,
    foldM fromQueryString_body ps st
    = (m <- foldM criteria_step ps (criteriaMap st) ;;
       Normal (mkLocals m
                 (fold_left (array_step "select") ps (l_select st))
                 (fold_left (array_step "selectAs") ps (l_selectAs st))
                 (fold_left (array_step "orderBy") ps (l_orderBy st))
                 (fold_left (array_step "orderByDirection") ps
                    (l_orderByDirection st)))).
Proof.
  induction ps as [|p ps IH]; intros st.
  - now destruct st.
  - cbn [foldM fold_left]. unfold fromQueryString_body at 1.
    destruct (criteria_step (criteriaMap st) p) as [m|e]; cbn [bind];
      [|reflexivity].
    now rewrite IH.
Qed.

(** *** Arrays *)

Lemma set_at_end {A : Type} (a : array A) (v : A) :
  set_at (List.length a) v a = a ++ [Some v].
Proof. induction a as [|x a IH]; cbn; [reflexivity|now rewrite IH]. Qed.

Lemma array_set_end (a : array string) (v : string) :
  (N.of_nat (List.length a) < 2 ^ 32 - 1)%N ->
  array_set a (Int (Z.of_N (N.of_nat (List.length a)))) v = a ++ [Some v].
Proof.
  intros H. unfold array_set.
  assert (Hz : (0 <= Z.of_N (N.of_nat (List.length a)) < 2 ^ 32 - 1)%Z).
  { split; [apply N2Z.is_nonneg|].
    change (2 ^ 32 - 1)%Z with (Z.of_N (2 ^ 32 - 1)). now apply N2Z.inj_lt. }
  destruct Hz as [H0 H1]. apply Z.leb_le in H0. apply Z.ltb_lt in H1.
  rewrite H0, H1. cbn [andb].
  rewrite nat_N_Z, Nat2Z.id. apply set_at_end.
Qed.

Lemma fold_array_step_own (P : string) (l done : array string) :
  In P indexed_families ->
  forallb is_some l = true ->
  (N.of_nat (List.length done + List.length l) < 2 ^ 32)%N ->
  fold_left (array_step P)
    (flat_map (fun ix => match snd ix with
                         | Some x => [((P ++ decimal (fst ix))%string, x)]
                         | None => []
                         end)
       (enumerate_from (N.of_nat (List.length done)) l))
    done
  = done ++ l.
Proof.
  intros HP. revert done.
  induction l as [|[x|] l IH]; intros done Hd Hlen; cbn in Hd;
    [now rewrite app_nil_r| |discriminate].
  cbn [enumerate_from flat_map snd fst app fold_left].
  assert (Hstep : forall a n,
             array_step P a ((P ++ decimal n)%string, x)
             = array_set a (parseInt (decimal n)) x).
  { intros a n. unfold array_step.
    rewrite (match_indexed_family P P) by assumption.
    now rewrite String.eqb_refl. }
  rewrite Hstep.
  cbn [List.length] in Hlen.
  rewrite parseInt_decimal
    by (apply N.lt_trans with (2 ^ 32)%N; [lia|reflexivity]).
  rewrite array_set_end by lia.
  replace (N.succ (N.of_nat (List.length done)))
    with (N.of_nat (List.length (done ++ [Some x])))
    by (rewrite length_app; cbn; lia).
  rewrite IH; [now rewrite <- app_assoc|exact Hd|].
  rewrite length_app. cbn. lia.
Qed.

(** *** The criteria map *)

Lemma Map_mutate_absent {V : Type} (m : Map V) (k : number) (f : V -> V) :
  Map_has m k = false -> Map_mutate m k f = m.
Proof.
  unfold Map_has, Map_mutate. induction m as [|[i o] m IH]; cbn;
    [reflexivity|].
  intros H. apply orb_false_iff in H as [Hi H]. now rewrite Hi, IH.
Qed.

Lemma mutate_new_entry (m : Map PartialCriteria) (k : number)
  (init : PartialCriteria) (f : PartialCriteria -> PartialCriteria) :
  Map_has m k = false ->
  Map_mutate (ensure_entry m k init) k f = m ++ [(k, f init)].
Proof.
  intros H. unfold ensure_entry, Map_set. rewrite H. cbn [negb].
  unfold Map_mutate. rewrite map_app. cbn. rewrite number_eqb_refl.
  f_equal. now apply (Map_mutate_absent m k f).
Qed.

Lemma mutate_last_entry (m : Map PartialCriteria) (k : number)
  (o init : PartialCriteria) (f : PartialCriteria -> PartialCriteria) :
  Map_has m k = false ->
  Map_mutate (ensure_entry (m ++ [(k, o)]) k init) k f = m ++ [(k, f o)].
Proof.
  intros H. unfold ensure_entry.
  assert (Hhas : Map_has (m ++ [(k, o)]) k = true).
  { unfold Map_has. rewrite existsb_app. cbn.
    now rewrite number_eqb_refl, orb_true_r. }
  rewrite Hhas. cbn [negb].
  unfold Map_mutate. rewrite map_app. cbn. rewrite number_eqb_refl.
  f_equal. now apply (Map_mutate_absent m k f).
Qed.

Lemma uri_decode_plain (v : string) :
  mem_char "%" v = false -> decodeURIComponent v = Normal v.
Proof.
  unfold decodeURIComponent. induction v as [|c v IH]; cbn; [reflexivity|].
  intros H. apply orb_false_iff in H as [Hc H]. rewrite Hc. cbn.
  now rewrite (IH H).
Qed.

Lemma split_ampamp_plain (v : string) :
  contains_ampamp v = false -> split_ampamp v = [v].
Proof.
  induction v as [|c v IH]; [reflexivity|].
  cbn [contains_ampamp split_ampamp].
  destruct c as [[|] [|] [|] [|] [|] [|] [|] [|]];
    try (intros H; now rewrite (IH H)).
  destruct v as [|c' v']; [reflexivity|].
  destruct c' as [[|] [|] [|] [|] [|] [|] [|] [|]];
    try (intros H; now rewrite (IH H)).
  discriminate.
Qed.

Lemma criteria_step_key (m : Map PartialCriteria) (i : N) (k : string) :
  (i < 2 ^ 53)%N ->
  criteria_step m (("key" ++ decimal i)%string, k)
  = Normal (Map_mutate (ensure_entry m (Int (Z.of_N i)) empty_partial)
              (Int (Z.of_N i)) (set_key k)).
Proof.
  intros Hi. unfold criteria_step.
  rewrite (match_indexed_family "key" "key") by (cbn; tauto).
  cbn [String.eqb Ascii.eqb Bool.eqb]. now rewrite parseInt_decimal.
Qed.

Lemma criteria_step_operation (m : Map PartialCriteria) (i : N)
  (op : string) :
  (i < 2 ^ 53)%N ->
  criteria_step m (("operation" ++ decimal i)%string, op)
  = Normal (Map_mutate (ensure_entry m (Int (Z.of_N i)) empty_partial)
              (Int (Z.of_N i)) (set_operation op)).
Proof.
  intros Hi. unfold criteria_step.
  rewrite (match_indexed_family "key" "operation") by (cbn; tauto).
  rewrite (match_indexed_family "operation" "operation") by (cbn; tauto).
  cbn [String.eqb Ascii.eqb Bool.eqb]. now rewrite parseInt_decimal.
Qed.

Lemma criteria_step_values (m : Map PartialCriteria) (i : N) (v : string) :
  (i < 2 ^ 53)%N -> plain_value v = true ->
  criteria_step m (("values" ++ decimal i)%string, v)
  = Normal
      (Map_mutate
         (ensure_entry m (Int (Z.of_N i)) (set_values [] empty_partial))
         (Int (Z.of_N i))
         (fun o => push_values [v]
                     (match p_values o with
                      | None => set_values [] o
                      | Some _ => o
                      end))).
Proof.
  intros Hi Hv. unfold criteria_step.
  rewrite (match_indexed_family "key" "values") by (cbn; tauto).
  rewrite (match_indexed_family "operation" "values") by (cbn; tauto).
  rewrite (match_indexed_family "values" "values") by (cbn; tauto).
  cbn [String.eqb Ascii.eqb Bool.eqb]. rewrite parseInt_decimal by assumption.
  unfold plain_value in Hv. apply andb_true_iff in Hv as [Hp Ha].
  apply negb_true_iff in Hp, Ha.
  rewrite (uri_decode_plain v Hp). cbn [bind].
  now rewrite (split_ampamp_plain v Ha), Map_mutate_twice.
Qed.

(** The [values{i}] parameters of one criterion, once its entry holds a
    values array. *)
Lemma values_loop (m : Map PartialCriteria) (i : N) (k op : option string) :
  (i < 2 ^ 53)%N -> Map_has m (Int (Z.of_N i)) = false ->
  forall vs acc,
    forallb plain_value vs = true ->
    foldM criteria_step
      (map (fun v => (("values" ++ decimal i)%string, v)) vs)
      (m ++ [(Int (Z.of_N i), mkPartial k op (Some acc))])
    = Normal (m ++ [(Int (Z.of_N i), mkPartial k op (Some (acc ++ vs)))]).
Proof.
  intros Hi Hm. induction vs as [|v vs IH]; intros acc Hvs; cbn [map foldM].
  - now rewrite app_nil_r.
  - cbn in Hvs. apply andb_true_iff in Hvs as [Hv Hvs].
    rewrite criteria_step_values by assumption. cbn [bind].
    rewrite mutate_last_entry by assumption.
    unfold push_values, set_values. cbn [p_values p_key p_operation].
    rewrite IH by assumption. now rewrite <- app_assoc.
Qed.

(** The block of one criterion adds its entry at the end of the map. *)
Lemma criterion_block (m : Map PartialCriteria) (i : N) (c : Criteria) :
  (i < 2 ^ 53)%N -> Map_has m (Int (Z.of_N i)) = false ->
  well_formed_criterion c = true ->
  foldM criteria_step (criterion_pairs (i, c)) m
  = Normal (m ++ [entry_of (i, c)]).
Proof.
  intros Hi Hm Hc. unfold well_formed_criterion in Hc.
  apply andb_true_iff in Hc as [Hc Hplain].
  apply andb_true_iff in Hc as [_ Hvals].
  unfold criterion_pairs. cbn [foldM].
  rewrite criteria_step_key by assumption. cbn [bind].
  rewrite mutate_new_entry by assumption.
  rewrite criteria_step_operation by assumption. cbn [bind].
  rewrite mutate_last_entry by assumption.
  unfold set_operation, set_key, empty_partial.
  cbn [p_key p_operation p_values].
  unfold has_values in Hvals.
  destruct (values c) as [|v vs] eqn:Ev; [discriminate|].
  cbn [map foldM]. cbn in Hplain. apply andb_true_iff in Hplain as [Hv Hvs].
  rewrite criteria_step_values by assumption. cbn [bind].
  rewrite mutate_last_entry by assumption.
  unfold push_values, set_values. cbn [p_values p_key p_operation app].
  rewrite values_loop by assumption.
  unfold entry_of. cbn [fst snd app]. now rewrite Ev.
Qed.

Lemma Map_has_snoc {V : Type} (m : Map V) (k k' : number) (o : V) :
  Map_has (m ++ [(k', o)]) k = Map_has m k || number_eqb k' k.
Proof.
  unfold Map_has. rewrite existsb_app. cbn. now rewrite orb_false_r.
Qed.

Lemma criteria_blocks (cs : list Criteria) :
  forall (s : N) (m : Map PartialCriteria),
    (s + N.of_nat (List.length cs) <= 2 ^ 53)%N ->
    (forall j, (s <= j)%N -> Map_has m (Int (Z.of_N j)) = false) ->
    forallb well_formed_criterion cs = true ->
    foldM criteria_step (flat_map criterion_pairs (enumerate_from s cs)) m
    = Normal (m ++ map entry_of (enumerate_from s cs)).
Proof.
  induction cs as [|c cs IH]; intros s m Hlen Hm Hcs;
    cbn [enumerate_from flat_map map].
  - now rewrite app_nil_r.
  - cbn in Hcs. apply andb_true_iff in Hcs as [Hc Hcs].
    cbn [List.length] in Hlen.
    rewrite foldM_app, criterion_block; try assumption;
      [|lia|apply Hm; lia].
    cbn [bind]. rewrite IH; try assumption; [|lia|].
    + now rewrite <- app_assoc.
    + intros j Hj. unfold entry_of. rewrite Map_has_snoc, Hm by lia.
      cbn [fst orb number_eqb]. apply Z.eqb_neq. lia.
Qed.

(** *** Segments of the emitted parameters *)

Lemma skips_app (P : string) (l1 l2 : list (string * string)) :
  skips P l1 -> skips P l2 -> skips P (l1 ++ l2).
Proof.
  intros H1 H2 p Hp. apply in_app_or in Hp as [Hp|Hp]; auto.
Qed.

Lemma skips_nil (P : string) : skips P [].
Proof. intros p []. Qed.

Lemma skips_criteria (P : string) (cs : list Criteria) :
  In P ["select"; "selectAs"; "orderBy"; "orderByDirection"] ->
  skips P (criteria_pairs cs).
Proof.
  intros HP p Hp. apply In_criteria_pairs in Hp as (n & c & _ & Hp).
  assert (HPf : In P indexed_families) by (cbn in *; tauto).
  apply In_criterion_pairs in Hp as [->|[->|(v & _ & ->)]]; cbn [fst];
    rewrite match_indexed_family by (assumption || cbn; tauto);
    cbn in HP; destruct HP as [<-|[<-|[<-|[<-|[]]]]]; reflexivity.
Qed.

Lemma skips_array (P Q : string) (a : option (array string)) :
  In P indexed_families -> In Q indexed_families ->
  String.eqb P Q = false ->
  skips P (array_pairs Q a).
Proof.
  intros HP HQ E p Hp. apply In_array_pairs in Hp as (j & ->).
  now rewrite match_indexed_family, E.
Qed.

Lemma skips_number (P name : string) (x : option number) :
  In P indexed_families -> In name ["page"; "pageSize"] ->
  skips P (number_pairs name x).
Proof.
  intros HP Hn p Hp. apply In_number_pairs in Hp as ->.
  now apply match_indexed_plain.
Qed.

(** The array a pattern rebuilds from its own segment. *)
Lemma array_segment (P : string) (a : option (array string))
  (pre post : list (string * string)) :
  In P indexed_families -> dense a = true ->
  skips P pre -> skips P post ->
  nonempty_or_undefined
    (fold_left (array_step P) (pre ++ array_pairs P a ++ post) [])
  = drop_empty a.
Proof.
  intros HP Hd Hpre Hpost.
  rewrite !fold_left_app, (fold_array_step_skip P pre) by assumption.
  rewrite (fold_array_step_skip P post) by assumption.
  destruct a as [l|]; [|reflexivity].
  unfold array_pairs, enumerate. cbn in Hd.
  apply andb_true_iff in Hd as [Hsome Hlen]. apply N.ltb_lt in Hlen.
  pose proof (fold_array_step_own P l [] HP Hsome Hlen) as E.
  cbn [app] in E. change (N.of_nat (List.length (@nil (option string))))
    with 0%N in E.
  rewrite E. now destruct l.
Qed.

Lemma skips_fragment_index (l : list (string * string)) :
  skips "key" l -> skips "operation" l -> skips "values" l ->
  forall p, In p l -> fragment_index p = None.
Proof.
  intros Hk Ho Hv p Hp. unfold fragment_index.
  now rewrite (Hk p Hp), (Ho p Hp), (Hv p Hp).
Qed.

(** *** Page numbers *)

Lemma parseInt_toString (n : number) :
  isSafeInteger n = true -> parseInt (number_toString n) = n.
Proof.
  destruct n as [| |z]; cbn [isSafeInteger]; try discriminate.
  intros H. apply Z.ltb_lt in H. cbn [number_toString].
  assert (Habs : (Z.abs_N z < 2 ^ 53)%N).
  { apply N2Z.inj_lt. rewrite N2Z.inj_abs_N. exact H. }
  destruct (z <? 0)%Z eqn:Hz.
  - apply Z.ltb_lt in Hz. unfold parseInt.
    change (trimStart (String "-" (decimal (Z.abs_N z))))
      with (match decimal (Z.abs_N z) with
            | String b t2 =>
                match t2 with
                | String c t3 => String "-" (decimal (Z.abs_N z))
                | EmptyString => String "-" (decimal (Z.abs_N z))
                end
            | EmptyString => String "-" (decimal (Z.abs_N z))
            end).
    assert (Ht : forall s : string,
               match s with
               | String b t2 =>
                   match t2 with
                   | String c t3 => String "-" s
                   | EmptyString => String "-" s
                   end
               | EmptyString => String "-" s
               end = String "-" s)
      by (intros [|b [|c t]]; reflexivity).
    rewrite Ht.
    rewrite (take_digits_all _ (decimal_digits _)).
    pose proof (decimal_nonempty (Z.abs_N z)) as Hne.
    destruct (decimal (Z.abs_N z)) eqn:E; [discriminate Hne|].
    rewrite <- E, digits_value_decimal, double_of_N_small by assumption.
    cbn [negate]. f_equal. rewrite N2Z.inj_abs_N. lia.
  - apply Z.ltb_ge in Hz. rewrite parseInt_decimal by assumption.
    f_equal. rewrite N2Z.inj_abs_N. lia.
Qed.

Lemma number_param_skip (l1 l2 : URLSearchParams) (name : string) :
  (forall p, In p l1 -> String.eqb (fst p) name = false) ->
  number_param (l1 ++ l2) name = number_param l2 name.
Proof.
  intros H. unfold number_param, has, get.
  induction l1 as [|p l1 IH]; [reflexivity|].
  cbn [app existsb find]. rewrite (H p) by now left.
  cbn [orb]. apply IH. intros p' Hp'. apply H. now right.
Qed.

Lemma number_params (x y : option number) :
  safe_or_undefined x = true -> safe_or_undefined y = true ->
  number_param (number_pairs "page" x ++ number_pairs "pageSize" y) "page" = x
  /\ number_param (number_pairs "page" x ++ number_pairs "pageSize" y)
       "pageSize" = y.
Proof.
  intros Hx Hy.
  destruct x as [n|], y as [n'|]; cbn in Hx, Hy; unfold number_param;
    cbn; rewrite ?parseInt_toString by assumption; split; reflexivity.
Qed.

Lemma family_pairs_not_plain (q : DynamicQuery) (name : string) :
  In name ["page"; "pageSize"] ->
  forall p,
    In p (criteria_pairs (criteria q)
            ++ array_pairs "select" (select q)
            ++ array_pairs "selectAs" (selectAs q)
            ++ array_pairs "orderBy" (orderBy q)
            ++ array_pairs "orderByDirection" (orderByDirection q)) ->
    String.eqb (fst p) name = false.
Proof.
  intros Hn p Hp. rewrite !in_app_iff in Hp.
  destruct Hp as [Hp|[Hp|[Hp|[Hp|Hp]]]].
  - apply In_criteria_pairs in Hp as (n & c & _ & Hp).
    apply In_criterion_pairs in Hp as [->|[->|(v & _ & ->)]]; cbn [fst];
      apply family_not_plain; cbn; tauto.
  - apply In_array_pairs in Hp as (j & ->).
    apply family_not_plain; cbn; tauto.
  - apply In_array_pairs in Hp as (j & ->).
    apply family_not_plain; cbn; tauto.
  - apply In_array_pairs in Hp as (j & ->).
    apply family_not_plain; cbn; tauto.
  - apply In_array_pairs in Hp as (j & ->).
    apply family_not_plain; cbn; tauto.
Qed.

(** *** The whole round trip *)

Lemma decoded_map (q : DynamicQuery) :
  forallb well_formed_criterion (criteria q) = true ->
  (N.of_nat (List.length (criteria q)) < 2 ^ 32)%N ->
  foldM criteria_step (expected_pairs q) []
  = Normal (map entry_of (enumerate (criteria q))).
Proof.
  intros Hwf Hlen. unfold expected_pairs, criteria_pairs, enumerate.
  rewrite foldM_app, criteria_blocks; try assumption.
  - cbn [bind app]. apply foldM_criteria_step_skip.
    apply skips_fragment_index;
      repeat apply skips_app;
      first [ apply skips_number; cbn; tauto
            | apply skips_array; [cbn; tauto|cbn; tauto|reflexivity] ].
  - apply N.le_trans with (2 ^ 32)%N; [lia|discriminate].
  - reflexivity.
Qed.

Lemma decoded_criteria (cs : list Criteria) :
  forallb well_formed_criterion cs = true ->
  forall s,
    flat_map (push_if_complete []) (map snd (map entry_of (enumerate_from s cs)))
    = cs.
Proof.
  induction cs as [|c cs IH]; intros Hwf s; cbn [enumerate_from map flat_map];
    [reflexivity|].
  cbn in Hwf. apply andb_true_iff in Hwf as [Hc Hwf].
  rewrite IH by assumption.
  unfold well_formed_criterion in Hc.
  apply andb_true_iff in Hc as [Hc _]. apply andb_true_iff in Hc as [Hc _].
  apply andb_true_iff in Hc as [Hk Ho].
  unfold entry_of, push_if_complete.
  cbn [fst snd p_key p_operation p_values].
  destruct c as [k op vs]. cbn [key operation values] in *.
  destruct k; [discriminate Hk|]. destruct op; [discriminate Ho|].
  reflexivity.
Qed.

Lemma decoded_select (q : DynamicQuery) :
  dense (select q) = true ->
  nonempty_or_undefined
    (fold_left (array_step "select") (expected_pairs q) [])
  = drop_empty (select q).
Proof.
  intros Hd. unfold expected_pairs.
  apply array_segment; [cbn; tauto|assumption| |].
  - apply skips_criteria; cbn; tauto.
  - repeat apply skips_app;
      first [ apply skips_number; cbn; tauto
            | apply skips_array; [cbn; tauto|cbn; tauto|reflexivity] ].
Qed.

Lemma decoded_selectAs (q : DynamicQuery) :
  dense (selectAs q) = true ->
  nonempty_or_undefined
    (fold_left (array_step "selectAs") (expected_pairs q) [])
  = drop_empty (selectAs q).
Proof.
  intros Hd. unfold expected_pairs.
  rewrite (app_assoc (criteria_pairs _) (array_pairs "select" _)).
  apply array_segment; [cbn; tauto|assumption| |].
  - apply skips_app; [apply skips_criteria; cbn; tauto|].
    apply skips_array; [cbn; tauto|cbn; tauto|reflexivity].
  - repeat apply skips_app;
      first [ apply skips_number; cbn; tauto
            | apply skips_array; [cbn; tauto|cbn; tauto|reflexivity] ].
Qed.

Lemma decoded_orderBy (q : DynamicQuery) :
  dense (orderBy q) = true ->
  nonempty_or_undefined
    (fold_left (array_step "orderBy") (expected_pairs q) [])
  = drop_empty (orderBy q).
Proof.
  intros Hd. unfold expected_pairs.
  rewrite (app_assoc (criteria_pairs _) (array_pairs "select" _)).
  rewrite (app_assoc _ (array_pairs "selectAs" _)).
  apply array_segment; [cbn; tauto|assumption| |].
  - repeat apply skips_app;
      first [ apply skips_criteria; cbn; tauto
            | apply skips_array; [cbn; tauto|cbn; tauto|reflexivity] ].
  - repeat apply skips_app;
      first [ apply skips_number; cbn; tauto
            | apply skips_array; [cbn; tauto|cbn; tauto|reflexivity] ].
Qed.

Lemma decoded_orderByDirection (q : DynamicQuery) :
  dense (orderByDirection q) = true ->
  nonempty_or_undefined
    (fold_left (array_step "orderByDirection") (expected_pairs q) [])
  = drop_empty (orderByDirection q).
Proof.
  intros Hd. unfold expected_pairs.
  rewrite (app_assoc (criteria_pairs _) (array_pairs "select" _)).
  rewrite (app_assoc _ (array_pairs "selectAs" _)).
  rewrite (app_assoc _ (array_pairs "orderBy" _)).
  apply array_segment; [cbn; tauto|assumption| |].
  - repeat apply skips_app;
      first [ apply skips_criteria; cbn; tauto
            | apply skips_array; [cbn; tauto|cbn; tauto|reflexivity] ].
  - repeat apply skips_app; apply skips_number; cbn; tauto.
Qed.

Lemma decoded_numbers (q : DynamicQuery) :
  safe_or_undefined (page q) = true ->
  safe_or_undefined (pageSize q) = true ->
  number_param (expected_pairs q) "page" = page q
  /\ number_param (expected_pairs q) "pageSize" = pageSize q.
Proof.
  intros Hp Hs.
  assert (E : expected_pairs q
              = (criteria_pairs (criteria q)
                   ++ array_pairs "select" (select q)
                   ++ array_pairs "selectAs" (selectAs q)
                   ++ array_pairs "orderBy" (orderBy q)
                   ++ array_pairs "orderByDirection" (orderByDirection q))
                  ++ (number_pairs "page" (page q)
                        ++ number_pairs "pageSize" (pageSize q)))
    by (unfold expected_pairs; now rewrite <- !app_assoc).
  rewrite E.
  rewrite (number_param_skip _ _ "page")
    by (apply family_pairs_not_plain; cbn; tauto).
  rewrite (number_param_skip _ _ "pageSize")
    by (apply family_pairs_not_plain; cbn; tauto).
  now apply number_params.
Qed.

(** C1 (amended): let the strings of [q] be well-formed Unicode (no lone
    surrogate); let every criterion of [q] have a non-empty key, a
    non-empty operation and at least one value, no value containing [%]
    or [&&]; let the optional arrays have no holes, and [page] and
    [pageSize], when defined, be safe integers.  Then decoding the
    encoding of [q] returns [q] with empty optional arrays made absent,
    whatever else the keys and values contain ([&], [=], [+], spaces,
    characters outside ASCII), and leaves that query in the builder.
    (By [emitted_pairs_unchanged], the conversions of [URLSearchParams]
    that the representation leaves out change none of the parameters of
    such a query.) *)
Theorem C1_round_trip :
  forall (this : QueryBuilder) (q : DynamicQuery),
    unicode_query q = true ->
    round_trips q = true ->
    fromQueryString this (toQueryString (mkQueryBuilder q))
    = Normal (normalize q, mkQueryBuilder (normalize q)).
Proof.
  intros this q _ H. unfold round_trips in H.
  repeat (apply andb_true_iff in H as [H ?]).
  match goal with Hl : (_ <? _)%N = true |- _ => apply N.ltb_lt in Hl end.
  unfold fromQueryString, toQueryString.
  rewrite URLSearchParams_new_toString, toQueryString_params_expected.
  unfold query. cbn [_dynamicQuery].
  rewrite loop_split. cbn [criteriaMap l_select l_selectAs l_orderBy
                             l_orderByDirection].
  rewrite decoded_map by assumption. cbn [bind criteriaMap l_select
    l_selectAs l_orderBy l_orderByDirection].
  rewrite fold_push_if_complete. cbn [app].
  unfold enumerate. rewrite decoded_criteria by assumption.
  rewrite decoded_select, decoded_selectAs, decoded_orderBy,
    decoded_orderByDirection by assumption.
  destruct (decoded_numbers q) as [-> ->]; try assumption.
  reflexivity.
Qed.

(** The theorem on a query with a criterion of three values that contain
    [&], [=], a space, [+] and a letter outside ASCII, a sort and a
    page. *)
Lemma C1_witness :
  let q :=
    mkDynamicQuery
      [mkCriteria "name" "CONTAIN" ["a&b=c"; "d +e"; "café"];
       mkCriteria "age" "GREATER_THAN" ["25"]]
      (Some []) None (Some [Some "id"]) (Some [Some "desc"])
      (Some (Int 0)) (Some (Int 20)) in
  unicode_query q = true
  /\ round_trips q = true
  /\ fromQueryString fresh (toQueryString (mkQueryBuilder q))
     = Normal (normalize q, mkQueryBuilder (normalize q)).
Proof.
  intros q. split; [reflexivity|]. split; [reflexivity|].
  apply (C1_round_trip fresh q); reflexivity.
Defined.

(** ** Lookups and removals on the criteria *)

Lemma selects_key (key0 : string) (op : option string) (c : Criteria) :
  selects key0 op c = true -> key c = key0.
Proof.
  unfold selects. intros H. apply andb_true_iff in H as [H _].
  now apply String.eqb_eq.
Qed.

Lemma filter_none {A : Type} (p : A -> bool) (l : list A) :
  (forall x, In x l -> p x = false) -> filter p l = [].
Proof.
  induction l as [|x l IH]; cbn; intros H; [reflexivity|].
  rewrite (H x) by now left. apply IH. intros y Hy. apply H. now right.
Qed.

Lemma filter_filter_comm {A : Type} (p r : A -> bool) (l : list A) :
  filter p (filter r l) = filter (fun x => r x && p x) l.
Proof.
  induction l as [|x l IH]; cbn; [reflexivity|].
  destruct (r x); cbn; [destruct (p x)|]; now rewrite IH.
Qed.

Lemma existsb_filter {A : Type} (p : A -> bool) (l : list A) :
  existsb p l = match filter p l with [] => false | _ :: _ => true end.
Proof.
  induction l as [|x l IH]; cbn; [reflexivity|].
  destruct (p x); [reflexivity|exact IH].
Qed.

Lemma removed_key_not_selected (key0 : string) (op : option string)
  (cs : list Criteria) :
  filter (selects key0 op)
    (filter (fun c => negb (String.eqb (key c) key0)) cs) = [].
Proof.
  apply filter_none. intros c Hc. apply filter_In in Hc as [_ Hc].
  unfold selects. apply negb_true_iff in Hc. now rewrite Hc.
Qed.

Lemma other_key_still_selected (key0 key' : string) (op : option string)
  (cs : list Criteria) :
  key' <> key0 ->
  filter (selects key' op)
    (filter (fun c => negb (String.eqb (key c) key0)) cs)
  = filter (selects key' op) cs.
Proof.
  intros Hne. rewrite filter_filter_comm. apply filter_ext. intros c.
  destruct (selects key' op c) eqn:E; [|apply andb_false_r].
  apply selects_key in E. rewrite E.
  apply String.eqb_neq in Hne. now rewrite Hne.
Qed.

(** X1: [removeCriteriaByKey] keeps, in their order, exactly the criteria
    of the other keys; afterwards no criterion of the key is found,
    whatever operation is asked for, and the lookups for every other key
    answer as before. *)
Theorem X1_removeCriteriaByKey_lookup :
  forall (this : QueryBuilder) (key0 : string),
    let after := removeCriteriaByKey this key0 in
    criteria (query after)
    = filter (fun c => negb (String.eqb (key c) key0)) (criteria (query this))
    /\ (forall op,
          hasCriteria after key0 op = false
          /\ getCriteriaValues after key0 op = [])
    /\ (forall key' op,
          key' <> key0 ->
          hasCriteria after key' op = hasCriteria this key' op
          /\ getCriteriaValues after key' op = getCriteriaValues this key' op).
Proof.
  intros this key0 after. subst after.
  unfold hasCriteria, getCriteriaValues, removeCriteriaByKey, query.
  cbn [_dynamicQuery criteria with_criteria].
  split; [reflexivity|]. split.
  - intros op. now rewrite existsb_filter, removed_key_not_selected.
  - intros key' op Hne.
    now rewrite !existsb_filter, other_key_still_selected.
Qed.

(** X2: without an operation, or with the empty string for it,
    [removeCriteria] removes every criterion of the key, as
    [removeCriteriaByKey] does; and [upsertCriteria] with the empty
    operation likewise replaces all criteria of the key, whatever their
    operations, by the new one. *)
Theorem X2_removeCriteria_without_operation :
  forall (this : QueryBuilder) (key0 : string),
    removeCriteria this key0 None = removeCriteriaByKey this key0
    /\ removeCriteria this key0 (Some EmptyString)
       = removeCriteriaByKey this key0
    /\ forall vals,
         criteria (query (upsertCriteria this key0 EmptyString vals))
         = filter (fun c => negb (String.eqb (key c) key0))
             (criteria (query this))
             ++ [mkCriteria key0 EmptyString vals].
Proof.
  intros this key0.
  assert (H : forall op, truthy op = false ->
                removeCriteria this key0 op = removeCriteriaByKey this key0).
  { intros op Hop. unfold removeCriteria, removeCriteriaByKey. rewrite Hop.
    do 2 f_equal. apply filter_ext. intros c. cbn. apply orb_false_r. }
  split; [now apply H|]. split; [now apply H|].
  intros vals. unfold upsertCriteria. rewrite H by reflexivity.
  reflexivity.
Qed.

Lemma operation_string_inj (a b : CriteriaOperation) :
  operation_string a = operation_string b -> a = b.
Proof. destruct a, b; cbn; intros H; try reflexivity; discriminate H. Qed.

Lemma selects_matches (key0 op : string) (c : Criteria) :
  truthy (Some op) = true ->
  selects key0 (Some op) c = matches key0 op c.
Proof. intros H. unfold selects, matches. now rewrite H. Qed.

Lemma upserted_selected (key0 : string) (op : CriteriaOperation)
  (vals : list string) (cs : list Criteria) :
  filter (selects key0 (Some (operation_string op)))
    (filter (fun c => negb (matches key0 (operation_string op) c)) cs
       ++ [mkCriteria key0 (operation_string op) vals])
  = [mkCriteria key0 (operation_string op) vals].
Proof.
  rewrite filter_app.
  rewrite (filter_none (selects key0 (Some (operation_string op)))).
  - cbn [filter app]. rewrite selects_matches by apply truthy_operation_string.
    unfold matches. cbn [key operation]. now rewrite !String.eqb_refl.
  - intros c Hin. apply filter_In in Hin as [_ Hin].
    rewrite selects_matches by apply truthy_operation_string.
    now apply negb_true_iff.
Qed.

Lemma upserted_other_selected (key0 key' : string)
  (op op' : CriteriaOperation) (vals : list string) (cs : list Criteria) :
  key' <> key0 \/ op' <> op ->
  filter (selects key' (Some (operation_string op')))
    (filter (fun c => negb (matches key0 (operation_string op) c)) cs
       ++ [mkCriteria key0 (operation_string op) vals])
  = filter (selects key' (Some (operation_string op'))) cs.
Proof.
  intros H.
  assert (Hdiff : forall k o,
             String.eqb k key' && String.eqb o (operation_string op') = true ->
             String.eqb k key0 && String.eqb o (operation_string op) = false).
  { intros k o E. apply andb_true_iff in E as [Ek Eo].
    apply String.eqb_eq in Ek, Eo. subst k o. apply andb_false_iff.
    destruct H as [H|H]; [left|right]; apply String.eqb_neq; [exact H|].
    intros E. apply operation_string_inj in E. congruence. }
  rewrite filter_app. cbn [filter].
  rewrite selects_matches by apply truthy_operation_string.
  assert (Hnew : matches key' (operation_string op')
                   (mkCriteria key0 (operation_string op) vals) = false).
  { unfold matches. cbn [key operation].
    destruct (String.eqb key0 key' && String.eqb (operation_string op)
                                        (operation_string op')) eqn:E;
      [|reflexivity].
    apply Hdiff in E. now rewrite !String.eqb_refl in E. }
  rewrite Hnew, app_nil_r, filter_filter_comm.
  apply filter_ext. intros c.
  rewrite selects_matches by apply truthy_operation_string.
  unfold matches.
  destruct (String.eqb (key c) key' && String.eqb (operation c)
                                         (operation_string op')) eqn:E;
    [|apply andb_false_r].
  now rewrite (Hdiff _ _ E).
Qed.

(** X3: after [upsertCriteria(key, operation, values)], for an operation
    of the enumeration, the lookup for that key and operation finds the
    criterion and returns exactly the given values, whatever was stored
    before; the lookups for any other pair of key and operation answer as
    before. *)
Theorem X3_upsert_then_lookup :
  forall (this : QueryBuilder) (key0 : string) (op : CriteriaOperation)
    (vals : list string),
    let after := upsertCriteria this key0 (operation_string op) vals in
    getCriteriaValues after key0 (Some (operation_string op)) = vals
    /\ hasCriteria after key0 (Some (operation_string op)) = true
    /\ (forall key' (op' : CriteriaOperation),
          key' <> key0 \/ op' <> op ->
          getCriteriaValues after key' (Some (operation_string op'))
          = getCriteriaValues this key' (Some (operation_string op'))
          /\ hasCriteria after key' (Some (operation_string op'))
             = hasCriteria this key' (Some (operation_string op'))).
Proof.
  intros this key0 op vals after. subst after.
  pose proof (upsertCriteria_criteria this key0 (operation_string op) vals
                (truthy_operation_string op)) as Hc.
  unfold query in Hc. unfold getCriteriaValues, hasCriteria.
  rewrite Hc. split; [|split].
  - rewrite upserted_selected. cbn. apply app_nil_r.
  - now rewrite existsb_filter, upserted_selected.
  - intros key' op' H.
    now rewrite !existsb_filter, upserted_other_selected.
Qed.

(** X4: of two [upsertCriteria] in a row for the same key and operation
    of the enumeration, only the second counts: the builder is the one
    the second call alone would have produced. *)
Theorem X4_upsert_last_wins :
  forall (this : QueryBuilder) (key0 : string) (op : CriteriaOperation)
    (v1 v2 : list string),
    upsertCriteria (upsertCriteria this key0 (operation_string op) v1)
      key0 (operation_string op) v2
    = upsertCriteria this key0 (operation_string op) v2.
Proof.
  intros this key0 op v1 v2.
  pose proof (truthy_operation_string op) as Hop.
  assert (E : forall qb vals,
             upsertCriteria qb key0 (operation_string op) vals
             = mkQueryBuilder
                 (with_criteria (_dynamicQuery qb)
                    (filter (fun c => negb (matches key0 (operation_string op) c))
                       (criteria (_dynamicQuery qb))
                       ++ [mkCriteria key0 (operation_string op) vals]))).
  { intros qb vals.
    pose proof (upsertCriteria_criteria qb key0 (operation_string op) vals Hop)
      as Hc.
    unfold query in Hc. rewrite <- Hc.
    unfold upsertCriteria, addCriteria, removeCriteria.
    destruct qb as [q]. destruct q. reflexivity. }
  rewrite (E (upsertCriteria this key0 (operation_string op) v1)).
  rewrite !E. unfold with_criteria.
  cbn [_dynamicQuery criteria select selectAs orderBy orderByDirection page
         pageSize].
  do 2 f_equal. rewrite filter_app. cbn [filter].
  assert (Hm : matches key0 (operation_string op)
                 (mkCriteria key0 (operation_string op) v1) = true)
    by (unfold matches; cbn [key operation]; now rewrite !String.eqb_refl).
  rewrite Hm. cbn [negb]. rewrite app_nil_r.
  f_equal. rewrite filter_filter_comm. apply filter_ext. intros c.
  apply andb_diag.
Qed.

(** X5: [addCriteria] only adds: every lookup returns what it returned
    before, followed by the new values when the new criterion is one the
    lookup selects; it never removes or reorders what is there, and adds
    a second criterion even when an equal one is present. *)
Theorem X5_addCriteria_lookup :
  forall (this : QueryBuilder) (key0 op : string) (vals : list string)
    (key' : string) (op' : option string),
    let after := addCriteria this key0 op vals in
    getCriteriaValues after key' op'
    = getCriteriaValues this key' op'
        ++ (if selects key' op' (mkCriteria key0 op vals) then vals else [])
    /\ hasCriteria after key' op'
       = hasCriteria this key' op' || selects key' op' (mkCriteria key0 op vals)
    /\ List.length (criteria (query after))
       = S (List.length (criteria (query this))).
Proof.
  intros this key0 op vals key' op' after. subst after.
  unfold getCriteriaValues, hasCriteria, addCriteria, query.
  cbn [_dynamicQuery criteria with_criteria].
  rewrite filter_app, flat_map_app, existsb_app, length_app.
  cbn [filter existsb List.length].
  destruct (selects key' op' (mkCriteria key0 op vals)); cbn.
  - rewrite app_nil_r. repeat split. lia.
  - rewrite orb_false_r. repeat split. lia.
Qed.

(** ** The encoded string *)

Lemma all_chars_weaken (p r : ascii -> bool) (s : string) :
  (forall c, p c = true -> r c = true) ->
  all_chars p s = true -> all_chars r s = true.
Proof.
  intros H. induction s as [|c s IH]; cbn; [reflexivity|]. intros Hs.
  apply andb_true_iff in Hs as [Hc Hs]. now rewrite (H c Hc), IH.
Qed.

Lemma serialize_pair_wire (p : string * string) :
  all_chars wire_char (serialize_pair p) = true.
Proof.
  unfold serialize_pair. rewrite !all_chars_app. cbn.
  assert (H : forall s, all_chars wire_char (urlencode s) = true).
  { intros s. apply all_chars_weaken with (p := enc_char);
      [|apply urlencode_chars].
    intros c Hc. unfold wire_char. now rewrite Hc. }
  now rewrite !H.
Qed.

(** X6: whatever the keys and values of the query contain, the string
    [toQueryString] returns consists only of ASCII letters and digits and
    of the characters [* - . _ + % = &]: it has no space, [#], [?] or
    byte above 0x7F, so it can follow the [?] of a URL as it is. *)
Theorem X6_toQueryString_alphabet :
  (forall this : QueryBuilder,
     all_chars wire_char (toQueryString this) = true)
  /\ (forall c : ascii,
        wire_char c = true
        <-> is_alnum c = true
            \/ In c ["*"; "-"; "."; "_"; "+"; "%"; "="; "&"]%char).
Proof.
  split.
  - intros this. unfold toQueryString, URLSearchParams_toString.
    induction (toQueryString_params this) as [|p ps IH]; [reflexivity|].
    cbn [map String.concat]. destruct ps as [|p' ps].
    + apply serialize_pair_wire.
    + cbn [map] in *. rewrite !all_chars_app, serialize_pair_wire.
      cbn [all_chars String.append]. now rewrite IH.
  - intros c. unfold wire_char, enc_char, urlencoded_safe. split.
    + intros H. destruct (is_alnum c); [now left|right].
      cbn [orb] in H.
      destruct c as [[|] [|] [|] [|] [|] [|] [|] [|]];
        try discriminate H; cbn; tauto.
    + intros [->|H]; [reflexivity|].
      cbn in H. repeat (destruct H as [<-|H]; [reflexivity|]). destruct H.
Qed.

(** X7: for a query whose strings are well-formed Unicode (no lone
    surrogate) and whose page numbers, when defined, are [NaN], infinite
    or safe integers, parsing the string [toQueryString] returns gives
    back exactly the parameters it emitted, in their order and with
    their names and values unchanged, whatever characters these contain:
    no key or value can break the framing of the string. *)
Theorem X7_output_parses_to_emitted_pairs :
  forall this : QueryBuilder,
    representable (query this) = true ->
    URLSearchParams_new (toQueryString this) = expected_pairs (query this).
Proof.
  intros this _. unfold toQueryString.
  now rewrite URLSearchParams_new_toString, toQueryString_params_expected.
Qed.

(** The theorem on a query whose values contain the separators of the
    string, [%], [&&] and a letter outside ASCII. *)
Lemma X7_witness :
  let q :=
    mkDynamicQuery
      [mkCriteria "a=b" "EQUAL" ["x&y=z"; "100%"; "p&&q"; "café"]]
      None None (Some [Some "i d"]) None (Some (Int 2)) None in
  representable q = true
  /\ toQueryString (mkQueryBuilder q)
     = "key0=a%3Db&operation0=EQUAL&values0=x%26y%3Dz&values0=100%25&values0=p%26%26q&values0=caf%C3%A9&orderBy0=i+d&page=2"
  /\ URLSearchParams_new (toQueryString (mkQueryBuilder q))
     = expected_pairs q.
Proof.
  intros q. split; [reflexivity|]. split; [vm_compute; reflexivity|].
  apply (X7_output_parses_to_emitted_pairs (mkQueryBuilder q)).
  reflexivity.
Defined.

(** ** Parameters the decoder does not know *)

Lemma body_unknown (st : locals) (p : string * string) :
  unknown_name (fst p) = true -> fromQueryString_body st p = Normal st.
Proof.
  unfold unknown_name. intros H.
  apply andb_true_iff in H as [H _]. apply andb_true_iff in H as [H _].
  cbn [forallb indexed_families] in H.
  repeat (apply andb_true_iff in H as [? H]).
  unfold fromQueryString_body, criteria_step, array_step.
  destruct p as [n v]. cbn [fst] in *.
  destruct (match_indexed "key" n); [discriminate|].
  destruct (match_indexed "operation" n); [discriminate|].
  destruct (match_indexed "values" n); [discriminate|].
  destruct (match_indexed "select" n); [discriminate|].
  destruct (match_indexed "selectAs" n); [discriminate|].
  destruct (match_indexed "orderBy" n); [discriminate|].
  destruct (match_indexed "orderByDirection" n); [discriminate|].
  cbn. now destruct st.
Qed.

Lemma number_param_unknown (ps1 ps2 : URLSearchParams) (p : string * string)
  (n : string) :
  String.eqb (fst p) n = false ->
  number_param (ps1 ++ p :: ps2) n = number_param (ps1 ++ ps2) n.
Proof.
  intros H. unfold number_param, has, get.
  induction ps1 as [|x ps1 IH]; cbn [app existsb find].
  - now rewrite H.
  - destruct (String.eqb (fst x) n); [reflexivity|]. cbn [orb]. exact IH.
Qed.

(** X8: a parameter whose name is none of [key{i}], [operation{i}],
    [values{i}], [select{i}], [selectAs{i}], [orderBy{i}],
    [orderByDirection{i}], [page], [pageSize] is ignored: wherever it
    stands among the parameters, and whatever its value, the decoder
    returns (or throws) as it does without it. *)
Theorem X8_unknown_parameter_ignored :
  forall (this : QueryBuilder) (s s' : string) (ps1 ps2 : URLSearchParams)
    (p : string * string),
    URLSearchParams_new s = ps1 ++ ps2 ->
    URLSearchParams_new s' = ps1 ++ p :: ps2 ->
    unknown_name (fst p) = true ->
    fromQueryString this s' = fromQueryString this s.
Proof.
  intros this s s' ps1 ps2 p Hs Hs' Hu.
  unfold fromQueryString. rewrite Hs, Hs'.
  assert (Hloop : forall st,
             foldM fromQueryString_body (ps1 ++ p :: ps2) st
             = foldM fromQueryString_body (ps1 ++ ps2) st).
  { intros st. rewrite !foldM_app.
    destruct (foldM fromQueryString_body ps1 st) as [st1|e]; cbn [bind];
      [|reflexivity].
    cbn [foldM]. now rewrite (body_unknown st1 p Hu). }
  rewrite Hloop.
  unfold unknown_name in Hu. apply andb_true_iff in Hu as [Hu Hps].
  apply andb_true_iff in Hu as [_ Hp].
  apply negb_true_iff in Hp, Hps.
  now rewrite !(number_param_unknown ps1 ps2 p) by assumption.
Qed.

(** The theorem on a tracking parameter set between the fragments of a
    criterion. *)
Lemma X8_witness :
  URLSearchParams_new "key0=a&operation0=EQUAL&values0=x"
  = [("key0", "a")] ++ [("operation0", "EQUAL"); ("values0", "x")]
  /\ unknown_name "utm_source" = true
  /\ fromQueryString fresh "key0=a&utm_source=mail&operation0=EQUAL&values0=x"
     = fromQueryString fresh "key0=a&operation0=EQUAL&values0=x".
Proof.
  split; [reflexivity|]. split; [reflexivity|].
  apply (X8_unknown_parameter_ignored fresh
           "key0=a&operation0=EQUAL&values0=x"
           "key0=a&utm_source=mail&operation0=EQUAL&values0=x"
           [("key0", "a")] [("operation0", "EQUAL"); ("values0", "x")]
           ("utm_source", "mail"));
    reflexivity.
Defined.

(** ** The arrays the decoder builds *)

Lemma element_set_at (a : array string) (v : string) :
  forall n m,
    element (set_at n v a) m
    = if Nat.eqb n m then Some v else element a m.
Proof.
  unfold element. revert a.
  assert (Hnil : forall n m,
             match nth_error (set_at n v (@nil (option string))) m with
             | Some (Some x) => Some x
             | _ => None
             end = if Nat.eqb n m then Some v else None).
  { induction n as [|n IH]; intros [|m]; cbn; try reflexivity.
    - now destruct m.
    - apply IH. }
  intros a n. revert a.
  induction n as [|n IH]; intros [|x a] [|m]; cbn; try reflexivity.
  - now destruct m.
  - rewrite Hnil. now destruct (Nat.eqb n m), m.
  - apply IH.
Qed.

Lemma element_array_set (a : array string) (idx : number) (v : string)
  (i : N) :
  (i < 2 ^ 32 - 1)%N ->
  element (array_set a idx v) (N.to_nat i)
  = if number_eqb idx (Int (Z.of_N i)) then Some v
    else element a (N.to_nat i).
Proof.
  intros Hi. unfold array_set. destruct idx as [| |z]; try reflexivity.
  cbn [number_eqb].
  destruct ((0 <=? z)%Z && (z <? 2 ^ 32 - 1)%Z) eqn:E.
  - apply andb_true_iff in E as [E0 E1]. apply Z.leb_le in E0.
    rewrite element_set_at.
    destruct (Z.eqb_spec z (Z.of_N i)) as [->|Hne].
    + replace (Z.to_nat (Z.of_N i)) with (N.to_nat i) by lia.
      now rewrite Nat.eqb_refl.
    + destruct (Nat.eqb_spec (Z.to_nat z) (N.to_nat i)) as [E|_];
        [|reflexivity].
      exfalso. apply Hne. lia.
  - destruct (Z.eqb_spec z (Z.of_N i)) as [->|_]; [|reflexivity].
    exfalso. apply andb_false_iff in E as [E|E].
    + apply Z.leb_gt in E. lia.
    + apply Z.ltb_ge in E.
      assert (Z.of_N i < 2 ^ 32 - 1)%Z
        by (change (2 ^ 32 - 1)%Z with (Z.of_N (2 ^ 32 - 1));
            now apply N2Z.inj_lt).
      lia.
Qed.

Lemma last_value_cons (x : string) (l : list string) :
  last_value (x :: l)
  = match last_value l with Some y => Some y | None => Some x end.
Proof.
  unfold last_value. cbn [rev].
  destruct (rev l) as [|y r] eqn:E; reflexivity.
Qed.

Lemma fold_array_step_element (P : string) (i : N) :
  (i < 2 ^ 32 - 1)%N ->
  forall (ps : URLSearchParams) (a : array string),
    element (fold_left (array_step P) ps a) (N.to_nat i)
    = match last_value (field_values P (Int (Z.of_N i)) ps) with
      | Some v => Some v
      | None => element a (N.to_nat i)
      end.
Proof.
  intros Hi. induction ps as [|[n v] ps IH]; intros a; [reflexivity|].
  cbn [fold_left]. rewrite IH. unfold field_values. cbn [filter].
  unfold array_step, is_field at 2. cbn [fst].
  destruct (match_indexed P n) as [d|]; [|reflexivity].
  rewrite element_array_set by assumption.
  destruct (number_eqb (parseInt d) (Int (Z.of_N i))); [|reflexivity].
  cbn [map snd]. rewrite last_value_cons.
  now destruct (last_value _).
Qed.

(** X9: in the query [fromQueryString] returns, element [i] of [select]
    is the value of the last [select{j}] parameter whose number [j] is
    [i], and a hole when there is none: later duplicates overwrite
    earlier ones and a gap in the indices leaves holes.  The same holds
    for [selectAs], [orderBy] and [orderByDirection]. *)
Theorem X9_decoded_array_elements :
  forall (this this' : QueryBuilder) (s : string) (q : DynamicQuery),
    fromQueryString this s = Normal (q, this') ->
    forall i : N,
      (i < 2 ^ 32 - 1)%N ->
      let params := URLSearchParams_new s in
      let idx := Int (Z.of_N i) in
      element (array_of (select q)) (N.to_nat i)
      = last_value (field_values "select" idx params)
      /\ element (array_of (selectAs q)) (N.to_nat i)
         = last_value (field_values "selectAs" idx params)
      /\ element (array_of (orderBy q)) (N.to_nat i)
         = last_value (field_values "orderBy" idx params)
      /\ element (array_of (orderByDirection q)) (N.to_nat i)
         = last_value (field_values "orderByDirection" idx params).
Proof.
  intros this this' s q H i Hi params idx. subst params idx.
  unfold fromQueryString in H. rewrite loop_split in H.
  destruct (foldM criteria_step _ _) as [m|e]; cbn [bind] in H;
    [|discriminate].
  injection H as <- _.
  cbn [select selectAs orderBy orderByDirection l_select l_selectAs
         l_orderBy l_orderByDirection].
  assert (Hne : forall a, array_of (nonempty_or_undefined a) = a)
    by (intros [|x a]; reflexivity).
  rewrite !Hne, !fold_array_step_element by assumption.
  assert (He : forall l : list string,
             match last_value l with
             | Some v => Some v
             | None => element [] (N.to_nat i)
             end = last_value l).
  { intros l. destruct (last_value l); [reflexivity|].
    unfold element. now destruct (N.to_nat i). }
  now rewrite !He.
Qed.

(** The theorem on an input with a gap and a duplicate. *)
Lemma X9_witness :
  let s := "select2=c&select0=a&select2=z" in
  let q := mkDynamicQuery [] (Some [Some "a"; None; Some "z"])
             None None None None None in
  fromQueryString fresh s = Normal (q, mkQueryBuilder q)
  /\ element (array_of (select q)) 2 = Some "z"
  /\ element (array_of (select q)) 1 = None.
Proof.
  intros s q.
  assert (H : fromQueryString fresh s = Normal (q, mkQueryBuilder q))
    by (vm_compute; reflexivity).
  split; [exact H|].
  pose proof (X9_decoded_array_elements fresh (mkQueryBuilder q) s q H) as E.
  split.
  - exact (proj1 (E 2%N eq_refl)).
  - exact (proj1 (E 1%N eq_refl)).
Defined.

(** ** Round trip of a query with criteria without values *)

Lemma criterion_block_any (m : Map PartialCriteria) (i : N) (c : Criteria) :
  (i < 2 ^ 53)%N -> Map_has m (Int (Z.of_N i)) = false ->
  forallb plain_value (values c) = true ->
  foldM criteria_step (criterion_pairs (i, c)) m
  = Normal (m ++ [entry_of_any (i, c)]).
Proof.
  intros Hi Hm Hplain.
  unfold criterion_pairs. cbn [foldM].
  rewrite criteria_step_key by assumption. cbn [bind].
  rewrite mutate_new_entry by assumption.
  rewrite criteria_step_operation by assumption. cbn [bind].
  rewrite mutate_last_entry by assumption.
  unfold set_operation, set_key, empty_partial.
  cbn [p_key p_operation p_values].
  unfold entry_of_any. cbn [fst snd].
  destruct (values c) as [|v vs] eqn:Ev; [reflexivity|].
  cbn [map foldM]. cbn in Hplain. apply andb_true_iff in Hplain as [Hv Hvs].
  rewrite criteria_step_values by assumption. cbn [bind].
  rewrite mutate_last_entry by assumption.
  unfold push_values, set_values. cbn [p_values p_key p_operation app].
  now rewrite values_loop by assumption.
Qed.

Lemma criteria_blocks_any (cs : list Criteria) :
  forall (s : N) (m : Map PartialCriteria),
    (s + N.of_nat (List.length cs) <= 2 ^ 53)%N ->
    (forall j, (s <= j)%N -> Map_has m (Int (Z.of_N j)) = false) ->
    forallb (fun c => forallb plain_value (values c)) cs = true ->
    foldM criteria_step (flat_map criterion_pairs (enumerate_from s cs)) m
    = Normal (m ++ map entry_of_any (enumerate_from s cs)).
Proof.
  induction cs as [|c cs IH]; intros s m Hlen Hm Hcs;
    cbn [enumerate_from flat_map map].
  - now rewrite app_nil_r.
  - cbn in Hcs. apply andb_true_iff in Hcs as [Hc Hcs].
    cbn [List.length] in Hlen.
    rewrite foldM_app, criterion_block_any; try assumption;
      [|lia|apply Hm; lia].
    cbn [bind]. rewrite IH; try assumption; [|lia|].
    + now rewrite <- app_assoc.
    + intros j Hj. unfold entry_of_any. rewrite Map_has_snoc, Hm by lia.
      cbn [fst orb number_eqb]. apply Z.eqb_neq. lia.
Qed.

Lemma decoded_criteria_any (cs : list Criteria) :
  forallb (fun c => negb (is_empty (key c)) && negb (is_empty (operation c)))
    cs = true ->
  forall s,
    flat_map (push_if_complete [])
      (map snd (map entry_of_any (enumerate_from s cs)))
    = filter has_values cs.
Proof.
  induction cs as [|c cs IH]; intros Hwf s;
    cbn [enumerate_from map flat_map filter]; [reflexivity|].
  cbn in Hwf. apply andb_true_iff in Hwf as [Hc Hwf].
  rewrite IH by assumption.
  apply andb_true_iff in Hc as [Hk Ho].
  unfold entry_of_any, push_if_complete, has_values.
  cbn [fst snd p_key p_operation p_values].
  destruct c as [k op vs]. cbn [key operation values] in *.
  destruct k; [discriminate Hk|]. destruct op; [discriminate Ho|].
  destruct vs; reflexivity.
Qed.

Lemma forallb_and {A : Type} (p r : A -> bool) (l : list A) :
  forallb (fun x => p x && r x) l = forallb p l && forallb r l.
Proof.
  induction l as [|x l IH]; cbn; [reflexivity|]. rewrite IH.
  destruct (p x), (r x), (forallb p l); reflexivity.
Qed.

(** X10: a criterion without values is written by the encoder and then
    dropped by the decoder.  For a query whose strings are well-formed
    Unicode (no lone surrogate), whose criteria have non-empty keys and
    operations and values without [%] and [&&], whose optional arrays
    have no holes and whose page numbers are safe integers, decoding the
    encoding returns the query without its criteria that have no values,
    the others in their order, empty optional arrays made absent. *)
Theorem X10_round_trip_drops_empty_criteria :
  forall (this : QueryBuilder) (q : DynamicQuery),
    unicode_query q = true ->
    round_trips_but_empty q = true ->
    fromQueryString this (toQueryString (mkQueryBuilder q))
    = Normal (normalize (skip_empty q),
              mkQueryBuilder (normalize (skip_empty q))).
Proof.
  intros this q _ H. unfold round_trips_but_empty in H.
  repeat (apply andb_true_iff in H as [H ?]).
  match goal with Hl : (_ <? _)%N = true |- _ => apply N.ltb_lt in Hl end.
  rewrite forallb_and in H. apply andb_true_iff in H as [Hko Hplain].
  unfold fromQueryString, toQueryString.
  rewrite URLSearchParams_new_toString, toQueryString_params_expected.
  unfold query. cbn [_dynamicQuery].
  rewrite loop_split. cbn [criteriaMap l_select l_selectAs l_orderBy
                             l_orderByDirection].
  assert (Hmap : foldM criteria_step (expected_pairs q) []
                 = Normal (map entry_of_any (enumerate (criteria q)))).
  { unfold expected_pairs, criteria_pairs, enumerate.
    rewrite foldM_app, criteria_blocks_any; try assumption.
    - cbn [bind app]. apply foldM_criteria_step_skip.
      apply skips_fragment_index;
        repeat apply skips_app;
        first [ apply skips_number; cbn; tauto
              | apply skips_array; [cbn; tauto|cbn; tauto|reflexivity] ].
    - apply N.le_trans with (2 ^ 32)%N; [lia|discriminate].
    - reflexivity. }
  rewrite Hmap. cbn [bind criteriaMap l_select l_selectAs l_orderBy
                       l_orderByDirection].
  rewrite fold_push_if_complete. cbn [app].
  unfold enumerate. rewrite decoded_criteria_any by assumption.
  rewrite decoded_select, decoded_selectAs, decoded_orderBy,
    decoded_orderByDirection by assumption.
  destruct (decoded_numbers q) as [-> ->]; try assumption.
  reflexivity.
Qed.

(** The theorem on a query whose first criterion has no values. *)
Lemma X10_witness :
  let q :=
    mkDynamicQuery
      [mkCriteria "status" "EQUAL" []; mkCriteria "age" "GREATER_THAN" ["25"]]
      None None (Some [Some "id"]) (Some [Some "desc"])
      (Some (Int 0)) (Some (Int 20)) in
  unicode_query q = true
  /\ round_trips_but_empty q = true
  /\ criteria (normalize (skip_empty q))
     = [mkCriteria "age" "GREATER_THAN" ["25"]]
  /\ fromQueryString fresh (toQueryString (mkQueryBuilder q))
     = Normal (normalize (skip_empty q),
               mkQueryBuilder (normalize (skip_empty q))).
Proof.
  intros q. split; [reflexivity|]. split; [reflexivity|].
  split; [reflexivity|].
  apply (X10_round_trip_drops_empty_criteria fresh q); reflexivity.
Defined.

(** ** The pagination bar *)








(** ** Handlers *)

Lemma strict_eq_refl (s : string) : strict_eq (Some s) s = true.
Proof. apply String.eqb_refl. Qed.

(** X13: a click on the header of a sortable field sorts by that field
    alone; the direction is ascending when the table was sorted
    descending by that same field, and descending in every other case,
    so that repeated clicks on one field alternate between the two
    directions.  Criteria, projection and paging are left as they are,
    and a field with [sortable === false] changes nothing. *)
Theorem X13_handleSort_toggles :
  forall (queryBuilder : QueryBuilder) (field : Field),
    (sortable field = Some false ->
     handleSort queryBuilder field = queryBuilder)
    /\ (sortable field <> Some false ->
        let q := query queryBuilder in
        let q1 := query (handleSort queryBuilder field) in
        let q2 := query (handleSort (handleSort queryBuilder field) field) in
        orderBy q1 = Some [Some (fieldName field)]
        /\ orderByDirection q1
           = Some [Some (if strict_eq (first_element (orderBy q))
                               (fieldName field)
                            && strict_eq (first_element (orderByDirection q))
                                 "desc"
                         then "asc" else "desc")]
        /\ orderBy q2 = orderBy q1
        /\ orderByDirection q2 <> orderByDirection q1
        /\ handleSort (handleSort (handleSort queryBuilder field) field) field
           = handleSort queryBuilder field
        /\ criteria q1 = criteria q /\ select q1 = select q
        /\ selectAs q1 = selectAs q
        /\ page q1 = page q /\ pageSize q1 = pageSize q).
Proof.
  intros qb field. split.
  - intros H. unfold handleSort. now rewrite H.
  - intros H q q1 q2. subst q q1 q2.
    assert (E : forall b,
               handleSort b field
               = setSort b (fieldName field)
                   (if strict_eq (first_element (orderBy (query b)))
                         (fieldName field)
                       && strict_eq (first_element (orderByDirection (query b)))
                            "desc"
                    then "asc" else "desc")).
    { intros b. unfold handleSort.
      destruct (sortable field) as [[|]|]; try reflexivity. congruence. }
    rewrite !E. unfold setSort, query.
    cbn [_dynamicQuery orderBy orderByDirection first_element criteria select
           selectAs page pageSize].
    rewrite !strict_eq_refl. cbn [andb].
    destruct (strict_eq (first_element (orderBy (_dynamicQuery qb)))
                (fieldName field)
              && strict_eq
                   (first_element (orderByDirection (_dynamicQuery qb)))
                   "desc");
      cbn; repeat split; try reflexivity; discriminate.
Qed.

(** The theorem on a table sorted descending by [id], for the field
    [id]. *)
Lemma X13_witness :
  let field := mkField "id" None (Some true) in
  let qb := setSort fresh "id" "desc" in
  sortable field <> Some false
  /\ orderByDirection (query (handleSort qb field)) = Some [Some "asc"]
  /\ handleSort (handleSort (handleSort qb field) field) field
     = handleSort qb field.
Proof.
  intros field qb.
  assert (H : sortable field <> Some false) by discriminate.
  split; [exact H|].
  destruct (proj2 (X13_handleSort_toggles qb field) H)
    as (_ & Hd & _ & _ & Hp & _).
  split; [exact Hd|exact Hp].
Defined.

Lemma handleFilterChange_criteria (qb : QueryBuilder) :
  criteria (_dynamicQuery (handleFilterChange qb)) = criteria (_dynamicQuery qb)
  /\ page (_dynamicQuery (handleFilterChange qb)) = Some (Int 0).
Proof. split; reflexivity. Qed.

(** X14: after [handleStringFilter] with a non-empty text, the criteria
    of the field are those it had with operations other than CONTAIN,
    followed by one CONTAIN criterion with the text, so that
    [getFilterValue] shows the text when the field had no criterion of
    another operation; with the empty text, every criterion of the field
    is removed and [getFilterValue] is empty.  In both cases the page is
    reset to 0. *)
Theorem X14_string_filter_value :
  forall (queryBuilder : QueryBuilder) (field : Field) (value : string),
    let after := handleStringFilter queryBuilder field value in
    page (query after) = Some (Int 0)
    /\ (value = EmptyString ->
        getFilterValue after field = EmptyString
        /\ hasCriteria after (fieldName field) None = false)
    /\ (value <> EmptyString ->
        getCriteriaValues after (fieldName field) None
        = flat_map values
            (filter (fun c => String.eqb (key c) (fieldName field)
                              && negb (String.eqb (operation c) "CONTAIN"))
               (criteria (query queryBuilder)))
            ++ [value])
    /\ (value <> EmptyString ->
        (forall c, In c (criteria (query queryBuilder)) ->
                   key c = fieldName field -> operation c = "CONTAIN") ->
        getFilterValue after field = value).
Proof.
  intros qb field value after. subst after.
  assert (Hnone : forall k c, selects k None c = String.eqb (key c) k)
    by (intros k c; unfold selects; cbn; apply andb_true_r).
  assert (Hval : value <> EmptyString ->
            getCriteriaValues (handleStringFilter qb field value)
              (fieldName field) None
            = flat_map values
                (filter (fun c => String.eqb (key c) (fieldName field)
                                  && negb (String.eqb (operation c) "CONTAIN"))
                   (criteria (query qb)))
                ++ [value]).
  { intros Hv. unfold handleStringFilter.
    destruct value as [|a v]; [congruence|]. cbn [truthy].
    unfold getCriteriaValues.
    rewrite (proj1 (handleFilterChange_criteria _)).
    pose proof (upsertCriteria_criteria qb (fieldName field)
                  (operation_string CONTAIN) [String a v] eq_refl) as Hc.
    unfold query in *. rewrite Hc, filter_app, flat_map_app.
    cbn [filter]. rewrite Hnone. cbn [key]. rewrite String.eqb_refl.
    cbn [flat_map values app]. f_equal.
    rewrite filter_filter_comm. f_equal. apply filter_ext. intros c.
    rewrite Hnone. unfold matches. cbn [operation_string].
    destruct (String.eqb (key c) (fieldName field)),
      (String.eqb (operation c) "CONTAIN"); reflexivity. }
  split; [reflexivity|]. split; [|split].
  - intros ->. unfold handleStringFilter. cbn [truthy].
    unfold getFilterValue, getCriteriaValues, hasCriteria.
    rewrite (proj1 (handleFilterChange_criteria _)).
    unfold removeCriteriaByKey. cbn [_dynamicQuery criteria with_criteria].
    now rewrite existsb_filter, removed_key_not_selected.
  - exact Hval.
  - intros Hv Honly. unfold getFilterValue. rewrite (Hval Hv).
    rewrite filter_none; [reflexivity|].
    intros c Hc.
    destruct (String.eqb_spec (key c) (fieldName field)) as [Hk|];
      [|reflexivity].
    rewrite (Honly c Hc Hk). reflexivity.
Qed.

(** The theorem on a builder that holds a criterion of another field. *)
Lemma X14_witness :
  let field := mkField "name" None None in
  let qb := addCriteria fresh "age" "EQUAL" ["7"] in
  "john" <> EmptyString
  /\ getFilterValue (handleStringFilter qb field "john") field = "john".
Proof.
  intros field qb.
  assert (Hv : "john" <> EmptyString) by discriminate.
  split; [exact Hv|].
  destruct (X14_string_filter_value qb field "john") as (_ & _ & _ & H).
  apply (H Hv). intros c Hc Hk. cbn in Hc. destruct Hc as [<-|[]].
  discriminate Hk.
Defined.

(** X15: the check box of a boolean filter shows what was last set:
    from any state, [getBooleanValue] after [handleBooleanFilter] is the
    value passed; unchecking removes every criterion of the field, of
    any operation. *)
Theorem X15_boolean_filter_round_trip :
  forall (queryBuilder : QueryBuilder) (field : Field) (checked : bool),
    getBooleanValue (handleBooleanFilter queryBuilder field checked) field
    = checked
    /\ (checked = false ->
        forall op,
          hasCriteria (handleBooleanFilter queryBuilder field checked)
            (fieldName field) op = false).
Proof.
  intros qb field checked. unfold getBooleanValue, handleBooleanFilter.
  unfold hasCriteria.
  destruct checked; rewrite (proj1 (handleFilterChange_criteria _)).
  - split; [|discriminate].
    pose proof (upsertCriteria_criteria qb (fieldName field)
                  (operation_string SPECIFIED) ["true"] eq_refl) as Hc.
    unfold query in Hc. rewrite Hc.
    now rewrite existsb_filter, (upserted_selected _ SPECIFIED).
  - unfold removeCriteriaByKey. cbn [_dynamicQuery criteria with_criteria].
    split; [|intros _ op];
      now rewrite existsb_filter, removed_key_not_selected.
Qed.

(** ** The mock endpoint reads what the encoder wrote *)

Lemma find_filter {A : Type} (p : A -> bool) (l : list A) :
  find p l = hd_error (filter p l).
Proof.
  induction l as [|x l IH]; cbn; [reflexivity|].
  destruct (p x); [reflexivity|exact IH].
Qed.

Lemma get_filter (params : URLSearchParams) (n : string) :
  get params n = option_map snd (hd_error (filter (name_is n) params)).
Proof. unfold get. now rewrite find_filter. Qed.

Lemma enumerate_from_fst {A : Type} (l : list A) :
  forall s, NoDup (map fst (enumerate_from s l))
            /\ forall j, In j (map fst (enumerate_from s l)) -> (s <= j)%N.
Proof.
  induction l as [|x l IH]; intros s; cbn.
  - split; [constructor|tauto].
  - destruct (IH (N.succ s)) as [Hnd Hge]. split.
    + constructor; [|exact Hnd]. intros H. apply Hge in H. lia.
    + intros j [<-|H]; [lia|]. apply Hge in H. lia.
Qed.

Lemma enumerate_from_snd {A : Type} (l : list A) :
  forall s, map snd (enumerate_from s l) = l.
Proof. induction l as [|x l IH]; intros s; cbn; [|rewrite IH]; reflexivity. Qed.

Lemma block_other_index (P : string) (i j : N) (c : Criteria) :
  In P ["key"; "operation"; "values"] -> j <> i ->
  filter (name_is (P ++ decimal i)) (criterion_pairs (j, c)) = [].
Proof.
  intros HP Hne. apply filter_none. intros p Hp. unfold name_is.
  apply String.eqb_neq. intros E.
  cbn in HP.
  apply In_criterion_pairs in Hp as [->|[->|(v & _ & ->)]]; cbn [fst] in E;
    destruct HP as [<-|[<-|[<-|[]]]]; try name_clash;
    apply append_inj_l, decimal_inj in E; congruence.
Qed.

Lemma rest_other_name (q : DynamicQuery) (P : string) (d : string) :
  In P ["key"; "operation"; "values"] ->
  filter (name_is (P ++ d))
    (array_pairs "select" (select q)
       ++ array_pairs "selectAs" (selectAs q)
       ++ array_pairs "orderBy" (orderBy q)
       ++ array_pairs "orderByDirection" (orderByDirection q)
       ++ number_pairs "page" (page q)
       ++ number_pairs "pageSize" (pageSize q))
  = [].
Proof.
  intros HP. apply filter_none. intros p Hp. unfold name_is.
  apply String.eqb_neq. intros E. rewrite !in_app_iff in Hp.
  destruct Hp as [H|[H|[H|[H|[H|H]]]]];
    try (apply In_array_pairs in H as (j & H));
    try (apply In_number_pairs in H);
    rewrite H in E; cbn in HP; destruct HP as [<-|[<-|[<-|[]]]]; name_clash.
Qed.

(** Among the emitted parameters, those named [P{i}] are those of the
    block of the criterion at position [i]. *)
Lemma filter_expected_block (q : DynamicQuery) (P : string) (i : N)
  (c : Criteria) :
  In P ["key"; "operation"; "values"] ->
  In (i, c) (enumerate (criteria q)) ->
  filter (name_is (P ++ decimal i)) (expected_pairs q)
  = filter (name_is (P ++ decimal i)) (criterion_pairs (i, c)).
Proof.
  intros HP Hin. unfold expected_pairs, criteria_pairs.
  rewrite filter_app, rest_other_name, app_nil_r by assumption.
  unfold enumerate in *.
  destruct (enumerate_from_fst (criteria q) 0) as [Hnd _].
  apply in_split in Hin as (l1 & l2 & E). rewrite E in *.
  rewrite map_app in Hnd. cbn [map fst] in Hnd.
  apply NoDup_remove_2 in Hnd.
  assert (Hout : forall l,
             (forall jc, In jc l -> In (fst jc) (map fst l1 ++ map fst l2)) ->
             filter (name_is (P ++ decimal i)) (flat_map criterion_pairs l)
             = []).
  { induction l as [|[j c'] l IH]; intros Hl; [reflexivity|].
    cbn [flat_map]. rewrite filter_app, IH.
    - rewrite block_other_index; [reflexivity|assumption|].
      intros ->. apply Hnd. apply (Hl (i, c')). now left.
    - intros jc Hjc. apply Hl. now right. }
  rewrite flat_map_app. cbn [flat_map]. rewrite !filter_app.
  rewrite (Hout l1), (Hout l2); [now rewrite app_nil_r| |].
  - intros jc Hjc. apply in_or_app. right. now apply in_map.
  - intros jc Hjc. apply in_or_app. left. now apply in_map.
Qed.

Lemma name_is_same (n v : string) : name_is n (n, v) = true.
Proof. apply String.eqb_refl. Qed.

Lemma block_key (i : N) (c : Criteria) :
  filter (name_is ("key" ++ decimal i)) (criterion_pairs (i, c))
  = [(("key" ++ decimal i)%string, key c)].
Proof.
  unfold criterion_pairs. cbn [filter]. rewrite name_is_same.
  change (name_is ("key" ++ decimal i)
            (("operation" ++ decimal i)%string, operation c)) with false.
  f_equal. apply filter_none. intros p Hp.
  apply in_map_iff in Hp as (v & <- & _). reflexivity.
Qed.

Lemma block_operation (i : N) (c : Criteria) :
  filter (name_is ("operation" ++ decimal i)) (criterion_pairs (i, c))
  = [(("operation" ++ decimal i)%string, operation c)].
Proof.
  unfold criterion_pairs. cbn [filter]. rewrite name_is_same.
  change (name_is ("operation" ++ decimal i)
            (("key" ++ decimal i)%string, key c)) with false.
  cbv iota. f_equal. apply filter_none. intros p Hp.
  apply in_map_iff in Hp as (v & <- & _). reflexivity.
Qed.

Lemma block_values (i : N) (c : Criteria) :
  map snd (filter (name_is ("values" ++ decimal i)) (criterion_pairs (i, c)))
  = values c.
Proof.
  unfold criterion_pairs. cbn [filter].
  change (name_is ("values" ++ decimal i)
            (("key" ++ decimal i)%string, key c)) with false.
  change (name_is ("values" ++ decimal i)
            (("operation" ++ decimal i)%string, operation c)) with false.
  cbv iota.
  induction (values c) as [|v vs IH]; [reflexivity|].
  cbn [map filter]. rewrite name_is_same. cbn [map snd]. now rewrite IH.
Qed.

Lemma remove_first_prefix (p s : string) : remove_first p (p ++ s) = s.
Proof.
  destruct p as [|c p]; [now destruct s|].
  cbn [String.append remove_first]. unfold remove_first.
  change (strip_prefix (String c p) (String c (p ++ s)))
    with (strip_prefix (String c p) (String c p ++ s)).
  now rewrite strip_prefix_app.
Qed.

Lemma criteriaKeys_expected (q : DynamicQuery) :
  filter (fun k => startsWith k "key") (map fst (expected_pairs q))
  = map (fun ic => ("key" ++ decimal (fst ic))%string) (enumerate (criteria q)).
Proof.
  unfold expected_pairs. rewrite map_app, filter_app.
  assert (Hrest : filter (fun k => startsWith k "key")
                    (map fst
                       (array_pairs "select" (select q)
                          ++ array_pairs "selectAs" (selectAs q)
                          ++ array_pairs "orderBy" (orderBy q)
                          ++ array_pairs "orderByDirection" (orderByDirection q)
                          ++ number_pairs "page" (page q)
                          ++ number_pairs "pageSize" (pageSize q))) = []).
  { apply filter_none. intros k Hk. apply in_map_iff in Hk as (p & <- & Hp).
    rewrite !in_app_iff in Hp.
    destruct Hp as [H|[H|[H|[H|[H|H]]]]];
      try (apply In_array_pairs in H as (j & ->));
      try (apply In_number_pairs in H as ->); reflexivity. }
  rewrite Hrest, app_nil_r. unfold criteria_pairs, enumerate.
  induction (enumerate_from 0 (criteria q)) as [|[i c] l IH]; [reflexivity|].
  cbn [flat_map map]. rewrite map_app, filter_app, IH. cbn [fst].
  unfold criterion_pairs. cbn [map filter fst].
  assert (Hk : startsWith ("key" ++ decimal i) "key" = true)
    by (unfold startsWith; now rewrite strip_prefix_app).
  rewrite Hk.
  change (startsWith ("operation" ++ decimal i) "key") with false.
  cbn [app]. f_equal.
  rewrite filter_none; [reflexivity|].
  intros k Hin. apply in_map_iff in Hin as (p & <- & Hp).
  apply in_map_iff in Hp as (v & <- & _). reflexivity.
Qed.

Lemma GET_criterion_expected (Item : Type)
  (item_matches : string -> string -> list string -> Item -> bool)
  (q : DynamicQuery) (i : N) (c : Criteria) (data : list Item) :
  In (i, c) (enumerate (criteria q)) ->
  GET_criterion Item item_matches (expected_pairs q) data
    ("key" ++ decimal i)
  = if applicable c
    then filter (item_matches (key c) (operation c) (values c)) data
    else data.
Proof.
  intros Hin. unfold GET_criterion.
  rewrite remove_first_prefix, !get_filter. unfold getAll.
  change (fun p : string * string => String.eqb (fst p) ("values" ++ decimal i))
    with (name_is ("values" ++ decimal i)).
  rewrite !(filter_expected_block q _ i c) by (assumption || cbn; tauto).
  rewrite block_key, block_operation, block_values. cbn [hd_error option_map snd].
  unfold applicable, has_values.
  destruct (key c); [reflexivity|]. destruct (operation c); [reflexivity|].
  destruct (values c); reflexivity.
Qed.

Lemma GET_fold_expected (Item : Type)
  (item_matches : string -> string -> list string -> Item -> bool)
  (q : DynamicQuery) :
  forall (l : list (N * Criteria)) (data : list Item),
    (forall ic, In ic l -> In ic (enumerate (criteria q))) ->
    fold_left (GET_criterion Item item_matches (expected_pairs q))
      (map (fun ic => ("key" ++ decimal (fst ic))%string) l) data
    = filter_by Item item_matches (filter applicable (map snd l)) data.
Proof.
  induction l as [|[i c] l IH]; intros data Hl; [reflexivity|].
  cbn [map fold_left fst snd filter].
  rewrite (GET_criterion_expected Item item_matches q i c) by (apply Hl; now left).
  rewrite IH by (intros ic Hic; apply Hl; now right).
  destruct (applicable c); reflexivity.
Qed.

(** X16: for a query whose strings are well-formed Unicode (no lone
    surrogate), on the string [toQueryString] returns the criteria loop
    of the endpoint filters the rows by exactly the criteria of the query
    that have a non-empty key, a non-empty operation and at least one
    value, in their order, each with its key, operation and values as
    they are in the query, whatever characters they contain ([%] and
    [&&] included); a criterion without values is skipped. *)
Theorem X16_endpoint_applies_encoded_criteria :
  forall (Item : Type)
    (item_matches : string -> string -> list string -> Item -> bool)
    (this : QueryBuilder) (mockData : list Item),
    unicode_query (query this) = true ->
    GET_filtered Item item_matches
      (URLSearchParams_new (toQueryString this)) mockData
    = filter_by Item item_matches
        (filter applicable (criteria (query this))) mockData.
Proof.
  intros Item item_matches this data _. unfold toQueryString, GET_filtered.
  rewrite URLSearchParams_new_toString, toQueryString_params_expected.
  rewrite criteriaKeys_expected, GET_fold_expected by auto.
  unfold enumerate. now rewrite enumerate_from_snd.
Qed.

(** The theorem on rows that are strings, kept when they are among the
    values of the criterion: the criterion without values is skipped,
    the other keeps the rows [100%] and [a&&b]. *)
Lemma X16_witness :
  let item_matches :=
    fun (_ _ : string) (vs : list string) (item : string) =>
      existsb (String.eqb item) vs in
  let this :=
    mkQueryBuilder
      (query_of [mkCriteria "status" "EQUAL" [];
                 mkCriteria "name" "EQUAL" ["100%"; "a&&b"]]) in
  let mockData := ["100%"; "x"; "a&&b"; "a"] in
  unicode_query (query this) = true
  /\ filter_by string item_matches
       (filter applicable (criteria (query this))) mockData
     = ["100%"; "a&&b"]
  /\ GET_filtered string item_matches
       (URLSearchParams_new (toQueryString this)) mockData
     = filter_by string item_matches
         (filter applicable (criteria (query this))) mockData.
Proof.
  intros item_matches this mockData.
  split; [reflexivity|]. split; [vm_compute; reflexivity|].
  apply (X16_endpoint_applies_encoded_criteria string item_matches this
           mockData).
  reflexivity.
Defined.

